(** * til: page composers (Index, Feed, Page) over hyperjsx nodes, and the
    authoring command

    Shallow embedding of the composer module of [src/til.mjs]
    ([Index], [Feed], [Page], [Document], [isHeadElement], [OpenGraph],
    [JSONLD], [GTag], [License], [Attribution], [YouTube]) together with the
    parts of the JavaScript run time the composers lean on: values and
    truthiness, insertion-ordered objects, [Array.prototype.sort] with a
    comparator, [JSON.stringify], and the node builder [h] and context
    runtime of hyperjsx; and of the two versions of the authoring command
    [main], as programs over the calls they make to git, the editor, the
    file system and the console.

    Strings are [String.string]; one [ascii] stands for one unit of a
    JavaScript string.  The non-ASCII literals of the source are written as
    they stand in the file and only ever take part in concatenations. *)

From Stdlib Require Import List String Ascii ZArith Lia Bool Arith.
From Stdlib Require Import Permutation Sorted DecimalString.
Import ListNotations.
Open Scope string_scope.
Open Scope Z_scope.

Set Warnings "-register-all".

(** ** Completions: a call returns or throws *)

Inductive exn : Type :=
| TypeError.

Inductive result (A : Type) : Type :=
| Ok (a : A)
| Throw (e : exn)
| Diverged.   (* only the fuel-bounded render pass produces it *)

Arguments Ok {A} a.
Arguments Throw {A} e.
Arguments Diverged {A}.

Definition bind {A B : Type} (m : result A) (k : A -> result B) : result B :=
  match m with
  | Ok a => k a
  | Throw e => Throw e
  | Diverged => Diverged
  end.

Notation "x <- m ;; k" := (bind m (fun x => k))
  (at level 61, m at next level, right associativity).

Fixpoint mapM {A B : Type} (f : A -> result B) (l : list A) : result (list B) :=
  match l with
  | [] => Ok []
  | a :: l' => b <- f a ;; bs <- mapM f l' ;; Ok (b :: bs)
  end.

Fixpoint filterM {A : Type} (f : A -> result bool) (l : list A) : result (list A) :=
  match l with
  | [] => Ok []
  | a :: l' => b <- f a ;; r <- filterM f l' ;; Ok (if b then a :: r else r)
  end.

(** ** JavaScript values *)

(** Numbers: the integers the program handles, and NaN. *)
Inductive number : Type :=
| NaN
| Int (z : Z).

(** A luxon [DateTime]: the instant, as the epoch milliseconds its [valueOf]
    returns, and the zone it is read in, as the offset from UTC in minutes.
    Arithmetic and comparison see the instant alone; formatting sees both. *)
Record DateTime : Type := mkDateTime { valueOf : Z; offset : Z }.

(** Functions of this module that are passed around as values. *)
Inductive component : Type :=
| Document_
| GTag_
| License_
| Attribution_
| YouTube_
| Compiled (name : string).   (* a compiled markdown body, the [Content] prop *)

(** What stands in a node's [type] field. *)
Inductive ntype : Type :=
| Tag (name : string)      (* 'meta', 'section', ... *)
| Fn (c : component)       (* a component, called when the tree is rendered *)
| Provider.                (* the [Path] context *)

Inductive jsval : Type :=
| VUndefined
| VNull
| VBool (b : bool)
| VNum (n : number)
| VStr (s : string)
| VDate (d : DateTime)
| VFn (c : component)
| VArr (xs : list jsval)
| VObj (fields : list (string * jsval))      (* plain mapping, in insertion order *)
| VNode (type : ntype) (props : list (string * jsval)) (children : list jsval).

(** Induction principle that reaches inside arrays, objects and nodes. *)
Section jsval_induction.
Variable P : jsval -> Prop.
Hypothesis Hundef : P VUndefined.
Hypothesis Hnull : P VNull.
Hypothesis Hbool : forall b, P (VBool b).
Hypothesis Hnum : forall n, P (VNum n).
Hypothesis Hstr : forall s, P (VStr s).
Hypothesis Hdate : forall d, P (VDate d).
Hypothesis Hfn : forall c, P (VFn c).
Hypothesis Harr : forall xs, Forall P xs -> P (VArr xs).
Hypothesis Hobj : forall fs, Forall (fun kv => P (snd kv)) fs -> P (VObj fs).
Hypothesis Hnode : forall t ps cs,
    Forall (fun kv => P (snd kv)) ps -> Forall P cs -> P (VNode t ps cs).

Fixpoint jsval_nested_ind (v : jsval) : P v :=
  let fix on_list (l : list jsval) : Forall P l :=
    match l with
    | [] => Forall_nil _
    | x :: l' => Forall_cons x (jsval_nested_ind x) (on_list l')
    end in
  let fix on_fields (l : list (string * jsval)) : Forall (fun kv => P (snd kv)) l :=
    match l with
    | [] => Forall_nil _
    | kv :: l' => Forall_cons kv (jsval_nested_ind (snd kv)) (on_fields l')
    end in
  match v with
  | VUndefined => Hundef
  | VNull => Hnull
  | VBool b => Hbool b
  | VNum n => Hnum n
  | VStr s => Hstr s
  | VDate d => Hdate d
  | VFn c => Hfn c
  | VArr xs => Harr xs (on_list xs)
  | VObj fs => Hobj fs (on_fields fs)
  | VNode t ps cs => Hnode t ps cs (on_fields ps) (on_list cs)
  end.
End jsval_induction.

(** ToBoolean. *)
Definition truthy (v : jsval) : bool :=
  match v with
  | VUndefined | VNull => false
  | VBool b => b
  | VNum NaN => false
  | VNum (Int z) => negb (z =? 0)
  | VStr s => negb (s =? EmptyString)%string
  | _ => true
  end.

(** [a && b], with [b] already evaluated (every right operand here is pure). *)
Definition and_ (a b : jsval) : jsval := if truthy a then b else a.

(** [a || b]. *)
Definition or_ (a b : jsval) : jsval := if truthy a then a else b.

(** [a === false]. *)
Definition strictEqFalse (a : jsval) : jsval :=
  match a with
  | VBool false => VBool true
  | _ => VBool false
  end.

Fixpoint digitsValue (acc : Z) (s : string) : number :=
  match s with
  | EmptyString => Int acc
  | String c s' =>
      let n := Z.of_nat (nat_of_ascii c) in
      if (48 <=? n) && (n <=? 57) then digitsValue (10 * acc + (n - 48)) s' else NaN
  end.

(** ToNumber.  An object that is neither an array nor a date converts through
    its string form "[object Object]", which is not numeric; an array
    converts through the join of its elements, so the empty array is 0 and an
    array of one element reads as that element's string form.  Strings are
    read as unsigned decimal integers, the empty string as 0; a string of any
    other spelling has no value among the integers modelled here. *)
Fixpoint toNumber (v : jsval) : number :=
  match v with
  | VUndefined => NaN
  | VNull => Int 0
  | VBool b => Int (if b then 1 else 0)
  | VNum n => n
  | VStr s => digitsValue 0 s
  | VDate d => Int (valueOf d)
  | VArr [] => Int 0
  | VArr [x] =>
      match x with
      | VUndefined | VNull => Int 0
      | VNum _ | VStr _ | VArr _ => toNumber x
      | _ => NaN
      end
  | VArr _ => NaN
  | VFn _ => NaN
  | VObj _ => NaN
  | VNode _ _ _ => NaN
  end.

(** Unary minus: [- v]. *)
Definition neg (v : jsval) : jsval :=
  match toNumber v with
  | NaN => VNum NaN
  | Int z => VNum (Int (- z))
  end.

(** ** Objects as insertion-ordered mappings *)

Fixpoint lookup (k : string) (fs : list (string * jsval)) : option jsval :=
  match fs with
  | [] => None
  | (k', v) :: fs' => if (k =? k')%string then Some v else lookup k fs'
  end.

(** Property read [o.k]: [undefined] when the key is missing. *)
Definition get (k : string) (fs : list (string * jsval)) : jsval :=
  match lookup k fs with
  | Some v => v
  | None => VUndefined
  end.

(** The keys of an object are listed with the array indices first, in
    ascending order, and the other keys after them in the order they were
    added.  An array index is the decimal form, with no sign and no leading
    zero, of a number below 2^32 - 1. *)
Definition indexOf (k : string) : option Z :=
  match k with
  | EmptyString => None
  | String c rest =>
      if (c =? "0")%char && negb (rest =? EmptyString)%string then None
      else match digitsValue 0 k with
           | Int z => if z <? 4294967295 then Some z else None
           | NaN => None
           end
  end.

(** [k] is listed ahead of [k']. *)
Definition precedes (k k' : string) : bool :=
  match indexOf k, indexOf k' with
  | Some i, Some j => i <? j
  | Some _, None => true
  | None, _ => false
  end.

(** Property write, on a mapping listed in that order: an existing key keeps
    its place, a new array index goes to its place among the indices, any
    other new key goes last. *)
Fixpoint assign (k : string) (v : jsval) (fs : list (string * jsval)) : list (string * jsval) :=
  match fs with
  | [] => [(k, v)]
  | (k', v') :: fs' =>
      if (k =? k')%string then (k, v) :: fs'
      else if precedes k k' then (k, v) :: fs
      else (k', v') :: assign k v fs'
  end.

(** Object spread [{ ...a, ...b }]. *)
Definition spread (a b : list (string * jsval)) : list (string * jsval) :=
  fold_left (fun acc kv => assign (fst kv) (snd kv) acc) b a.

(** ** Node builder [h] (hyperjsx) *)

(** A child argument contributes itself, or nothing when it is [false],
    [null] or [undefined], or its own contributions when it is an array. *)
Fixpoint flattenChild (v : jsval) : list jsval :=
  match v with
  | VUndefined | VNull | VBool false => []
  | VArr xs =>
      (fix go (l : list jsval) : list jsval :=
         match l with
         | [] => []
         | x :: l' => (flattenChild x ++ go l')%list
         end) xs
  | _ => [v]
  end.

Definition normalize (args : list jsval) : list jsval :=
  flat_map flattenChild args.

(** Modelled from the spec: the node builder of hyperjsx, which is imported
    and not part of the sources.  The first argument after the type is the
    attribute mapping when it is a plain mapping, and the first child
    otherwise; children are flattened and the three empty markers dropped. *)
Definition h (type : ntype) (args : list jsval) : jsval :=
  match args with
  | VObj props :: rest => VNode type props (normalize rest)
  | _ => VNode type [] (normalize args)
  end.

Definition childrenOf (v : jsval) : list jsval :=
  match v with
  | VNode _ _ cs => cs
  | _ => []
  end.

Definition propsOf (v : jsval) : list (string * jsval) :=
  match v with
  | VNode _ ps _ => ps
  | _ => []
  end.

Definition hasTag (t : string) (v : jsval) : bool :=
  match v with
  | VNode (Tag t') _ _ => (t =? t')%string
  | _ => false
  end.

(** ** Strings *)

Definition nl : string := String (ascii_of_nat 10) EmptyString.
Definition dquote : string := String (ascii_of_nat 34) EmptyString.
Definition backslash : string := String (ascii_of_nat 92) EmptyString.

(** [s.slice(b, e)] for indices that are not negative. *)
Definition slice (b e : nat) (s : string) : string := substring b (e - b) s.

(** [s.startsWith(p)]. *)
Definition startsWith (s p : string) : bool := prefix p s.

(** [Array.prototype.join] on strings. *)
Definition join (sep : string) (l : list string) : string := String.concat sep l.

(** [String(n)] for an integer. *)
Definition numToString (z : Z) : string := NilZero.string_of_int (Z.to_int z).

Definition hexDigit (n : nat) : string :=
  substring n 1 "0123456789abcdef".

(** QuoteJSONString, one unit at a time. *)
Definition quoteUnit (c : ascii) : string :=
  let n := nat_of_ascii c in
  if (n =? 34)%nat then backslash ++ dquote
  else if (n =? 92)%nat then backslash ++ backslash
  else if (n =? 8)%nat then backslash ++ "b"
  else if (n =? 9)%nat then backslash ++ "t"
  else if (n =? 10)%nat then backslash ++ "n"
  else if (n =? 12)%nat then backslash ++ "f"
  else if (n =? 13)%nat then backslash ++ "r"
  else if (n <? 32)%nat then backslash ++ "u00" ++ hexDigit (n / 16) ++ hexDigit (n mod 16)
  else String c EmptyString.

Fixpoint quoteBody (s : string) : string :=
  match s with
  | EmptyString => EmptyString
  | String c s' => quoteUnit c ++ quoteBody s'
  end.

Definition quote (s : string) : string := dquote ++ quoteBody s ++ dquote.

(** ** Entries *)

Record Frontmatter : Type := mkFrontmatter {
  title : string;
  permalink : string;
  date : DateTime;
  tags : list string;
  published : jsval          (* [VUndefined] when the key is absent *)
}.

(** ** Arrays: [sort] with a comparator, [pop] *)

Section arrays.
Context {A : Type}.

(** [x] goes in front of the first element it does not compare greater
    than, so equal elements keep the order they came in. *)
Fixpoint insertBy (cmp : A -> A -> Z) (x : A) (l : list A) : list A :=
  match l with
  | [] => [x]
  | y :: l' => if cmp x y <=? 0 then x :: l else y :: insertBy cmp x l'
  end.

(** [Array.prototype.sort(cmp)]: ascending by [cmp], stable. *)
Fixpoint sortBy (cmp : A -> A -> Z) (l : list A) : list A :=
  match l with
  | [] => []
  | x :: l' => insertBy cmp x (sortBy cmp l')
  end.

(** [Array.prototype.pop]: the last element, [None] for [undefined]. *)
Fixpoint pop (l : list A) : option A :=
  match l with
  | [] => None
  | [x] => Some x
  | _ :: l' => pop l'
  end.
End arrays.

(** ** Head or body *)

Definition isHeadType (t : string) : bool :=
  ((t =? "title") || (t =? "meta") || (t =? "link") || (t =? "script"))%string.

(** [isHeadElement]: the [switch] on [element.type].  Reading a property of
    [undefined] or [null] throws; every other value that is not a node has
    no [type], unless it is a mapping with that key. *)
Definition isHeadElement (element : jsval) : result bool :=
  match element with
  | VUndefined | VNull => Throw TypeError
  | VNode (Tag t) _ _ => Ok (isHeadType t)
  | VObj fs => Ok (match get "type" fs with VStr t => isHeadType t | _ => false end)
  | _ => Ok false
  end.

(** ** Open Graph metadata *)

(** [OpenGraph(data)]: one array slot per key of [data], in key order. *)
Definition OpenGraph (data : list (string * jsval)) : list jsval :=
  map (fun kv : string * jsval =>
         let (name, content) := kv in
         and_ content
              (h (Tag "meta")
                 [VObj [(if startsWith name "twitter:" then "name" else "property", VStr name);
                        ("content", content)]]))
      data.

(** ** Google tag *)

Definition GTag : jsval :=
  VArr [
    h (Tag "script") [VObj [("async", VBool true);
                            ("src", VStr "https://www.googletagmanager.com/gtag/js?id=UA-61714711-1")]];
    h (Tag "script") [VObj [("innerHTML", VStr (
      nl ++
      "      window.dataLayer = window.dataLayer || [];" ++ nl ++
      "      function gtag(){dataLayer.push(arguments);}" ++ nl ++
      "      gtag('js', new Date());" ++ nl ++
      "      gtag('config', 'UA-61714711-1');" ++ nl ++
      "    "))]]
  ].

(** The [components] mapping handed to compiled markdown. *)
Definition components : jsval := VObj [("YouTube", VFn YouTube_)].

(** ** What the module imports *)

(** luxon's formatting of a [DateTime], Node's [path.relative], the markdown
    helpers of [markdown.mjs] and [mdjsx.mjs], hyperjsx's serialiser [render],
    and the components whose bodies play no part below ([License],
    [Attribution], [YouTube] and the compiled [Content] of an entry). *)
Class Runtime : Type := {
  toISO : DateTime -> string;
  year : DateTime -> Z;
  toFormat : DateTime -> string -> string;
  relative : string -> string -> string;
  Markdown : Type;
  firstParagraph : Markdown -> Markdown;
  textContent : Markdown -> string;
  mdjsx : Markdown -> jsval -> jsval;
  render : jsval -> string;
  external :
    component -> option string -> list (string * jsval) -> list jsval -> result jsval
}.

(** ** The composers *)

Section composers.
Context {R : Runtime}.

Record Entry : Type := mkEntry {
  filename : string;
  lastModified : DateTime;
  frontmatter : Frontmatter;
  markdown : Markdown;
  Content : component
}.

(** *** [JSON.stringify(data, null, 2)] *)

Definition wrap (open close indent : string) (items : list string) : string :=
  match items with
  | [] => open ++ close
  | _ => open ++ nl ++ indent ++ "  "
         ++ String.concat ("," ++ nl ++ indent ++ "  ") items
         ++ nl ++ indent ++ close
  end.

(** [None] is the [undefined] that [JSON.stringify] gives for a value with
    no JSON form; a member with such a value is left out of its object, an
    array slot is written [null].  Nodes never occur in the data serialised
    by this module and are given no form. *)
Fixpoint stringify (indent : string) (v : jsval) {struct v} : option string :=
  match v with
  | VUndefined | VFn _ | VNode _ _ _ => None
  | VNull => Some "null"
  | VBool b => Some (if b then "true" else "false")
  | VNum NaN => Some "null"
  | VNum (Int z) => Some (numToString z)
  | VStr s => Some (quote s)
  | VDate d => Some (quote (toISO d))
  | VArr xs =>
      Some (wrap "[" "]" indent
        ((fix items (l : list jsval) : list string :=
            match l with
            | [] => []
            | x :: l' =>
                match stringify (indent ++ "  ") x with
                | Some s => s
                | None => "null"
                end :: items l'
            end) xs))
  | VObj fs =>
      Some (wrap "{" "}" indent
        ((fix members (l : list (string * jsval)) : list string :=
            match l with
            | [] => []
            | (k, x) :: l' =>
                match stringify (indent ++ "  ") x with
                | Some s => (quote k ++ ": " ++ s) :: members l'
                | None => members l'
                end
            end) fs))
  end.

(** *** [JSONLD] *)

Definition ldData (data : list (string * jsval)) : list (string * jsval) :=
  spread [("@context", VStr "https://schema.org/")] data.

Definition JSONLD (data : list (string * jsval)) : jsval :=
  let data := ldData data in
  h (Tag "script")
    [VObj [("type", VStr "application/ld+json");
           ("innerHTML",
            VStr (nl ++ match stringify EmptyString (VObj data) with
                        | Some s => s
                        | None => "undefined"
                        end ++ nl))]].

(** *** Ambient path context *)

(** [usePath()]: the value bound by the nearest enclosing [Path] provider;
    [Path] is created without a default, so [None] reads as [undefined].
    The program binds [Path] to strings only. *)
Definition usePath (ctx : option string) : option string := ctx.

(** [`${v}`] for what [usePath] returns. *)
Definition interpolate (v : option string) : string :=
  match v with
  | Some s => s
  | None => "undefined"
  end.

(** [useRelPath(to)]: [path.relative] rejects a [from] that is no string. *)
Definition useRelPath (ctx : option string) (to : string) : result string :=
  match usePath ctx with
  | Some from => Ok (relative from to)
  | None => Throw TypeError
  end.

(** *** [Document] *)

Definition Document (ctx : option string) (children : list jsval) : result jsval :=
  heads <- filterM isHeadElement children ;;
  let canonical := "https://leebyron.com/til" ++ interpolate (usePath ctx) in
  favicon <- useRelPath ctx "/assets/favicon.png" ;;
  style <- useRelPath ctx "/assets/style.css" ;;
  feed <- useRelPath ctx "/feed.xml" ;;
  logo <- useRelPath ctx "/assets/logo.svg" ;;
  bodies <- filterM (fun child => b <- isHeadElement child ;; Ok (negb b)) children ;;
  Ok (h (Tag "html") [
        h (Tag "head") [
          h (Tag "meta") [VObj [("charset", VStr "UTF-8")]];
          VArr heads;
          h (Tag "meta") [VObj [("name", VStr "viewport");
                                ("content", VStr "width=device-width, initial-scale=1")]];
          h (Tag "link") [VObj [("rel", VStr "canonical"); ("href", VStr canonical)]];
          h (Tag "link") [VObj [("rel", VStr "shortcut icon"); ("href", VStr favicon)]];
          h (Tag "link") [VObj [("rel", VStr "stylesheet"); ("href", VStr style)]];
          h (Tag "link") [VObj [("rel", VStr "alternate");
                                ("type", VStr "application/atom+xml");
                                ("title", VStr "Reader Feed");
                                ("href", VStr feed)]];
          h (Fn GTag_) []
        ];
        h (Tag "body") [
          h (Tag "header") [
            h (Tag "a") [VObj [("href", VStr "https://leebyron.com")];
              h (Tag "img") [VObj [("src", VStr logo); ("alt", VStr "Lee Byron")]]]
          ];
          VArr bodies
        ]
      ]).

(** *** [Index] *)

Definition Index (frontmatters : list Frontmatter) (Content : component) : jsval :=
  h Provider [
    VObj [("value", VStr "/")];
    h (Fn Document_) ((
      [ h (Tag "title") [VStr "Today I Learned / Lee Byron"] ]
      ++ OpenGraph [
           ("og:url", VStr "https://leebyron.com/til/");
           ("og:title", VStr "Lee Byron / til");
           ("og:description",
            VStr "Today I Learned: A bunch of brief blurbs on miscellaneous matter.");
           ("twitter:card", VStr "summary");
           ("twitter:title",
            VStr "Lee Byron / til: A bunch of brief blurbs on miscellaneous matter.");
           ("twitter:creator", VStr "@leeb") ]
      ++ [ JSONLD [
             ("@type", VStr "Collection");
             ("name", VStr "Today I Learned");
             ("author", VObj [("@type", VStr "Person"); ("name", VStr "Lee Byron");
                              ("url", VStr "http://leebyron.com")]);
             ("url", VStr "https://leebyron.com/til/");
             ("collectionSize", VNum (Int (Z.of_nat (List.length frontmatters))));
             ("license", VStr "https://creativecommons.org/licenses/by/4.0/") ];
           h (Tag "section") [
             h (Fn Content) [VObj [("components", components)]];
             h (Tag "h2") [VObj [("id", VStr "entry-log")];
               h (Tag "a") [VObj [("href", VStr "#entry-log"); ("data-anchor", VBool true)];
                            VStr "entry log"]];
             VArr (map (fun fm : Frontmatter =>
               h (Tag "div") [VObj [("class", VStr "entrylog")];
                 h (Tag "a") [VObj [("href", VStr (permalink fm ++ "/"))];
                              VStr (title fm)];
                 h (Tag "pre") [VObj [("class", VStr "timestamp")];
                   h (Tag "span") [VObj [("class", VStr "p2")];
                                   VStr (toFormat (date fm) "ccc, ")];
                   h (Tag "span") [VObj [("class", VStr "p0")];
                                   VStr (toFormat (date fm) "dd LLL yyyy")];
                   h (Tag "span") [VObj [("class", VStr "p1")];
                                   VStr (toFormat (date fm) " HH:mm")];
                   h (Tag "span") [VObj [("class", VStr "p3")];
                                   VStr (toFormat (date fm) ":ss ZZ")]
                 ]
               ]) frontmatters)
           ];
           h (Tag "footer") [
             h (Fn License_) [VObj [("year", VStr "2022")]]
           ] ])%list)
  ].

(** *** [Feed] *)

Definition author : jsval :=
  h (Tag "author") [h (Tag "name") [VStr "Lee Byron"];
                    h (Tag "uri") [VStr "https://leebyron.com"]].

(** The arrow function mapped over [entries] in [Feed]. *)
Definition feedEntry (e : Entry) : jsval :=
  let fm := frontmatter e in
  h (Tag "entry") [
    h (Tag "id") [VStr ("https://leebyron.com/til/" ++ permalink fm ++ "/")];
    h (Tag "link") [VObj [("rel", VStr "alternate"); ("type", VStr "text/html");
                          ("href", VStr ("https://leebyron.com/til/" ++ permalink fm ++ "/"))]];
    h (Tag "published") [VStr (toISO (date fm))];
    h (Tag "updated") [VStr (toISO (lastModified e))];
    h (Tag "title") [VStr (title fm)];
    author;
    VArr (map (fun tag => h (Tag "category") [VObj [("term", VStr tag)]]) (tags fm));
    h (Tag "content") [VObj [("type", VStr "html");
                             ("innerHTML",
                              VStr ("<![CDATA[" ++ render (mdjsx (markdown e) (VObj [("components", components)]))
                                    ++ "]]>"))]];
    h (Tag "rights") [VStr ("© " ++ numToString (year (date fm))
                            ++ " Lee Byron ⸱ licensed under CC BY 4.0")]
  ].

(** [entries.map(e => e.lastModified).sort((a, b) => a - b).pop()] *)
Definition latest (entries : list Entry) : option DateTime :=
  pop (sortBy (fun a b => valueOf a - valueOf b) (map lastModified entries)).

Definition Feed (entries : list Entry) : result jsval :=
  updated <- match latest entries with
             | Some d => Ok (toISO d)
             | None => Throw TypeError      (* [undefined.toISO()] *)
             end ;;
  Ok (h (Tag "feed") [
        VObj [("xmlns", VStr "http://www.w3.org/2005/Atom"); ("xml:lang", VStr "en-us")];
        h (Tag "id") [VStr "https://leebyron.com/til/feed.xml"];
        h (Tag "link") [VObj [("rel", VStr "self"); ("type", VStr "application/atom+xml");
                              ("href", VStr "https://leebyron.com/til/feed.xml")]];
        h (Tag "link") [VObj [("rel", VStr "alternate"); ("type", VStr "text/html");
                              ("href", VStr "https://leebyron.com/til/")]];
        h (Tag "updated") [VStr updated];
        h (Tag "title") [VStr "Lee Byron / til"];
        h (Tag "subtitle")
          [VStr "Today I Learned: A bunch of brief blurbs on miscellaneous matter."];
        h (Tag "icon") [VStr "https://leebyron.com/til/assets/favicon.png"];
        author;
        h (Tag "rights") [VStr "© 2022 Lee Byron ⸱ licensed under CC BY 4.0"];
        h (Tag "generator") [VObj [("uri", VStr "https://github.com/leebyron/til")];
                             VStr "til"];
        VArr (map feedEntry entries)
      ]).

(** *** [Page] *)

Definition frontmatterObject (fm : Frontmatter) : jsval :=
  VObj [("title", VStr (title fm)); ("permalink", VStr (permalink fm));
        ("date", VDate (date fm)); ("tags", VArr (map VStr (tags fm)));
        ("published", published fm)].

(** The mapping [Page] hands to [OpenGraph]. *)
Definition pageMetadata (e : Entry) : list (string * jsval) :=
  let fm := frontmatter e in
  [ ("og:url", VStr ("https://leebyron.com/til/" ++ permalink fm ++ "/"));
    ("og:title", VStr ("til / " ++ title fm ++ " — Lee Byron"));
    ("og:description", VStr (slice 0 200 (textContent (firstParagraph (markdown e)))));
    ("og:type", VStr "article");
    ("article:author:first_name", VStr "Lee");
    ("article:author:last_name", VStr "Byron");
    ("article:published_time", VStr (toISO (date fm)));
    ("article:modified_time", VStr (toISO (lastModified e)));
    ("twitter:card", VStr "summary");
    ("twitter:creator", VStr "@leeb") ].

(** The mapping [Page] hands to [JSONLD]. *)
Definition pageLinkedData (e : Entry) : list (string * jsval) :=
  let fm := frontmatter e in
  [ ("@type", VStr "LearningResource");
    ("name", VStr (title fm));
    ("author", VObj [("@type", VStr "Person"); ("name", VStr "Lee Byron");
                     ("url", VStr "http://leebyron.com")]);
    ("url", VStr ("https://leebyron.com/til/" ++ permalink fm ++ "/"));
    ("datePublished", VStr (toISO (date fm)));
    ("dateModified", VStr (toISO (lastModified e)));
    ("keywords", or_ (VStr (join ", " (tags fm))) VUndefined);
    ("isPartOf", VStr "https://leebyron.com/til/");
    ("license", VStr "https://creativecommons.org/licenses/by/4.0/") ].

(** The arguments of [h(Document, ...)] in [Page], in source order. *)
Definition pageArguments (e : Entry) : list jsval :=
  let fm := frontmatter e in
  ([ and_ (strictEqFalse (published fm))
          (neg (h (Tag "meta") [VObj [("name", VStr "robots"); ("content", VStr "noindex")]]));
     h (Tag "title") [VStr ("til / " ++ title fm ++ " — Lee Byron")] ]
   ++ OpenGraph (pageMetadata e)
   ++ [ JSONLD (pageLinkedData e);
        h (Tag "article") [
          h (Tag "h1") [
            h (Tag "a") [VObj [("href", VStr "../")]; VStr "til"];
            h (Tag "span") [VStr (title fm)]
          ];
          h (Fn (Content e)) [VObj [("components", components)]]
        ];
        h (Tag "footer") [
          h (Fn License_) [
            VObj [("year", VNum (Int (year (date fm))))];
            h (Fn Attribution_) [VObj [("filename", VStr (filename e));
                                       ("frontmatter", frontmatterObject fm)]]
          ]
        ] ])%list.

Definition Page (e : Entry) : jsval :=
  h Provider [
    VObj [("value", VStr ("/" ++ permalink (frontmatter e) ++ "/"))];
    h (Fn Document_) (pageArguments e)
  ].

(** *** Render pass: context providers and component calls *)

Definition invoke (c : component) (ctx : option string)
           (props : list (string * jsval)) (children : list jsval) : result jsval :=
  match c with
  | Document_ => Document ctx children
  | GTag_ => Ok GTag
  | _ => external c ctx props children
  end.

(** The value a provider node binds. *)
Definition provided (props : list (string * jsval)) : option string :=
  match get "value" props with
  | VStr s => Some s
  | _ => None
  end.

Fixpoint expandAll (f : jsval -> result (list jsval)) (l : list jsval)
  : result (list jsval) :=
  match l with
  | [] => Ok []
  | x :: l' => xs <- f x ;; rest <- expandAll f l' ;; Ok (xs ++ rest)%list
  end.

(** Modelled from the spec: the expansion pass of hyperjsx's [render], which
    is imported and not part of the sources.  A provider binds its value
    for the expansion of its children and for nothing else; a component is
    called under the binding in force where it stands, and what it returns
    is expanded in turn; booleans, [null] and [undefined] leave nothing.
    [fuel] bounds the depth of the pass. *)
Fixpoint expand (fuel : nat) (ctx : option string) (v : jsval) {struct fuel}
  : result (list jsval) :=
  match fuel with
  | O => Diverged
  | S fuel' =>
      match v with
      | VUndefined | VNull | VBool _ => Ok []
      | VArr xs => expandAll (expand fuel' ctx) xs
      | VNode (Tag t) props children =>
          cs <- expandAll (expand fuel' ctx) children ;;
          Ok [VNode (Tag t) props cs]
      | VNode Provider props children =>
          expandAll (expand fuel' (provided props)) children
      | VNode (Fn c) props children =>
          r <- invoke c ctx props children ;;
          expand fuel' ctx r
      | _ => Ok [v]
      end
  end.

End composers.

(** * Vocabulary of the properties *)

(** A value that [h] keeps as one child. *)
Definition keeps (v : jsval) : bool :=
  match v with
  | VUndefined | VNull | VBool false | VArr _ => false
  | _ => true
  end.

(** [isHeadElement] as a total test, for children that are neither
    [undefined] nor [null]. *)
Definition isHead (v : jsval) : bool :=
  match isHeadElement v with
  | Ok b => b
  | _ => false
  end.

Definition isBody (v : jsval) : bool := negb (isHead v).

(** The tag of an element, nothing for any other value. *)
Definition tagOf (v : jsval) : option string :=
  match v with
  | VNode (Tag t) _ _ => Some t
  | _ => None
  end.

(** The element [OpenGraph] builds for a key whose value is truthy. *)
Definition metaOf (kv : string * jsval) : jsval :=
  VNode (Tag "meta")
        [(if startsWith (fst kv) "twitter:" then "name" else "property", VStr (fst kv));
         ("content", snd kv)]
        [].

(** What [h] keeps of the slots of [OpenGraph] besides the elements: the
    falsy values that are not one of the three empty markers. *)
Definition leftover (v : jsval) : bool := negb (truthy v) && keeps v.

(** What the first argument of [h(Document, ...)] in [Page] evaluates to,
    given [frontmatter.published]. *)
Definition hintArgument (p : jsval) : jsval :=
  and_ (strictEqFalse p)
       (neg (h (Tag "meta") [VObj [("name", VStr "robots"); ("content", VStr "noindex")]])).

(** The children it leaves. *)
Definition hintSlot (p : jsval) : list jsval :=
  match p with
  | VBool false => [VNum NaN]
  | _ => []
  end.

(** A meta element named robots. *)
Definition isRobots (v : jsval) : bool :=
  hasTag "meta" v
  && match get "name" (propsOf v) with
     | VStr n => (n =? "robots")%string
     | _ => false
     end.

Definition noindexHint : jsval :=
  VNode (Tag "meta") [("name", VStr "robots"); ("content", VStr "noindex")] [].

(** A link element with [rel="canonical"]. *)
Definition isCanonical (v : jsval) : bool :=
  hasTag "link" v
  && match get "rel" (propsOf v) with
     | VStr r => (r =? "canonical")%string
     | _ => false
     end.

Definition headLead : jsval := VNode (Tag "meta") [("charset", VStr "UTF-8")] [].

Definition canonicalLink (from : string) : jsval :=
  VNode (Tag "link")
        [("rel", VStr "canonical"); ("href", VStr ("https://leebyron.com/til" ++ from))] [].

Definition authorNode : jsval :=
  VNode (Tag "author") []
    [VNode (Tag "name") [] [VStr "Lee Byron"];
     VNode (Tag "uri") [] [VStr "https://leebyron.com"]].

Definition categoryOf (tag : string) : jsval :=
  VNode (Tag "category") [("term", VStr tag)] [].

Definition cdata (html : string) : string := "<![CDATA[" ++ html ++ "]]>".

(** The feed's own children, ahead of the entries. *)
Definition feedLead (updated : string) : list jsval :=
  [ VNode (Tag "id") [] [VStr "https://leebyron.com/til/feed.xml"];
    VNode (Tag "link") [("rel", VStr "self"); ("type", VStr "application/atom+xml");
                        ("href", VStr "https://leebyron.com/til/feed.xml")] [];
    VNode (Tag "link") [("rel", VStr "alternate"); ("type", VStr "text/html");
                        ("href", VStr "https://leebyron.com/til/")] [];
    VNode (Tag "updated") [] [VStr updated];
    VNode (Tag "title") [] [VStr "Lee Byron / til"];
    VNode (Tag "subtitle") []
      [VStr "Today I Learned: A bunch of brief blurbs on miscellaneous matter."];
    VNode (Tag "icon") [] [VStr "https://leebyron.com/til/assets/favicon.png"];
    authorNode;
    VNode (Tag "rights") [] [VStr "© 2022 Lee Byron ⸱ licensed under CC BY 4.0"];
    VNode (Tag "generator") [("uri", VStr "https://github.com/leebyron/til")]
      [VStr "til"] ].

Section vocabulary.
Context {R : Runtime}.

(** The members [JSON.stringify] writes for an object. *)
Definition written (fs : list (string * jsval)) : list (string * jsval) :=
  filter (fun kv => match stringify "  " (snd kv) with Some _ => true | None => false end) fs.

(** One line of an object: the quoted key, a colon and the value. *)
Definition member (indent : string) (kv : string * jsval) : string :=
  quote (fst kv) ++ ": "
  ++ match stringify indent (snd kv) with
     | Some text => text
     | None => "undefined"
     end.

(** What [Document] itself contributes to the head and to the body when
    [Path] is bound to [from]. *)
Definition headTrail (from : string) : list jsval :=
  [ VNode (Tag "meta") [("name", VStr "viewport");
                        ("content", VStr "width=device-width, initial-scale=1")] [];
    canonicalLink from;
    VNode (Tag "link") [("rel", VStr "shortcut icon");
                        ("href", VStr (relative from "/assets/favicon.png"))] [];
    VNode (Tag "link") [("rel", VStr "stylesheet");
                        ("href", VStr (relative from "/assets/style.css"))] [];
    VNode (Tag "link") [("rel", VStr "alternate"); ("type", VStr "application/atom+xml");
                        ("title", VStr "Reader Feed");
                        ("href", VStr (relative from "/feed.xml"))] [];
    VNode (Fn GTag_) [] [] ].

(** The head trail once [GTag] has been called. *)
Definition renderedTrail (from : string) : list jsval :=
  (removelast (headTrail from) ++ childrenOf (h (Tag "head") [GTag]))%list.

Definition bodyLead (from : string) : jsval :=
  VNode (Tag "header") []
    [VNode (Tag "a") [("href", VStr "https://leebyron.com")]
       [VNode (Tag "img") [("src", VStr (relative from "/assets/logo.svg"));
                           ("alt", VStr "Lee Byron")] []]].

Definition documentOf (from : string) (heads bodies : list jsval) : jsval :=
  VNode (Tag "html") []
    [ VNode (Tag "head") [] (headLead :: heads ++ headTrail from);
      VNode (Tag "body") [] (bodyLead from :: bodies) ].

Definition contentOf (e : Entry) : jsval :=
  VNode (Tag "content")
    [("type", VStr "html");
     ("innerHTML",
      VStr (cdata (render (mdjsx (markdown e) (VObj [("components", components)])))))]
    [].

(** The children an entry element has before and after its categories. *)
Definition entryLead (e : Entry) : list jsval :=
  let url := "https://leebyron.com/til/" ++ permalink (frontmatter e) ++ "/" in
  [ VNode (Tag "id") [] [VStr url];
    VNode (Tag "link") [("rel", VStr "alternate"); ("type", VStr "text/html");
                        ("href", VStr url)] [];
    VNode (Tag "published") [] [VStr (toISO (date (frontmatter e)))];
    VNode (Tag "updated") [] [VStr (toISO (lastModified e))];
    VNode (Tag "title") [] [VStr (title (frontmatter e))];
    authorNode ].

Definition entryTrail (e : Entry) : list jsval :=
  [ contentOf e;
    VNode (Tag "rights") []
      [VStr ("© " ++ numToString (year (date (frontmatter e)))
             ++ " Lee Byron ⸱ licensed under CC BY 4.0")] ].

Definition feedOf (updated : string) (entries : list Entry) : jsval :=
  VNode (Tag "feed")
    [("xmlns", VStr "http://www.w3.org/2005/Atom"); ("xml:lang", VStr "en-us")]
    (feedLead updated ++ map feedEntry entries).

(** What one entry element carries. *)
Definition carries (e : Entry) (x : jsval) : Prop :=
  hasTag "entry" x = true
  /\ filter (hasTag "published") (childrenOf x)
     = [VNode (Tag "published") [] [VStr (toISO (date (frontmatter e)))]]
  /\ filter (hasTag "updated") (childrenOf x)
     = [VNode (Tag "updated") [] [VStr (toISO (lastModified e))]]
  /\ filter (hasTag "category") (childrenOf x)
     = map (fun tag => VNode (Tag "category") [("term", VStr tag)] []) (tags (frontmatter e))
  /\ filter (hasTag "content") (childrenOf x)
     = [VNode (Tag "content")
          [("type", VStr "html");
           ("innerHTML",
            VStr ("<![CDATA["
                  ++ render (mdjsx (markdown e) (VObj [("components", components)]))
                  ++ "]]>"))]
          []].

(** The path [Page] binds. *)
Definition pathOf (e : Entry) : string :=
  "/" ++ permalink (frontmatter e) ++ "/".

Definition titleNode (e : Entry) : jsval :=
  VNode (Tag "title") [] [VStr ("til / " ++ title (frontmatter e) ++ " — Lee Byron")].

Definition articleNode (e : Entry) : jsval :=
  VNode (Tag "article") []
    [ VNode (Tag "h1") []
        [ VNode (Tag "a") [("href", VStr "../")] [VStr "til"];
          VNode (Tag "span") [] [VStr (title (frontmatter e))] ];
      VNode (Fn (Content e)) [("components", components)] [] ].

Definition footerNode (e : Entry) : jsval :=
  VNode (Tag "footer") []
    [ VNode (Fn License_) [("year", VNum (Int (year (date (frontmatter e)))))]
        [ VNode (Fn Attribution_)
            [("filename", VStr (filename e));
             ("frontmatter", frontmatterObject (frontmatter e))] [] ] ].

Definition linkedDataNode (e : Entry) : jsval := JSONLD (pageLinkedData e).

(** The children [Document] receives from [Page], and the two groups it
    splits them into. *)
Definition pageChildren (e : Entry) : list jsval :=
  (hintSlot (published (frontmatter e))
   ++ titleNode e
   :: normalize (OpenGraph (pageMetadata e))
   ++ [linkedDataNode e; articleNode e; footerNode e])%list.

Definition pageHeads (e : Entry) : list jsval :=
  (titleNode e
   :: map metaOf (filter (fun kv => truthy (snd kv)) (pageMetadata e))
   ++ [linkedDataNode e])%list.

Definition pageBodies (e : Entry) : list jsval :=
  (hintSlot (published (frontmatter e))
   ++ filter isBody (normalize (OpenGraph (pageMetadata e)))
   ++ [articleNode e; footerNode e])%list.

Definition descriptionOf (e : Entry) : string :=
  slice 0 200 (textContent (firstParagraph (markdown e))).

Definition descriptionNode (e : Entry) : jsval :=
  VNode (Tag "meta")
    [("property", VStr "og:description"); ("content", VStr (descriptionOf e))] [].

(** The children of the region [t] of a rendered page. *)
Definition region (t : string) (out : result (list jsval)) : list jsval :=
  match out with
  | Ok [VNode (Tag "html") _ kids] => flat_map childrenOf (filter (hasTag t) kids)
  | _ => []
  end.

End vocabulary.

(** * Concrete entries *)

(** Stand-ins for the imported functions, to run the composers on concrete
    entries: a date is printed as the reading of the clock in its zone
    followed by the offset of the zone, markdown is its own text and compiles
    to one paragraph. *)
Module Sample.

Definition compile (m : string) (options : jsval) : jsval := h (Tag "p") [VStr m].

Definition serialise (v : jsval) : string :=
  match v with
  | VNode (Tag t) _ [VStr s] => "<" ++ t ++ ">" ++ s ++ "</" ++ t ++ ">"
  | _ => EmptyString
  end.

Definition call (c : component) (ctx : option string)
           (props : list (string * jsval)) (children : list jsval) : result jsval :=
  match c with
  | Compiled m => Ok (compile m (VObj props))
  | _ => Ok (VArr children)
  end.

Definition runtime : Runtime := {|
  toISO d := "T" ++ numToString (valueOf d + 60000 * offset d)
             ++ (if offset d <? 0 then "-" else "+") ++ numToString (Z.abs (offset d));
  year d := 1970 + valueOf d / 31556952000;
  toFormat d f := f;
  relative from to := ".." ++ to;
  Markdown := string;
  firstParagraph m := m;
  textContent m := m;
  mdjsx := compile;
  render := serialise;
  external := call
|}.

Definition entry (file name link : string) (created modified : Z)
           (labels : list string) (flag : jsval) (body : string) : Entry (R := runtime) :=
  mkEntry (R := runtime) file (mkDateTime modified 0)
          (mkFrontmatter name link (mkDateTime created 0) labels flag)
          body (Compiled body).

(** 2023-01-01 and 2023-06-15, midnight UTC. *)
Definition january : Z := 1672531200000.
Definition june : Z := 1686787200000.

Definition hello : Entry (R := runtime) :=
  entry "x.md" "X" "x" january january [] VUndefined "Hello".

Definition hidden : Entry (R := runtime) :=
  entry "draft.md" "Draft" "draft" january june ["vim"; "notes"] (VBool false) "Soon".

Definition blankTag : Entry (R := runtime) :=
  entry "blank.md" "Blank" "blank" january january [EmptyString] VUndefined "Text".

Definition twin : Entry (R := runtime) :=
  entry "x-again.md" "X again" "x" june june [] VUndefined "Hello again".

(** Modified at the same instant as [twin], seven hours behind UTC. *)
Definition west : Entry (R := runtime) :=
  mkEntry (R := runtime) "west.md" (mkDateTime june (-420))
          (mkFrontmatter "West" "west" (mkDateTime june (-420)) [] VUndefined)
          "West" (Compiled "West").

End Sample.

(** * The rest of the composer module *)

(** ** [encodeURIComponent], on the units a string of the model holds *)

Definition unitIn (lo hi : nat) (c : ascii) : bool :=
  ((lo <=? nat_of_ascii c) && (nat_of_ascii c <=? hi))%nat.

(** The class [[0-9a-z]] under the flag [i]: digits and the letters of
    either case. *)
Definition isAlnum (c : ascii) : bool :=
  unitIn 48 57 c || unitIn 97 122 c || unitIn 65 90 c.

Definition oneOf (set : string) (c : ascii) : bool :=
  existsb (Ascii.eqb c) (list_ascii_of_string set).

(** The units [encodeURIComponent] leaves as they are. *)
Definition isUnreserved (c : ascii) : bool := isAlnum c || oneOf "-_.!~*'()" c.

Definition percent (n : nat) : string :=
  "%" ++ substring (n / 16) 1 "0123456789ABCDEF" ++ substring (n mod 16) 1 "0123456789ABCDEF".

(** A unit below 128 is one octet of UTF-8, a unit from 128 to 255 is two. *)
Definition encodeUnit (c : ascii) : string :=
  let n := nat_of_ascii c in
  if isUnreserved c then String c EmptyString
  else if (n <? 128)%nat then percent n
  else percent (192 + n / 64) ++ percent (128 + n mod 64).

Fixpoint encodeURIComponent (s : string) : string :=
  match s with
  | EmptyString => EmptyString
  | String c s' => encodeUnit c ++ encodeURIComponent s'
  end.

(** ** [License], [Attribution], [YouTube] *)

Section footer.
Context {R : Runtime}.

(** [date.toLocaleString({ year: 'numeric', month: 'short', day: 'numeric',
    weekday: 'short', hour: 'numeric', minute: 'numeric' })], luxon's. *)
Variable toLocaleString : DateTime -> string.

(** [Attribution({ filename, frontmatter: { permalink, date } })] *)
Definition Attribution (filename : string) (fm : Frontmatter) : jsval :=
  VArr [
    VStr "This ";
    h (Tag "a") [VObj [("property", VStr "dct:title");
                       ("rel", VStr "cc:attributionURL");
                       ("href", VStr ("https://leebyron.com/til/" ++ permalink fm ++ "/"))];
                 VStr "til"];
    VStr " was created ";
    h (Tag "span") [VObj [("property", VStr "dct:created");
                          ("content", VStr (toISO (date fm)))];
                    VStr (toLocaleString (date fm))];
    VStr " ⸱ ";
    h (Tag "a") [VObj [("href",
                        VStr ("https://raw.githubusercontent.com/leebyron/til/main/entries/"
                              ++ encodeURIComponent filename));
                       ("target", VStr "__blank")];
                 VStr "raw"];
    VStr " ⸱ ";
    h (Tag "a") [VObj [("href",
                        VStr ("https://github.com/leebyron/til/edit/main/entries/"
                              ++ encodeURIComponent filename ++ "#L8"));
                       ("target", VStr "__blank")];
                 VStr "edit"]
  ].

(** [License({ year, children })]: [children] is whatever value the caller's
    [children] property holds. *)
Definition License (ctx : option string) (year children : jsval) : result jsval :=
  feed <- useRelPath ctx "/feed.xml" ;;
  Ok (h (Tag "div") [
        VObj [("class", VStr "license");
              ("xmlns:cc", VStr "http://creativecommons.org/ns");
              ("xmlns:dct", VStr "http://purl.org/dc/terms/")];
        children;
        and_ children (h (Tag "br") []);
        VStr "© ";
        h (Tag "span") [VObj [("rel", VStr "dct:dateCopyrighted")]; year];
        VStr " ";
        h (Tag "a") [VObj [("rel", VStr "cc:attributionURL dct:creator");
                           ("property", VStr "cc:attributionName");
                           ("href", VStr "https://leebyron.com")];
                     VStr "Lee Byron"];
        VStr " ⸱ ";
        VStr "licensed under ";
        h (Tag "a") [VObj [("href", VStr "http://creativecommons.org/licenses/by/4.0/");
                           ("target", VStr "_blank");
                           ("rel", VStr "cc:license license noopener noreferrer")];
                     VStr "CC BY 4.0";
                     h (Tag "img")
                       [VObj [("src",
                               VStr "https://mirrors.creativecommons.org/presskit/icons/cc.svg")]];
                     h (Tag "img")
                       [VObj [("src",
                               VStr "https://mirrors.creativecommons.org/presskit/icons/by.svg")]]];
        VStr " ⸱ ";
        h (Tag "a") [VObj [("href", VStr feed); ("rel", VStr "alternate feed");
                           ("type", VStr "application/atom+xml")];
                     VStr "feed"]
      ]).

End footer.

(** [YouTube({ v, aspectRatio })] *)
Definition YouTube (v : string) (aspectRatio : jsval) : jsval :=
  h (Tag "div") [
    VObj [("class", VStr "yt-player"); ("style", VObj [("--aspectRatio", aspectRatio)])];
    h (Tag "iframe") [
      VObj [("src", VStr ("https://www.youtube.com/embed/" ++ v));
            ("title", VStr "YouTube video player");
            ("frameborder", VStr "0");
            ("allow",
             VStr "accelerometer; autoplay; clipboard-write; encrypted-media; gyroscope; picture-in-picture");
            ("allowfullscreen", VBool true)]
    ]
  ].

(** * The authoring command [main] *)

(** What the two versions of [main] compute: title, file name, permalink and
    tags from the command line, the time stamp, the front-matter template and
    the quoting of a path for the shell; and the two versions themselves, as
    programs over the calls they make to git, the editor and the file
    system. *)

Definition TAGS : list string := ["vim"].

(** [list.includes(arg)] *)
Definition includes (list : list string) (arg : string) : bool :=
  existsb (String.eqb arg) list.

Definition isDash (c : ascii) : bool := (c =? "-")%char.

Fixpoint mapUnits (f : ascii -> ascii) (s : string) : string :=
  match s with
  | EmptyString => EmptyString
  | String c s' => String (f c) (mapUnits f s')
  end.

(** [String.prototype.toLowerCase], on units below 256: the capitals of ASCII
    and of Latin-1. *)
Definition lowerUnit (c : ascii) : ascii :=
  if unitIn 65 90 c || (unitIn 192 222 c && negb (unitIn 215 215 c))
  then ascii_of_nat (nat_of_ascii c + 32)
  else c.

Definition toLowerCase (s : string) : string := mapUnits lowerUnit s.

(** [s.split(sep)] for a separator of one unit. *)
Fixpoint split (sep : ascii) (s : string) : list string :=
  match s with
  | EmptyString => [EmptyString]
  | String c s' =>
      if (c =? sep)%char then EmptyString :: split sep s'
      else match split sep s' with
           | w :: ws => String c w :: ws
           | [] => [String c EmptyString]
           end
  end.

(** [s.padStart(n, '0')] *)
Definition padStart (n : nat) (s : string) : string :=
  String.concat EmptyString (repeat "0" (n - String.length s)) ++ s.

(** [const quot = str => str.replace(/\"/g, '\\"')] *)
Fixpoint quot (str : string) : string :=
  match str with
  | EmptyString => EmptyString
  | String c str' =>
      if (nat_of_ascii c =? 34)%nat then backslash ++ dquote ++ quot str'
      else String c (quot str')
  end.

(** [s.replace(/^-+|-+$/g, '')]: the dashes the string starts with and the
    dashes it ends with. *)
Fixpoint dropDashes (s : string) : string :=
  match s with
  | EmptyString => EmptyString
  | String c s' => if isDash c then dropDashes s' else s
  end.

Fixpoint stripDashes (s : string) : string :=
  match s with
  | EmptyString => EmptyString
  | String c s' =>
      match stripDashes s' with
      | EmptyString => if isDash c then EmptyString else String c EmptyString
      | r => String c r
      end
  end.

Definition trimDashes (s : string) : string := stripDashes (dropDashes s).

(** ** Calls to the outside *)

(** What [main] does to the world it does through these calls: a command
    run by [child_process.exec], a process spawned through the shell with
    the terminal handed over or with its output collected, [fs.stat],
    [fs.writeFile], [fs.unlink], the console and [process.exit]. *)
Inductive failure : Type :=
| Message (text : string)          (* [throw "..."] *)
| Failed (code : string).          (* a call that rejected, [error.code] *)

Inductive call : Type :=
| Exec (command : string) (timeout : option Z)
| SpawnInherit (command : string)
| SpawnPiped (command : string) (cwd : string)
| Stat (path : string)
| WriteFile (path : string) (data : string)
| Unlink (path : string)
| Log (text : string)
| LogError (text : string)
| LogFailure (error : failure)
| Exit (code : Z).

(** A call settles with what the process wrote, or rejects. *)
Inductive answer : Type :=
| Gave (stdout stderr : string)
| Raised (code : string).

(** The world answers a call knowing the calls made before it. *)
Definition world : Type := list call -> call -> answer.

Inductive outcome (A : Type) : Type :=
| Settled (a : A)
| Rejected (error : failure)
| Exited (code : Z).

Arguments Settled {A} a.
Arguments Rejected {A} error.
Arguments Exited {A} code.

(** An asynchronous function: from the calls made so far to the calls made
    when it is done, and how it ended. *)
Definition action (A : Type) : Type := world -> list call -> list call * outcome A.

Definition ret {A : Type} (a : A) : action A := fun _ made => (made, Settled a).

Definition andThen {A B : Type} (m : action A) (k : A -> action B) : action B :=
  fun w made =>
    match m w made with
    | (made', Settled a) => k a w made'
    | (made', Rejected error) => (made', Rejected error)
    | (made', Exited code) => (made', Exited code)
    end.

Notation "'await' x <- m ;; k" := (andThen m (fun x => k))
  (at level 61, x name, m at next level, right associativity).

Definition throw {A : Type} (error : failure) : action A :=
  fun _ made => (made, Rejected error).

Definition perform (c : call) : action answer :=
  fun w made => ((made ++ [c])%list, Settled (w made c)).

(** A call whose rejection is thrown on. *)
Definition request (c : call) : action (string * string) :=
  await a <- perform c ;;
  match a with
  | Gave stdout stderr => ret (stdout, stderr)
  | Raised code => throw (Failed code)
  end.

(** [console.log], [console.error]. *)
Definition say (c : call) : action unit :=
  await _ <- perform c ;; ret tt.

(** [process.exit(code)] *)
Definition exit {A : Type} (code : Z) : action A :=
  fun _ made => ((made ++ [Exit code])%list, Exited code).

(** [promise.catch(handler)] *)
Definition catch {A : Type} (m : action A) (handler : failure -> action A) : action A :=
  fun w made =>
    match m w made with
    | (made', Rejected error) => handler error w made'
    | done => done
    end.

(** [try { await m } finally { await cleanup }] *)
Definition finally {A : Type} (m : action A) (cleanup : action unit) : action A :=
  fun w made =>
    match m w made with
    | (made', Exited code) => (made', Exited code)
    | (made', ended) =>
        match cleanup w made' with
        | (made'', Settled _) => (made'', ended)
        | (made'', Rejected error) => (made'', Rejected error)
        | (made'', Exited code) => (made'', Exited code)
        end
    end.

(** A string is truthy when it is not empty. *)
Definition nonEmpty (s : string) : bool := negb (s =? EmptyString)%string.

(** [`"${s}"`] *)
Definition quoted (s : string) : string := dquote ++ s ++ dquote.

(** [fs.stat(p).then(() => true, error => { if (error.code === 'ENOENT')
    return false; throw error })], the same in both versions. *)
Definition exists_ (p : string) : action bool :=
  await a <- perform (Stat p) ;;
  match a with
  | Gave _ _ => ret true
  | Raised code => if (code =? "ENOENT")%string then ret false else throw (Failed code)
  end.

(** [edit]: the editor of the environment, with the terminal handed over;
    it rejects when the editor closes with a code that is not zero. *)
Definition edit (command : string) : action unit :=
  await _ <- request (SpawnInherit ("$EDITOR " ++ command)) ;; ret tt.

(** [interactive]: what the command wrote when it closed with code zero. *)
Definition interactive (command : string) (cwd : string) : action string :=
  await r <- request (SpawnPiped command cwd) ;; ret (fst r).

Module V1.

(** [argv.slice(2).join(' ')] *)
Definition title (argv : list string) : string := join " " (skipn 2 argv).

(** The name resolved against the entries directory when arguments are given:
    [argv.slice(2).join(' ').replace(/[\/:]/g, '-') + '.md'] *)
Definition filename (argv : list string) : string :=
  mapUnits (fun c => if oneOf "/:" c then "-"%char else c) (title argv) ++ ".md".

(** [title.replace(/[^0-9a-z]/gi, '-')] *)
Definition permalink (title : string) : string :=
  mapUnits (fun c => if isAlnum c then c else "-"%char) title.

(** [argv.slice(2).map(arg => arg.toLowerCase()).filter(arg => TAGS.includes(arg))] *)
Definition tags (argv : list string) : list string :=
  filter (includes TAGS) (map toLowerCase (skipn 2 argv)).

(** What [now] reads off [new Date()]. *)
Record LocalDate : Type := mkLocalDate {
  getFullYear : Z;
  getMonth : Z;
  getDate : Z;
  getHours : Z;
  getMinutes : Z;
  getSeconds : Z;
  getTimezoneOffset : Z
}.

Definition p4 (n : Z) : string :=
  (if n <? 0 then "-" else "+") ++ padStart 4 (numToString (Z.abs n)).

Definition p2 (n : Z) : string := padStart 2 (numToString n).

Definition now (date : LocalDate) : string :=
  let y := getFullYear date in
  let mo := p2 (getMonth date + 1) in
  let d := p2 (getDate date) in
  let h := p2 (getHours date) in
  let mi := p2 (getMinutes date) in
  let s := p2 (getSeconds date) in
  let tz := p4 (getTimezoneOffset date) in
  numToString y ++ "/" ++ mo ++ "/" ++ d ++ " " ++ h ++ ":" ++ mi ++ ":" ++ s ++ " " ++ tz.

Definition template (title permalink date : string) (tags : list string) : string :=
  "---" ++ nl ++
  "title: " ++ title ++ nl ++
  "permalink: " ++ permalink ++ nl ++
  "date: " ++ date ++ nl ++
  "tags: [" ++ join "," tags ++ "]" ++ nl ++
  "---" ++ nl ++
  nl ++
  nl.

Section program.

(** [TIL_PATH] and [ENTRIES], [path.resolve], [String.prototype.trim], and
    what [new Date()] reads when [now] is called. *)
Variables TIL_PATH ENTRIES : string.
Variable resolve : string -> string -> string.
Variable trim : string -> string.
Variable today : LocalDate.

Definition exec (command : string) (timeout : option Z) : action string :=
  await result <- request (Exec command timeout) ;;
  await _ <- (if nonEmpty (snd result) then say (LogError (snd result)) else ret tt) ;;
  ret (fst result).

Definition statusCommand : string :=
  "git -C " ++ quoted TIL_PATH ++ " status --porcelain".

Definition pullCommand : string := "git -C " ++ quoted TIL_PATH ++ " pull".

Definition pickCommand : string :=
  "ls | fzf --no-multi --layout=reverse --margin 7% --border=none --preview "
  ++ quoted "bat --color=always --style=plain --line-range=:500 {}"
  ++ " --preview-window=right,70%,border-none".

Definition commitCommand (fileExists : bool) (filename : string) : string :=
  "git -C " ++ quoted TIL_PATH ++ " add " ++ quoted (quot filename)
  ++ " && git commit -m "
  ++ quoted ((if fileExists then "edit" else "add") ++ ": " ++ quot filename)
  ++ " && git push || echo " ++ quoted "Not committing".

(** The entry written for a file that is not there yet. *)
Definition entry (argv : list string) : string :=
  let title := title argv in
  let permalink := permalink title in
  let date := now today in
  let tags := tags argv in
  template title permalink date tags.

Definition main (argv : list string) : action unit :=
  await _ <- say (Log "making sure til is up to date...") ;;
  await status <- exec statusCommand None ;;
  if nonEmpty status then
    await _ <- say (LogError "til repo is unclean") ;;
    exit 1
  else
    await _ <- catch (await _ <- exec pullCommand (Some 2000) ;; ret tt)
                     (fun error => say (LogFailure error)) ;;
    await name <- (if (2 <? List.length argv)%nat
                   then ret (resolve ENTRIES (filename argv))
                   else await picked <- interactive pickCommand ENTRIES ;;
                        ret (trim picked)) ;;
    let filename := resolve ENTRIES name in
    await fileExists <- exists_ filename ;;
    await _ <- (if fileExists : bool
                then edit ("+8 " ++ quoted (quot filename))
                else await _ <- request (WriteFile filename (entry argv)) ;;
                     edit ("+8 +star " ++ quoted (quot filename))) ;;
    await _ <- exec (commitCommand fileExists filename) None ;;
    ret tt.

End program.

End V1.

Module V2.

(** The class [[^\x20-\x2e\x30-\x39\x3b-\x7e]]. *)
Definition isOutside (c : ascii) : bool :=
  negb (unitIn 32 46 c || unitIn 48 57 c || unitIn 59 126 c).

(** [s.replace(/(-[^\x20-\x2e\x30-\x39\x3b-\x7e])+/g, '-')]: a run of pairs, each
    a dash and a unit of the class, becomes one dash.  [inRun] tells that the
    dash of the run is already written. *)
Fixpoint coerce (inRun : bool) (s : string) : string :=
  match s with
  | EmptyString => EmptyString
  | String d t =>
      match t with
      | EmptyString => String d EmptyString
      | String c s' =>
          if isDash d && isOutside c
          then if inRun then coerce true s' else String "-" (coerce true s')
          else String d (coerce false t)
      end
  end.

(** The file name coerced from a title:
    [title.replace(/(-[^\x20-\x2e\x30-\x39\x3b-\x7e])+/g, '-').replace(/^-+|-+$/g, '')] *)
Definition filename (title : string) : string := trimDashes (coerce false title).

(** [s.replace(/(-|[^0-9a-z])+/gi, '-')]: a run of units that are a dash or no
    digit or letter becomes one dash. *)
Fixpoint collapse (inRun : bool) (s : string) : string :=
  match s with
  | EmptyString => EmptyString
  | String c s' =>
      if isDash c || negb (isAlnum c)
      then if inRun then collapse true s' else String "-" (collapse true s')
      else String c (collapse false s')
  end.

(** [title.replace(/(-|[^0-9a-z])+/gi, '-').replace(/^-+|-+$/g, '')] *)
Definition permalink (title : string) : string := trimDashes (collapse false title).

(** [title.toLowerCase().split(' ').filter(arg => TAGS.includes(arg))] *)
Definition tags (title : string) : list string :=
  filter (includes TAGS) (split " " (toLowerCase title)).

(** [date] is what [dateTo3339] of [util.mjs] gives. *)
Definition template (title permalink date : string) (tags : list string) : string :=
  "---" ++ nl ++
  "title: " ++ title ++ nl ++
  "permalink: " ++ permalink ++ nl ++
  "date: " ++ date ++ nl ++
  "tags: [" ++ join "," tags ++ "]" ++ nl ++
  "---" ++ nl ++
  nl.

Section program.

(** [TIL_PATH] and [ENTRIES_PATH] of [util.mjs], [path.resolve],
    [String.prototype.trim] and [trimEnd], and what [dateTo3339(new Date())]
    gives when the template is filled. *)
Variables TIL_PATH ENTRIES_PATH : string.
Variable resolve : string -> string -> string.
Variables trim trimEnd : string -> string.
Variable today : string.

(** The frames a timer writes while [doing] runs are left out. *)
Definition spin {A : Type} (doing : action A) : action A := finally doing (ret tt).

Definition exec (command : string) (timeout : option Z) : action string :=
  await result <- request (Exec command timeout) ;;
  await _ <- (if nonEmpty (snd result) then say (LogError (trimEnd (snd result)))
              else ret tt) ;;
  ret (trimEnd (fst result)).

Definition run (command : string) (timeout : option Z) : action unit :=
  await result <- exec command timeout ;;
  if nonEmpty result then say (Log result) else ret tt.

Definition statusCommand : string :=
  "git -C " ++ quoted TIL_PATH ++ " status --porcelain".

Definition rebaseCommand : string :=
  "git -C " ++ quoted TIL_PATH ++ " fetch &&"
  ++ "git -C " ++ quoted TIL_PATH ++ " rebase -q".

Definition pickCommand : string :=
  "ls | tr '" ++ backslash ++ "n' '" ++ backslash ++ "0' | xargs -0 basename -s .md |"
  ++ "fzf --no-multi --layout=reverse --margin 7% --border=none --preview "
  ++ quoted "bat --color=always --style=plain --line-range=:500 {}.md"
  ++ " --preview-window=right,70%,border-none".

Definition publishCommand (isExisting : bool) (filename filepath : string) : string :=
  "git -C " ++ quoted TIL_PATH ++ " add " ++ quoted (quot filepath) ++ " &&"
  ++ "git -C " ++ quoted TIL_PATH ++ " commit -q -m "
  ++ quoted ((if isExisting then "edit" else "add") ++ ": " ++ quot filename) ++ " &&"
  ++ "git -C " ++ quoted TIL_PATH ++ " push -q &&"
  ++ "echo " ++ quoted ("Published " ++ quot filename) ++ " ||"
  ++ "echo " ++ quoted "Nothing to publish".

(** The entry read into the buffer of a file that is not there yet. *)
Definition entry (title : string) : string :=
  template title (permalink title) today (tags title).

Definition main (argv : list string) : action unit :=
  let title := V1.title argv in
  await _ <- spin (await status <- exec statusCommand None ;;
                   if nonEmpty status then throw (Message "dirty repo")
                   else run rebaseCommand (Some 5000)) ;;
  await filename <- (if nonEmpty title then ret (filename title)
                     else await picked <- interactive pickCommand ENTRIES_PATH ;;
                          ret (trim picked)) ;;
  let filepath := resolve ENTRIES_PATH (filename ++ ".md") in
  await isExisting <- exists_ filepath ;;
  await _ <- (if isExisting : bool
              then edit ("+8 " ++ quoted (quot filepath))
              else
                await made <- exec "mktemp" None ;;
                let tmpFile := trim made in
                await _ <- finally
                  (await _ <- request (WriteFile tmpFile (entry title)) ;;
                   edit (quoted ("+read " ++ tmpFile) ++ " +8 +star "
                         ++ quoted (quot filepath)))
                  (await _ <- request (Unlink tmpFile) ;; ret tt) ;;
                await still <- exists_ filepath ;;
                if still : bool then ret tt else throw (Message "aborted")) ;;
  spin (run (publishCommand isExisting filename filepath) (Some 5000)).

End program.

End V2.

(** ** Vocabulary for slugs *)

(** The string starts with a dash; it ends with one; no two dashes of it are
    adjacent. *)
Definition headDash (s : string) : bool :=
  match s with
  | String c _ => isDash c
  | EmptyString => false
  end.

Fixpoint lastDash (s : string) : bool :=
  match s with
  | EmptyString => false
  | String c EmptyString => isDash c
  | String _ t => lastDash t
  end.

Fixpoint tidy (s : string) : bool :=
  match s with
  | EmptyString => true
  | String a t => negb (isDash a && headDash t) && tidy t
  end.

(** ** Vocabulary for time stamps *)

(** The decimal digit of a number below ten; a number below a hundred in two
    digits and one below ten thousand in four. *)
Definition digit (n : Z) : string :=
  String (ascii_of_nat (48 + Z.to_nat n)) EmptyString.

Definition digits2 (n : Z) : string := digit (n / 10) ++ digit (n mod 10).

Definition digits4 (n : Z) : string := digits2 (n / 100) ++ digits2 (n mod 100).

(** ** Vocabulary for the template *)

(** The lines of a text, and a text that holds no line break. *)
Definition lines (text : string) : list string := split (ascii_of_nat 10) text.

Definition oneLine (s : string) : Prop :=
  Forall (fun c => c <> ascii_of_nat 10) (list_ascii_of_string s).

(** ** Vocabulary for the calls of [main] *)

(** What [exec] and [run] put on the console. *)
Definition logged (shown : string -> string) (stderr : string) : list call :=
  if nonEmpty stderr then [LogError (shown stderr)] else [].

Definition printed (stdout : string) : list call :=
  if nonEmpty stdout then [Log stdout] else [].

Definition isWrite (c : call) : bool :=
  match c with
  | WriteFile _ _ => true
  | _ => false
  end.

Definition isUnlink (c : call) : bool :=
  match c with
  | Unlink _ => true
  | _ => false
  end.

Definition isStat (c : call) : bool :=
  match c with
  | Stat _ => true
  | _ => false
  end.

Definition isConsole (c : call) : bool :=
  match c with
  | Log _ | LogError _ | LogFailure _ => true
  | _ => false
  end.

Definition isEditor (c : call) : bool :=
  match c with
  | SpawnInherit _ => true
  | _ => false
  end.

(** Every run of [m] adds calls that satisfy [T], whatever the world answers
    and whatever was called before. *)
Definition calls {A : Type} (T : list call -> Prop) (m : action A) : Prop :=
  forall (w : world) (made : list call),
    exists new, fst (m w made) = (made ++ new)%list /\ T new.

(** Each file written holds [data], was named after a call of [mktemp], and
    is removed again after at most the editor has run. *)
Definition removesWhatItWrites (data : string) (new : list call) : Prop :=
  forall path text,
    In (WriteFile path text) new ->
    text = data
    /\ exists before between after,
         new = (before ++ WriteFile path text :: between ++ Unlink path :: after)%list
         /\ In (Exec "mktemp" None) before
         /\ Forall (fun c => isEditor c = true) between.

(** A call that writes no file, removes none and opens no editor. *)
Definition quiet (c : call) : bool := negb (isWrite c || isUnlink c || isEditor c).

(** Nothing is removed; each file written holds [data] and is written right
    after a look that did not find it, before any editor has been opened,
    and the editor is what is called next, on that file. *)
Definition writesWhatIsMissing (data : string) (w : world) (made : list call) : Prop :=
  Forall (fun c => isUnlink c = false) made
  /\ forall path text,
       In (WriteFile path text) made ->
       text = data
       /\ exists before after,
            made = (before ++ Stat path :: WriteFile path text :: after)%list
            /\ w before (Stat path) = Raised "ENOENT"
            /\ Forall (fun c => isEditor c = false) before
            /\ (after = []
                \/ exists rest,
                     after = SpawnInherit ("$EDITOR +8 +star " ++ quoted (quot path))
                             :: rest).

(** ** A session at the desk *)

(** A world to run either version in: the repository is clean, the entry is
    not there until the editor has run, [mktemp] names a file, and every
    other call settles without a word. *)
Module Desk.

Definition answers : world :=
  fun made c =>
    match c with
    | Stat _ => if existsb isEditor made then Gave EmptyString EmptyString
                else Raised "ENOENT"
    | Exec command _ =>
        if (command =? "mktemp")%string then Gave "/tmp/tmp.til" EmptyString
        else Gave EmptyString EmptyString
    | _ => Gave EmptyString EmptyString
    end.

(** [path.resolve] of a directory and a name with no dots for segments: a
    name that starts at the root is the path. *)
Definition under (directory name : string) : string :=
  if startsWith name "/" then name else directory ++ "/" ++ name.

Definition same (s : string) : string := s.

Definition argv : list string := ["node"; "til"; "radiate"; "intent"].

Definition stamp : string := "2023-07-24T12:02:27-07:00".

Definition main : action unit :=
  V2.main "/til" "/til/entries" under same same stamp argv.

Definition today : V1.LocalDate := V1.mkLocalDate 2023 6 24 12 2 27 420.

Definition first : action unit :=
  V1.main "/til" "/til/entries" under same today argv.

End Desk.

(** ** Vocabulary for the rest of the composers *)

(** A value whose properties can be read. *)
Definition defined (v : jsval) : bool :=
  match v with
  | VUndefined | VNull => false
  | _ => true
  end.

(** The elements of an array, the [href] and the [class] of an element. *)
Definition itemsOf (v : jsval) : list jsval :=
  match v with
  | VArr xs => xs
  | _ => []
  end.

Definition hrefOf (v : jsval) : jsval := get "href" (propsOf v).

Definition hasClass (c : string) (v : jsval) : bool :=
  match get "class" (propsOf v) with
  | VStr s => (s =? c)%string
  | _ => false
  end.

(** The address of an entry's page. *)
Definition urlOf (fm : Frontmatter) : string :=
  "https://leebyron.com/til/" ++ permalink fm ++ "/".

(** The same front matter with another [published]. *)
Definition withPublished (p : jsval) (fm : Frontmatter) : Frontmatter :=
  mkFrontmatter (title fm) (permalink fm) (date fm) (tags fm) p.

Definition lineBreak : jsval := VNode (Tag "br") [] [].

(** What [License] writes after its children, bound to [from]. *)
Definition licenseTail {R : Runtime} (from : string) (year : jsval) : list jsval :=
  [ VStr "© ";
    VNode (Tag "span") [("rel", VStr "dct:dateCopyrighted")] (flattenChild year);
    VStr " ";
    VNode (Tag "a") [("rel", VStr "cc:attributionURL dct:creator");
                     ("property", VStr "cc:attributionName");
                     ("href", VStr "https://leebyron.com")]
      [VStr "Lee Byron"];
    VStr " ⸱ ";
    VStr "licensed under ";
    VNode (Tag "a") [("href", VStr "http://creativecommons.org/licenses/by/4.0/");
                     ("target", VStr "_blank");
                     ("rel", VStr "cc:license license noopener noreferrer")]
      [ VStr "CC BY 4.0";
        VNode (Tag "img")
          [("src", VStr "https://mirrors.creativecommons.org/presskit/icons/cc.svg")] [];
        VNode (Tag "img")
          [("src", VStr "https://mirrors.creativecommons.org/presskit/icons/by.svg")] [] ];
    VStr " ⸱ ";
    VNode (Tag "a") [("href", VStr (relative from "/feed.xml")); ("rel", VStr "alternate feed");
                     ("type", VStr "application/atom+xml")]
      [VStr "feed"] ].

Section index_vocabulary.
Context {R : Runtime}.

(** The same entry with another [published]. *)
Definition republish (p : Frontmatter -> jsval) (e : Entry) : Entry :=
  mkEntry (filename e) (lastModified e)
          (withPublished (p (frontmatter e)) (frontmatter e)) (markdown e) (Content e).

(** One line of the entry log of the index. *)
Definition entryLog (fm : Frontmatter) : jsval :=
  VNode (Tag "div") [("class", VStr "entrylog")]
    [ VNode (Tag "a") [("href", VStr (permalink fm ++ "/"))] [VStr (title fm)];
      VNode (Tag "pre") [("class", VStr "timestamp")]
        [ VNode (Tag "span") [("class", VStr "p2")] [VStr (toFormat (date fm) "ccc, ")];
          VNode (Tag "span") [("class", VStr "p0")] [VStr (toFormat (date fm) "dd LLL yyyy")];
          VNode (Tag "span") [("class", VStr "p1")] [VStr (toFormat (date fm) " HH:mm")];
          VNode (Tag "span") [("class", VStr "p3")] [VStr (toFormat (date fm) ":ss ZZ")] ] ].

(** What the index hands to [OpenGraph] and to [JSONLD]. *)
Definition indexMetadata : list (string * jsval) :=
  [ ("og:url", VStr "https://leebyron.com/til/");
    ("og:title", VStr "Lee Byron / til");
    ("og:description",
     VStr "Today I Learned: A bunch of brief blurbs on miscellaneous matter.");
    ("twitter:card", VStr "summary");
    ("twitter:title",
     VStr "Lee Byron / til: A bunch of brief blurbs on miscellaneous matter.");
    ("twitter:creator", VStr "@leeb") ].

Definition indexLinkedData (size : nat) : list (string * jsval) :=
  [ ("@type", VStr "Collection");
    ("name", VStr "Today I Learned");
    ("author", VObj [("@type", VStr "Person"); ("name", VStr "Lee Byron");
                     ("url", VStr "http://leebyron.com")]);
    ("url", VStr "https://leebyron.com/til/");
    ("collectionSize", VNum (Int (Z.of_nat size)));
    ("license", VStr "https://creativecommons.org/licenses/by/4.0/") ].

Definition indexHeads (size : nat) : list jsval :=
  (VNode (Tag "title") [] [VStr "Today I Learned / Lee Byron"]
   :: map metaOf indexMetadata ++ [JSONLD (indexLinkedData size)])%list.

Definition indexSection (frontmatters : list Frontmatter) (Content : component) : jsval :=
  VNode (Tag "section") []
    (VNode (Fn Content) [("components", components)] []
     :: VNode (Tag "h2") [("id", VStr "entry-log")]
          [VNode (Tag "a") [("href", VStr "#entry-log"); ("data-anchor", VBool true)]
             [VStr "entry log"]]
     :: map entryLog frontmatters).

Definition indexFooter : jsval :=
  VNode (Tag "footer") [] [VNode (Fn License_) [("year", VStr "2022")] []].

(** The children [Document] receives from [Index]. *)
Definition indexChildren (frontmatters : list Frontmatter) (Content : component)
  : list jsval :=
  (indexHeads (List.length frontmatters)
   ++ [indexSection frontmatters Content; indexFooter])%list.

End index_vocabulary.

(** * Properties *)

(** ** The node builder *)

Lemma flattenChild_keeps_id (v : jsval) : keeps v = true -> flattenChild v = [v].
Proof.
  destruct v as [| |[|]| | | | | | |]; simpl; intro H; try reflexivity; discriminate H.
Qed.

Lemma flattenChild_array (xs : list jsval) : flattenChild (VArr xs) = normalize xs.
Proof.
  unfold normalize. simpl.
  induction xs as [|x xs IH]; simpl; [reflexivity|]. now rewrite IH.
Qed.

Lemma normalize_cons (v : jsval) (l : list jsval) :
  normalize (v :: l) = (flattenChild v ++ normalize l)%list.
Proof. reflexivity. Qed.

Lemma normalize_app (l1 l2 : list jsval) :
  normalize (l1 ++ l2) = (normalize l1 ++ normalize l2)%list.
Proof. unfold normalize. apply flat_map_app. Qed.

Lemma normalize_keeps_id (l : list jsval) :
  Forall (fun v => keeps v = true) l -> normalize l = l.
Proof.
  induction 1 as [|v l Hv _ IH]; [reflexivity|].
  rewrite normalize_cons, IH, (flattenChild_keeps_id v Hv). reflexivity.
Qed.

(** Whatever the arguments, what [h] keeps is flat and free of the three
    empty markers. *)
Lemma flattenChild_kept (v : jsval) : Forall (fun c => keeps c = true) (flattenChild v).
Proof.
  induction v as [| |b|n|s|d|c|xs IH|fs _|t ps cs _ _] using jsval_nested_ind;
    try (constructor; [reflexivity|constructor]); try constructor.
  - destruct b; constructor; [reflexivity|constructor].
  - rewrite flattenChild_array. unfold normalize.
    induction IH as [|x xs Hx _ IHxs]; simpl; [constructor|].
    apply Forall_app; split; assumption.
Qed.

Lemma normalize_kept (args : list jsval) : Forall (fun c => keeps c = true) (normalize args).
Proof.
  unfold normalize. induction args as [|a args IH]; simpl; [constructor|].
  apply Forall_app; split; [apply flattenChild_kept|exact IH].
Qed.

Lemma h_children_kept (t : ntype) (args : list jsval) :
  Forall (fun c => keeps c = true) (childrenOf (h t args)).
Proof.
  unfold h. destruct args as [|a args]; [constructor|].
  destruct a; unfold childrenOf; apply normalize_kept.
Qed.

(** Flattening is idempotent: children that were built once can be handed on. *)
Lemma normalize_idempotent (args : list jsval) : normalize (normalize args) = normalize args.
Proof. apply normalize_keeps_id, normalize_kept. Qed.

Lemma filter_kept (f : jsval -> bool) (l : list jsval) :
  Forall (fun c => keeps c = true) l -> Forall (fun c => keeps c = true) (filter f l).
Proof.
  intro H. apply Forall_forall. intros x Hx. apply filter_In in Hx.
  rewrite Forall_forall in H. apply H, Hx.
Qed.

(** ** Head or body *)

Lemma isHeadElement_kept (v : jsval) : keeps v = true -> isHeadElement v = Ok (isHead v).
Proof.
  destruct v as [| |b|n|s|d|c|xs|fs|[t| |] ps cs]; simpl; intro H;
    try discriminate H; reflexivity.
Qed.

(** Only a node or a mapping can be head content, and of nodes only the four
    tags. *)
Lemma isHead_node (t : ntype) (ps : list (string * jsval)) (cs : list jsval) :
  isHead (VNode t ps cs) = true <->
  exists name, t = Tag name /\
    (name = "title" \/ name = "meta" \/ name = "link" \/ name = "script").
Proof.
  unfold isHead. destruct t as [name|c|]; simpl.
  - unfold isHeadType. rewrite !orb_true_iff, !String.eqb_eq. split.
    + intros H. exists name. split; [reflexivity|]. tauto.
    + intros (name' & E & H). inversion E; subst. tauto.
  - split; [discriminate|]. intros (name & E & _). discriminate E.
  - split; [discriminate|]. intros (name & E & _). discriminate E.
Qed.

Lemma filterM_total {A : Type} (f : A -> result bool) (g : A -> bool) (l : list A) :
  Forall (fun x => f x = Ok (g x)) l -> filterM f l = Ok (filter g l).
Proof.
  induction 1 as [|x l Hx _ IH]; simpl; [reflexivity|].
  rewrite Hx, IH. simpl. reflexivity.
Qed.

Section document_facts.
Context {R : Runtime}.

Lemma Document_kept (from : string) (children : list jsval) :
  Forall (fun c => keeps c = true) children ->
  Document (Some from) children
  = Ok (documentOf from (filter isHead children) (filter isBody children)).
Proof.
  intro K. unfold Document.
  rewrite (filterM_total isHeadElement isHead).
  2:{ eapply Forall_impl; [|exact K]. intros v Hv. now apply isHeadElement_kept. }
  rewrite (filterM_total _ isBody).
  2:{ eapply Forall_impl; [|exact K]. intros v Hv. simpl.
      rewrite (isHeadElement_kept v Hv). reflexivity. }
  cbn [bind useRelPath usePath interpolate]. f_equal.
  unfold documentOf, h. cbn [normalize flat_map]. rewrite !flattenChild_array.
  rewrite !normalize_keeps_id by (apply filter_kept; exact K).
  cbn [flattenChild app]. rewrite app_nil_r. reflexivity.
Qed.

(** Outside any provider [Document] throws: [path.relative] is handed
    [undefined]. *)
Lemma Document_unbound (children : list jsval) :
  forall html, Document None children <> Ok html.
Proof.
  intros html. unfold Document.
  destruct (filterM isHeadElement children); simpl; discriminate.
Qed.

(** C2: whatever arguments follow [Document] in [h(Document, ...)], the
    children whose type is title, meta, link or script are the ones placed in
    the head element, after the charset line and before the fixed links, and
    all other children are the ones placed in the body element after the
    header; each group is a subsequence of the children, so it keeps their
    relative order, and two argument lists with the same two groups give the
    same document however the groups were interleaved. *)
Theorem Document_places_head_and_body :
  forall (from : string) (args : list jsval),
    let children := childrenOf (h (Fn Document_) args) in
    Document (Some from) children
    = Ok (VNode (Tag "html") []
            [ VNode (Tag "head") []
                (headLead :: filter isHead children ++ headTrail from);
              VNode (Tag "body") []
                (bodyLead from :: filter (fun c => negb (isHead c)) children) ])
    /\ (forall c, In c children ->
          isHead c = true <->
          (exists ps cs name, c = VNode (Tag name) ps cs /\
             (name = "title" \/ name = "meta" \/ name = "link" \/ name = "script"))
          \/ (exists fs name, c = VObj fs /\ get "type" fs = VStr name /\
                (name = "title" \/ name = "meta" \/ name = "link" \/ name = "script")))
    /\ (forall args',
          let children' := childrenOf (h (Fn Document_) args') in
          filter isHead children' = filter isHead children ->
          filter (fun c => negb (isHead c)) children'
          = filter (fun c => negb (isHead c)) children ->
          Document (Some from) children'
          = Document (Some from) children).
Proof.
  intros from args children.
  assert (E : forall a, Document (Some from) (childrenOf (h (Fn Document_) a))
                 = Ok (documentOf from
                         (filter isHead (childrenOf (h (Fn Document_) a)))
                         (filter isBody (childrenOf (h (Fn Document_) a))))).
  { intro a. apply Document_kept, h_children_kept. }
  split; [exact (E args)|]. split.
  - intros c _. destruct c as [| |b|n|s|d|c|xs|fs|t ps cs];
      try (split; [discriminate|]; intros [(ps & cs & name & X & _)|(fs & name & X & _)];
           discriminate X).
    + unfold isHead. simpl. split.
      * intro H. right. destruct (get "type" fs) as [| | | |name| | | | |] eqn:G;
          try discriminate H.
        exists fs, name. repeat split; try assumption.
        unfold isHeadType in H. rewrite !orb_true_iff, !String.eqb_eq in H. tauto.
      * intros [(ps & cs & name & X & _)|(fs' & name & X & G & H)]; [discriminate X|].
        inversion X; subst fs'. rewrite G. unfold isHeadType.
        rewrite !orb_true_iff, !String.eqb_eq. tauto.
    + rewrite isHead_node. split.
      * intros (name & -> & H). left. now exists ps, cs, name.
      * intros [(ps' & cs' & name & X & H)|(fs & name & X & _)]; [|discriminate X].
        inversion X; subst. now exists name.
  - intros args' children' Hh Hb. unfold children', children.
    rewrite (E args'), (E args). unfold isBody.
    fold children' children. rewrite Hh, Hb. reflexivity.
Qed.

End document_facts.

(** ** Open Graph metadata *)

Lemma OpenGraph_slot (name : string) (content : jsval) (data : list (string * jsval)) :
  OpenGraph ((name, content) :: data)
  = (if truthy content then metaOf (name, content) else content) :: OpenGraph data.
Proof.
  unfold OpenGraph at 1. simpl. unfold and_. destruct (truthy content); reflexivity.
Qed.

Lemma falsy_not_node (v : jsval) (t : string) : truthy v = false -> hasTag t v = false.
Proof. destruct v; simpl; try reflexivity; discriminate. Qed.

Lemma falsy_keeps_or_drops (v : jsval) :
  truthy v = false -> normalize [v] = [] \/ normalize [v] = [v].
Proof.
  destruct v as [| |[|]| | | | | | |]; simpl; intro H; try discriminate H; auto.
Qed.

Lemma normalize_OpenGraph_metas (data : list (string * jsval)) :
  filter (hasTag "meta") (normalize (OpenGraph data))
  = map metaOf (filter (fun kv => truthy (snd kv)) data).
Proof.
  induction data as [|[name content] data IH]; [reflexivity|].
  rewrite OpenGraph_slot, normalize_cons, filter_app, IH. simpl.
  destruct (truthy content) eqn:T; [reflexivity|].
  destruct (falsy_keeps_or_drops content T) as [E|E];
    unfold normalize in E; simpl in E; rewrite app_nil_r in E; rewrite E; simpl;
    [reflexivity|]. now rewrite (falsy_not_node content "meta" T).
Qed.

(** C9: for every metadata mapping, the meta elements [OpenGraph] returns
    are, in key order, exactly one per key whose value is truthy; a key whose
    value is falsy leaves its slot holding that falsy value, which is not an
    element; each element carries the key under [name] when the key starts
    with "twitter:" and under [property] otherwise, and the value under
    [content]; and nothing changes when the slots become children of a node. *)
Theorem OpenGraph_drops_falsy_and_names_twitter :
  forall data : list (string * jsval),
    filter (hasTag "meta") (OpenGraph data)
    = map metaOf (filter (fun kv => truthy (snd kv)) data)
    /\ Forall2 (fun kv slot =>
                  if truthy (snd kv)
                  then slot = VNode (Tag "meta")
                                [(if startsWith (fst kv) "twitter:" then "name" else "property",
                                  VStr (fst kv));
                                 ("content", snd kv)] []
                  else slot = snd kv /\ hasTag "meta" slot = false)
               data (OpenGraph data)
    /\ filter (hasTag "meta") (normalize (OpenGraph data))
       = map metaOf (filter (fun kv => truthy (snd kv)) data).
Proof.
  intro data. split; [|split].
  - induction data as [|[name content] data IH]; [reflexivity|].
    rewrite OpenGraph_slot. simpl. destruct (truthy content) eqn:T; simpl.
    + now rewrite IH.
    + now rewrite (falsy_not_node content "meta" T).
  - induction data as [|[name content] data IH]; [constructor|].
    rewrite OpenGraph_slot. constructor; [|exact IH]. simpl.
    destruct (truthy content) eqn:T; [reflexivity|].
    split; [reflexivity|]. now apply falsy_not_node.
  - apply normalize_OpenGraph_metas.
Qed.

Example OpenGraph_sample :
  OpenGraph [("og:title", VStr "t"); ("og:description", VStr EmptyString);
             ("twitter:card", VStr "summary"); ("og:image", VUndefined)]
  = [ VNode (Tag "meta") [("property", VStr "og:title"); ("content", VStr "t")] [];
      VStr EmptyString;
      VNode (Tag "meta") [("name", VStr "twitter:card"); ("content", VStr "summary")] [];
      VUndefined ].
Proof. reflexivity. Qed.

(** ** Sorting by modification time *)

Section sorting_facts.
Context {A : Type}.
Variable key : A -> Z.

Let cmp (a b : A) : Z := key a - key b.
Let le (a b : A) : Prop := key a <= key b.

Lemma insertBy_Permutation (c : A -> A -> Z) (x : A) (l : list A) :
  Permutation (insertBy c x l) (x :: l).
Proof.
  induction l as [|y l IH]; simpl; [apply Permutation_refl|].
  destruct (c x y <=? 0); [apply Permutation_refl|].
  apply perm_trans with (y :: x :: l); [now apply perm_skip|apply perm_swap].
Qed.

Lemma sortBy_Permutation (c : A -> A -> Z) (l : list A) : Permutation (sortBy c l) l.
Proof.
  induction l as [|x l IH]; simpl; [constructor|].
  apply perm_trans with (x :: sortBy c l); [apply insertBy_Permutation|now apply perm_skip].
Qed.

Lemma insertBy_sorted (x : A) (l : list A) :
  StronglySorted le l -> StronglySorted le (insertBy cmp x l).
Proof.
  induction 1 as [|y l S IH F]; simpl.
  - constructor; constructor.
  - unfold cmp at 1. destruct (key x - key y <=? 0) eqn:C.
    + apply Z.leb_le in C. constructor; [now constructor|].
      constructor; [unfold le; lia|].
      eapply Forall_impl; [|exact F]. unfold le. intros z Hz. lia.
    + apply Z.leb_gt in C. constructor; [exact IH|].
      apply Forall_forall. intros z Hz.
      apply (Permutation_in _ (insertBy_Permutation cmp x l)) in Hz.
      destruct Hz as [<-|Hz]; [unfold le; lia|].
      rewrite Forall_forall in F. now apply F.
Qed.

Lemma sortBy_sorted (l : list A) : StronglySorted le (sortBy cmp l).
Proof.
  induction l as [|x l IH]; simpl; [constructor|now apply insertBy_sorted].
Qed.

Lemma pop_In (l : list A) (d : A) : pop l = Some d -> In d l.
Proof.
  induction l as [|x [|y l] IH]; simpl; intro H; [discriminate| |].
  - left. now inversion H.
  - right. now apply IH.
Qed.

Lemma pop_some (l : list A) : l <> [] -> exists d, pop l = Some d.
Proof.
  induction l as [|x [|y l] IH]; intro H; [congruence|now exists x|].
  apply IH. discriminate.
Qed.

Lemma pop_sorted_greatest (l : list A) (d : A) :
  StronglySorted le l -> pop l = Some d -> Forall (fun x => key x <= key d) l.
Proof.
  induction 1 as [|x l S IH F]; intro H; [constructor|].
  destruct l as [|y l].
  - simpl in H. inversion H; subst. constructor; [lia|constructor].
  - assert (G : Forall (fun z => key z <= key d) (y :: l)) by (apply IH; exact H).
    constructor; [|exact G].
    inversion F as [|? ? Hxy _]; subst. inversion G as [|? ? Hyd _]; subst.
    unfold le in Hxy. lia.
Qed.

(** [sort((a, b) => key(a) - key(b)).pop()] returns an element of the array
    whose key no other element exceeds. *)
Lemma pop_sortBy_greatest (l : list A) (d : A) :
  pop (sortBy (fun a b => key a - key b) l) = Some d ->
  In d l /\ forall x, In x l -> key x <= key d.
Proof.
  intro H. split.
  - apply (Permutation_in _ (sortBy_Permutation cmp l)). now apply pop_In.
  - intros x Hx.
    pose proof (pop_sorted_greatest (sortBy cmp l) d (sortBy_sorted l) H) as G.
    rewrite Forall_forall in G. apply G.
    apply (Permutation_in _ (Permutation_sym (sortBy_Permutation cmp l))). exact Hx.
Qed.

(** Inserting into a sorted array leaves the last element in place unless
    the new element is greater than it. *)
Lemma pop_insertBy (x d : A) (l : list A) :
  StronglySorted le l -> pop l = Some d ->
  pop (insertBy cmp x l) = Some (if key x <=? key d then d else x).
Proof.
  induction 1 as [|y l S IH F]; intro H; [discriminate H|].
  cbn [insertBy]. unfold cmp at 1.
  assert (Y : key y <= key d).
  { pose proof (pop_sorted_greatest (y :: l) d (SSorted_cons y S F) H) as G.
    now inversion G. }
  destruct (key x - key y <=? 0) eqn:C.
  - apply Z.leb_le in C.
    replace (key x <=? key d) with true by (symmetry; apply Z.leb_le; lia).
    change (pop (x :: y :: l)) with (pop (y :: l)). exact H.
  - apply Z.leb_gt in C. destruct l as [|z l].
    + cbn in H. inversion H; subst d. cbn.
      replace (key x <=? key y) with false by (symmetry; apply Z.leb_gt; lia).
      reflexivity.
    + change (pop (y :: z :: l)) with (pop (z :: l)) in H. specialize (IH H).
      destruct (insertBy cmp x (z :: l)) as [|u us] eqn:E; [discriminate IH|].
      exact IH.
Qed.

(** The sort is stable, so of the elements with the greatest key [pop] returns
    the one that came last. *)
Lemma pop_sortBy_last_greatest (l : list A) (d : A) :
  pop (sortBy cmp l) = Some d ->
  exists before after,
    l = (before ++ d :: after)%list
    /\ Forall (fun x => key x <= key d) before
    /\ Forall (fun x => key x < key d) after.
Proof.
  revert d. induction l as [|x l IH]; intros d H; [discriminate H|].
  cbn [sortBy] in H. destruct l as [|y l].
  - cbn in H. inversion H; subst. exists [], []. repeat split; constructor.
  - destruct (pop (sortBy cmp (y :: l))) as [d'|] eqn:P.
    2:{ exfalso. destruct (pop_some (sortBy cmp (y :: l))) as [d' D]; [|congruence].
        intro E. pose proof (sortBy_Permutation cmp (y :: l)) as Q. rewrite E in Q.
        apply Permutation_nil in Q. discriminate Q. }
    rewrite (pop_insertBy x d' _ (sortBy_sorted (y :: l)) P) in H.
    destruct (IH d' eq_refl) as (before & after & E & B & L).
    destruct (key x <=? key d') eqn:C; inversion H; subst d.
    + apply Z.leb_le in C. exists (x :: before), after. rewrite E.
      split; [reflexivity|]. split; [constructor; assumption|exact L].
    + apply Z.leb_gt in C. exists [], (y :: l). split; [reflexivity|].
      split; [constructor|]. rewrite E. apply Forall_app. split.
      * eapply Forall_impl; [|exact B]. cbv beta. intros z Hz. lia.
      * constructor; [lia|]. eapply Forall_impl; [|exact L]. cbv beta. intros z Hz. lia.
Qed.

Lemma pop_sortBy_some (c : A -> A -> Z) (l : list A) :
  l <> [] -> exists d, pop (sortBy c l) = Some d.
Proof.
  intro H. apply pop_some. intro E.
  pose proof (sortBy_Permutation c l) as P. rewrite E in P.
  apply Permutation_nil in P. contradiction.
Qed.
End sorting_facts.

(** ** The feed *)

Lemma filter_map_all {A B : Type} (p : B -> bool) (f : A -> B) (l : list A) :
  (forall a, p (f a) = true) -> filter p (map f l) = map f l.
Proof.
  intro H. induction l as [|a l IH]; simpl; [reflexivity|]. now rewrite H, IH.
Qed.

Lemma filter_map_none {A B : Type} (p : B -> bool) (f : A -> B) (l : list A) :
  (forall a, p (f a) = false) -> filter p (map f l) = [].
Proof.
  intro H. induction l as [|a l IH]; simpl; [reflexivity|]. now rewrite H, IH.
Qed.

Lemma normalize_map_kept {A : Type} (f : A -> jsval) (l : list A) :
  (forall a, keeps (f a) = true) -> normalize (map f l) = map f l.
Proof.
  intro H. apply normalize_keeps_id, Forall_forall.
  intros v Hv. apply in_map_iff in Hv. destruct Hv as (a & <- & _). apply H.
Qed.

Section feed_facts.
Context {R : Runtime}.

Lemma feedEntry_children (e : Entry) :
  feedEntry e
  = VNode (Tag "entry") []
      (entryLead e ++ map categoryOf (tags (frontmatter e)) ++ entryTrail e).
Proof.
  unfold feedEntry, author, h. cbn [normalize flat_map].
  rewrite flattenChild_array.
  rewrite (normalize_map_kept
             (fun tag => VNode (Tag "category") [("term", VStr tag)] [])) by reflexivity.
  cbn [flattenChild app]. reflexivity.
Qed.

Lemma feedEntry_tag (t : string) (e : Entry) :
  hasTag t (feedEntry e) = (t =? "entry")%string.
Proof. rewrite feedEntry_children. reflexivity. Qed.

Lemma Feed_latest (entries : list Entry) (d : DateTime) :
  latest entries = Some d -> Feed entries = Ok (feedOf (toISO d) entries).
Proof.
  intro L. unfold Feed. rewrite L. cbn [bind]. f_equal.
  unfold feedOf, author, h. cbn [normalize flat_map].
  rewrite flattenChild_array.
  rewrite (normalize_map_kept feedEntry)
    by (intro e; rewrite feedEntry_children; reflexivity).
  cbn [flattenChild app]. rewrite app_nil_r. reflexivity.
Qed.

Lemma latest_some (entries : list Entry) :
  entries <> [] -> exists d, latest entries = Some d.
Proof.
  intro H. apply pop_sortBy_some. destruct entries; [congruence|discriminate].
Qed.

Lemma latest_greatest (entries : list Entry) (d : DateTime) :
  latest entries = Some d ->
  In d (map lastModified entries)
  /\ forall e, In e entries -> valueOf (lastModified e) <= valueOf d.
Proof.
  intro H. apply (pop_sortBy_greatest valueOf) in H. destruct H as [I G].
  split; [exact I|]. intros e He. apply G. now apply in_map.
Qed.

(** Of the entries modified at the latest instant, [latest] is the
    [lastModified] of the one that comes last in the list. *)
Lemma latest_last (entries : list Entry) (d : DateTime) :
  latest entries = Some d ->
  exists before after,
    map lastModified entries = (before ++ d :: after)%list
    /\ Forall (fun x => valueOf x <= valueOf d) before
    /\ Forall (fun x => valueOf x < valueOf d) after.
Proof. intro H. now apply (pop_sortBy_last_greatest valueOf). Qed.

(** Reordering the entries keeps the instant, not the [DateTime]. *)
Lemma latest_Permutation (entries entries' : list Entry) (d : DateTime) :
  Permutation entries entries' -> latest entries = Some d ->
  exists d', latest entries' = Some d'
             /\ In d' (map lastModified entries)
             /\ valueOf d' = valueOf d.
Proof.
  intros P L.
  assert (NE : entries' <> []).
  { intros ->. apply Permutation_sym, Permutation_nil in P. subst entries.
    discriminate L. }
  destruct (latest_some entries' NE) as [d' L']. exists d'.
  destruct (latest_greatest entries d L) as [I G].
  destruct (latest_greatest entries' d' L') as [I' G'].
  split; [exact L'|].
  assert (J : In d' (map lastModified entries)).
  { apply (Permutation_in _ (Permutation_map lastModified (Permutation_sym P))).
    exact I'. }
  split; [exact J|].
  apply in_map_iff in I. destruct I as (e & Ee & He).
  apply in_map_iff in J. destruct J as (e' & Ee' & He').
  assert (valueOf d <= valueOf d').
  { rewrite <- Ee. apply G'. now apply (Permutation_in _ P). }
  assert (valueOf d' <= valueOf d).
  { rewrite <- Ee'. now apply G. }
  lia.
Qed.

Lemma feedOf_updated (updated : string) (entries : list Entry) :
  filter (hasTag "updated") (childrenOf (feedOf updated entries))
  = [VNode (Tag "updated") [] [VStr updated]].
Proof.
  unfold feedOf, childrenOf. rewrite filter_app.
  rewrite (filter_map_none (hasTag "updated") feedEntry)
    by (intro e; apply feedEntry_tag).
  reflexivity.
Qed.

Lemma feedOf_entries (updated : string) (entries : list Entry) :
  filter (hasTag "entry") (childrenOf (feedOf updated entries)) = map feedEntry entries.
Proof.
  unfold feedOf, childrenOf. rewrite filter_app.
  rewrite (filter_map_all (hasTag "entry") feedEntry)
    by (intro e; apply feedEntry_tag).
  reflexivity.
Qed.


(** C7: composing the feed of no entries throws ([pop] of the empty array is
    [undefined], whose [toISO] cannot be read); no feed document comes out,
    with or without an updated element. *)
Theorem Feed_of_no_entries_throws :
  Feed [] = Throw TypeError
  /\ (forall doc, Feed [] <> Ok doc)
  /\ (forall entries doc, Feed entries = Ok doc -> entries <> []).
Proof.
  assert (E : Feed [] = Throw TypeError) by reflexivity.
  split; [exact E|]. split.
  - intros doc H. rewrite E in H. discriminate H.
  - intros entries doc H ->. rewrite E in H. discriminate H.
Qed.

Lemma feedEntry_carries (e : Entry) : carries e (feedEntry e).
Proof.
  unfold carries. rewrite feedEntry_children. unfold childrenOf.
  rewrite !filter_app.
  rewrite (filter_map_all (hasTag "category") categoryOf) by reflexivity.
  rewrite !(filter_map_none _ categoryOf) by reflexivity.
  repeat split.
  cbn [entryLead entryTrail filter hasTag authorNode contentOf app String.eqb Ascii.eqb Bool.eqb].
  apply app_nil_r.
Qed.

Lemma feedEntries_carry (entries : list Entry) :
  Forall2 carries entries (map feedEntry entries).
Proof.
  induction entries as [|e entries IH]; constructor; [apply feedEntry_carries|exact IH].
Qed.

Lemma feedOf_tags (updated : string) (entries : list Entry) :
  map tagOf (childrenOf (feedOf updated entries))
  = (map Some ["id"; "link"; "link"; "updated"; "title"; "subtitle"; "icon"; "author";
               "rights"; "generator"]
     ++ map (fun _ => Some "entry") entries)%list.
Proof.
  unfold feedOf, childrenOf. rewrite map_app, map_map. f_equal.
Qed.

(** C6: for a list of entries that is not empty (the empty list gives no
    document), [Feed] returns a feed element, not an html element with head and
    body; its children are its ten own elements followed by one entry element
    per entry, in order; the entry element of an entry holds the ISO form of
    the front-matter date as published, the ISO form of [lastModified] as
    updated, one category element per tag with the tag as its term, in order,
    and one content element whose [innerHTML] is the rendered markdown between
    the CDATA opening and closing marks. *)
Theorem Feed_entry_per_entry :
  forall entries : list Entry,
    entries <> [] ->
    exists (doc : jsval),
      Feed entries = Ok doc
      /\ hasTag "feed" doc = true
      /\ map tagOf (childrenOf doc)
         = (map Some ["id"; "link"; "link"; "updated"; "title"; "subtitle"; "icon";
                      "author"; "rights"; "generator"]
            ++ map (fun _ => Some "entry") entries)%list
      /\ List.length (filter (hasTag "entry") (childrenOf doc)) = List.length entries
      /\ Forall2 carries entries (filter (hasTag "entry") (childrenOf doc)).
Proof.
  intros entries NE.
  destruct (latest_some entries NE) as [d L].
  exists (feedOf (toISO d) entries).
  split; [now apply Feed_latest|]. split; [reflexivity|].
  split; [apply feedOf_tags|].
  rewrite feedOf_entries. split; [apply length_map|apply feedEntries_carry].
Qed.

End feed_facts.

(** ** The entry page *)

Lemma h_children_only (t : ntype) (a : jsval) (rest : list jsval) :
  (forall ps, a <> VObj ps) -> h t (a :: rest) = VNode t [] (normalize (a :: rest)).
Proof.
  intro H. unfold h. destruct a; try reflexivity. now destruct (H fields).
Qed.

Lemma hintArgument_value (p : jsval) :
  hintArgument p = match p with VBool false => VNum NaN | _ => VBool false end.
Proof. destruct p as [| |[|]| | | | | | |]; reflexivity. Qed.

Lemma hintArgument_slot (p : jsval) : flattenChild (hintArgument p) = hintSlot p.
Proof. rewrite hintArgument_value. destruct p as [| |[|]| | | | | | |]; reflexivity. Qed.

Lemma hintArgument_not_object (p : jsval) : forall ps, hintArgument p <> VObj ps.
Proof. intro ps. rewrite hintArgument_value. destruct p as [| |[|]| | | | | | |]; discriminate. Qed.

Lemma twitter_not_robots (name : string) :
  startsWith name "twitter:" = true -> (name =? "robots")%string = false.
Proof.
  unfold startsWith. destruct name as [|c name]; [discriminate|].
  cbn [prefix]. destruct (ascii_dec "t" c) as [<-|N]; [intros _; reflexivity|discriminate].
Qed.

Lemma metaOf_not_robots (kv : string * jsval) : isRobots (metaOf kv) = false.
Proof.
  destruct kv as [name content]. unfold isRobots, metaOf. cbn [hasTag propsOf fst snd].
  destruct (startsWith name "twitter:") eqn:T.
  - cbn. now apply twitter_not_robots.
  - reflexivity.
Qed.

Lemma metaOf_isHead (kv : string * jsval) : isHead (metaOf kv) = true.
Proof. reflexivity. Qed.

Lemma normalize_OpenGraph_forall (P : jsval -> Prop) (data : list (string * jsval)) :
  (forall kv, In kv data -> truthy (snd kv) = true -> P (metaOf kv)) ->
  (forall kv, In kv data -> leftover (snd kv) = true -> P (snd kv)) ->
  Forall P (normalize (OpenGraph data)).
Proof.
  induction data as [|[name content] data IH]; intros HM HF; [constructor|].
  rewrite OpenGraph_slot, normalize_cons. apply Forall_app. split.
  - destruct (truthy content) eqn:T.
    + constructor; [|constructor]. apply (HM (name, content)); [now left|exact T].
    + specialize (HF (name, content) (or_introl eq_refl)). unfold leftover in HF.
      simpl in HF. rewrite T in HF.
      destruct content as [| |[|]| | | | | | |]; simpl in *;
        try constructor; try constructor; try (now apply HF); discriminate T.
  - apply IH; intros kv I; [apply HM|apply HF]; now right.
Qed.

Lemma normalize_OpenGraph_heads (data : list (string * jsval)) :
  filter isHead (normalize (OpenGraph data))
  = map metaOf (filter (fun kv => truthy (snd kv)) data).
Proof.
  induction data as [|[name content] data IH]; [reflexivity|].
  rewrite OpenGraph_slot, normalize_cons, filter_app, IH. simpl.
  destruct (truthy content) eqn:T; [reflexivity|].
  destruct content as [| |[|]|[|z]|s| | | | |]; simpl in *; try reflexivity; discriminate T.
Qed.

Section page_facts.
Context {R : Runtime}.

Lemma JSONLD_node (data : list (string * jsval)) :
  exists text, JSONLD data
               = VNode (Tag "script")
                   [("type", VStr "application/ld+json"); ("innerHTML", VStr text)] [].
Proof. eexists. reflexivity. Qed.

Lemma pageArguments_children (e : Entry) :
  normalize (pageArguments e) = pageChildren e.
Proof.
  unfold pageArguments, pageChildren.
  change (and_ (strictEqFalse (published (frontmatter e))) _)
    with (hintArgument (published (frontmatter e))).
  rewrite !normalize_app, !normalize_cons, hintArgument_slot.
  destruct (JSONLD_node (pageLinkedData e)) as [text J].
  unfold linkedDataNode. rewrite J, <- app_assoc. reflexivity.
Qed.

Lemma Page_shape (e : Entry) :
  Page e
  = VNode Provider [("value", VStr (pathOf e))]
      [VNode (Fn Document_) [] (pageChildren e)].
Proof.
  unfold Page. rewrite <- pageArguments_children.
  unfold pageArguments at 1.
  change (and_ (strictEqFalse (published (frontmatter e))) _)
    with (hintArgument (published (frontmatter e))).
  cbn [app].
  rewrite (h_children_only (Fn Document_) (hintArgument (published (frontmatter e))) _
             (hintArgument_not_object _)).
  reflexivity.
Qed.

Lemma pageChildren_kept (e : Entry) :
  Forall (fun c => keeps c = true) (pageChildren e).
Proof. rewrite <- pageArguments_children. apply normalize_kept. Qed.

Lemma hintSlot_heads (p : jsval) : filter isHead (hintSlot p) = [].
Proof. destruct p as [| |[|]| | | | | | |]; reflexivity. Qed.

Lemma hintSlot_bodies (p : jsval) : filter isBody (hintSlot p) = hintSlot p.
Proof. destruct p as [| |[|]| | | | | | |]; reflexivity. Qed.

Lemma pageChildren_heads (e : Entry) :
  filter isHead (pageChildren e) = pageHeads e.
Proof.
  unfold pageChildren, pageHeads.
  rewrite filter_app, hintSlot_heads. cbn [app filter].
  change (isHead (titleNode e)) with true. cbv iota.
  rewrite filter_app, normalize_OpenGraph_heads.
  destruct (JSONLD_node (pageLinkedData e)) as [text J].
  unfold linkedDataNode. rewrite J. reflexivity.
Qed.

Lemma pageChildren_bodies (e : Entry) :
  filter isBody (pageChildren e) = pageBodies e.
Proof.
  unfold pageChildren, pageBodies.
  rewrite filter_app, hintSlot_bodies. cbn [app filter].
  change (isBody (titleNode e)) with false. cbv iota.
  rewrite filter_app.
  destruct (JSONLD_node (pageLinkedData e)) as [text J].
  unfold linkedDataNode. rewrite J. reflexivity.
Qed.

Lemma Page_document (e : Entry) :
  Document (Some (pathOf e)) (pageChildren e)
  = Ok (documentOf (pathOf e) (pageHeads e) (pageBodies e)).
Proof.
  rewrite (Document_kept (pathOf e) (pageChildren e) (pageChildren_kept e)).
  now rewrite pageChildren_heads, pageChildren_bodies.
Qed.

(** Rendering a page: whatever is bound outside, [Document] is called with
    [Path] bound to the page's own path, and what it returns is expanded
    under that same binding. *)
Lemma expand_Page (fuel : nat) (ctx : option string) (e : Entry) :
  expand (S (S fuel)) ctx (Page e)
  = (out <- (html <- Document (Some (pathOf e)) (pageChildren e) ;;
             expand fuel (Some (pathOf e)) html) ;;
     Ok (out ++ [])%list).
Proof. rewrite Page_shape. reflexivity. Qed.

(** *** Expansion of what needs none *)

Lemma expandAll_app (f : jsval -> result (list jsval)) (l1 l2 : list jsval) :
  expandAll f (l1 ++ l2)
  = (xs <- expandAll f l1 ;; ys <- expandAll f l2 ;; Ok (xs ++ ys)%list).
Proof.
  induction l1 as [|v l1 IH]; simpl.
  - destruct (expandAll f l2); reflexivity.
  - destruct (f v) as [xs| |]; simpl; try reflexivity.
    rewrite IH. destruct (expandAll f l1) as [ys| |]; simpl; try reflexivity.
    destruct (expandAll f l2) as [zs| |]; simpl; try reflexivity.
    now rewrite app_assoc.
Qed.

Lemma expandAll_settled (f : jsval -> result (list jsval)) (l : list jsval) :
  Forall (fun v => f v = Ok [v]) l -> expandAll f l = Ok l.
Proof.
  induction 1 as [|v l Hv _ IH]; simpl; [reflexivity|]. now rewrite Hv, IH.
Qed.

Lemma expand_leaf (fuel : nat) (ctx : option string) (t : string)
      (ps : list (string * jsval)) :
  expand (S fuel) ctx (VNode (Tag t) ps []) = Ok [VNode (Tag t) ps []].
Proof. reflexivity. Qed.

Lemma expand_metaOf (fuel : nat) (ctx : option string) (kv : string * jsval) :
  expand (S fuel) ctx (metaOf kv) = Ok [metaOf kv].
Proof. reflexivity. Qed.

Lemma expand_pageHeads (fuel : nat) (ctx : option string) (e : Entry) :
  expandAll (expand (S (S fuel)) ctx) (pageHeads e) = Ok (pageHeads e).
Proof.
  apply expandAll_settled. unfold pageHeads. constructor; [reflexivity|].
  apply Forall_app. split.
  - apply Forall_forall. intros v Hv. apply in_map_iff in Hv.
    destruct Hv as (kv & <- & _). reflexivity.
  - destruct (JSONLD_node (pageLinkedData e)) as [text J].
    unfold linkedDataNode. rewrite J. constructor; [reflexivity|constructor].
Qed.

Lemma expand_headTrail (fuel : nat) (ctx : option string) (from : string) :
  expandAll (expand (S (S (S fuel))) ctx) (headTrail from)
  = Ok (renderedTrail from).
Proof. reflexivity. Qed.

Lemma expand_leftovers (fuel : nat) (ctx : option string) (data : list (string * jsval)) :
  expandAll (expand (S fuel) ctx) (filter isBody (normalize (OpenGraph data)))
  = Ok (filter isBody (normalize (OpenGraph data))).
Proof.
  apply expandAll_settled, Forall_forall. intros v Hv. apply filter_In in Hv.
  destruct Hv as [I B].
  assert (F : Forall (fun v => isBody v = true -> expand (S fuel) ctx v = Ok [v])
                     (normalize (OpenGraph data))).
  { apply normalize_OpenGraph_forall.
    - intros kv _ _ M. discriminate M.
    - intros [k c] _ L _. unfold leftover in L. simpl in L.
      destruct c as [| |[|]|[|z]|s| | | | |]; try discriminate L; reflexivity. }
  rewrite Forall_forall in F. now apply F.
Qed.

Lemma expand_hintSlot (fuel : nat) (ctx : option string) (p : jsval) :
  expandAll (expand (S fuel) ctx) (hintSlot p) = Ok (hintSlot p).
Proof. destruct p as [| |[|]| | | | | | |]; reflexivity. Qed.

(** The whole page, given what its article and footer expand to. *)
Lemma Page_rendered (fuel : nat) (ctx : option string) (e : Entry)
      (article footer : list jsval) :
  expand (3 + fuel) (Some (pathOf e)) (articleNode e) = Ok article ->
  expand (3 + fuel) (Some (pathOf e)) (footerNode e) = Ok footer ->
  expand (7 + fuel) ctx (Page e)
  = Ok [ VNode (Tag "html") []
           [ VNode (Tag "head") []
               (headLead :: pageHeads e ++ renderedTrail (pathOf e));
             VNode (Tag "body") []
               (bodyLead (pathOf e)
                :: hintSlot (published (frontmatter e))
                ++ filter isBody (normalize (OpenGraph (pageMetadata e)))
                ++ article ++ footer) ] ].
Proof.
  intros HA HF.
  change (7 + fuel)%nat with (S (S (S (S (3 + fuel))))).
  change (3 + fuel)%nat with (S (S (S fuel))) in *.
  remember (S (S (S fuel))) as n eqn:En.
  rewrite expand_Page, Page_document. cbn [bind].
  unfold documentOf. cbn [expand expandAll bind].
  unfold pageBodies. rewrite !expandAll_app.
  cbn [expandAll]. rewrite HA, HF. subst n.
  change (expand (S (S (S fuel))) (Some (pathOf e)) headLead) with (Ok [headLead]).
  change (expand (S (S (S fuel))) (Some (pathOf e)) (bodyLead (pathOf e)))
    with (Ok [bodyLead (pathOf e)]).
  rewrite expand_pageHeads, expand_headTrail, expand_hintSlot, expand_leftovers.
  cbn [bind app]. now rewrite !app_nil_r.
Qed.

(** *** The no-index hint *)

Lemma pageHeads_no_robots (e : Entry) :
  Forall (fun v => isRobots v = false) (pageHeads e).
Proof.
  unfold pageHeads. constructor; [reflexivity|]. apply Forall_app. split.
  - apply Forall_forall. intros v Hv. apply in_map_iff in Hv.
    destruct Hv as (kv & <- & _). apply metaOf_not_robots.
  - destruct (JSONLD_node (pageLinkedData e)) as [text J].
    unfold linkedDataNode. rewrite J. constructor; [reflexivity|constructor].
Qed.

Lemma head_no_robots (e : Entry) :
  Forall (fun v => isRobots v = false)
         (headLead :: pageHeads e ++ headTrail (pathOf e)).
Proof.
  constructor; [reflexivity|]. apply Forall_app. split; [apply pageHeads_no_robots|].
  repeat (constructor; [reflexivity|]). constructor.
Qed.

(** C1, at an entry whose [published] is [false]: the first argument of
    [h(Document, ...)] is then the negation of the meta element, which is NaN
    and no element; [Document] places it in the body, and the head holds no
    meta element named robots, so no no-index hint is emitted. *)
Theorem Page_unpublished_has_no_noindex_hint :
  forall e : Entry,
    published (frontmatter e) = VBool false ->
    exists children heads bodies,
      Page e
      = VNode Provider [("value", VStr (pathOf e))] [VNode (Fn Document_) [] children]
      /\ hd VUndefined (pageArguments e) = VNum NaN
      /\ Document (Some (pathOf e)) children
         = Ok (VNode (Tag "html") []
                 [VNode (Tag "head") [] heads; VNode (Tag "body") [] bodies])
      /\ Forall (fun v => isRobots v = false) heads
      /\ ~ In noindexHint heads
      /\ In (VNum NaN) bodies.
Proof.
  intros e P.
  exists (pageChildren e), (headLead :: pageHeads e ++ headTrail (pathOf e)),
    (bodyLead (pathOf e) :: pageBodies e).
  split; [apply Page_shape|].
  split; [unfold pageArguments; cbn [app hd]; now rewrite P|].
  split; [apply Page_document|].
  split; [apply head_no_robots|]. split.
  - intro I. pose proof (head_no_robots e) as F. rewrite Forall_forall in F.
    specialize (F _ I). discriminate F.
  - right. unfold pageBodies. rewrite P. now left.
Qed.

(** For every other value of [published], absent included, the argument is
    [false] and leaves no child; the head holds no robots element either. *)
Lemma Page_published_has_no_noindex_hint (e : Entry) :
  published (frontmatter e) <> VBool false ->
  hd VUndefined (pageArguments e) = VBool false
  /\ hintSlot (published (frontmatter e)) = []
  /\ Forall (fun v => isRobots v = false)
            (headLead :: pageHeads e ++ headTrail (pathOf e)).
Proof.
  intro P. split; [|split; [|apply head_no_robots]].
  - unfold pageArguments. cbn [app hd].
    destruct (published (frontmatter e)) as [| |[|]| | | | | | |]; try reflexivity.
    now destruct P.
  - destruct (published (frontmatter e)) as [| |[|]| | | | | | |]; try reflexivity.
    now destruct P.
Qed.

(** *** The canonical link *)

Lemma pageHeads_no_canonical (e : Entry) : filter isCanonical (pageHeads e) = [].
Proof.
  unfold pageHeads. cbn [filter]. change (isCanonical (titleNode e)) with false. cbv iota.
  rewrite filter_app, (filter_map_none isCanonical metaOf) by reflexivity.
  destruct (JSONLD_node (pageLinkedData e)) as [text J].
  unfold linkedDataNode. rewrite J. reflexivity.
Qed.

(** C4: [Page] returns a provider node that binds [Path] to the permalink
    between slashes and has the [Document] call as its only child; the render
    pass calls [Document] under that binding and expands all it returns under
    it, whatever was bound outside; the head [Document] returns has one
    canonical link, whose href is the site prefix followed by that path, so
    it ends in the permalink between slashes. *)
Theorem Page_binds_path_for_canonical_link :
  forall e : Entry,
    let path := "/" ++ permalink (frontmatter e) ++ "/" in
    exists children heads bodies,
      Page e = VNode Provider [("value", VStr path)] [VNode (Fn Document_) [] children]
      /\ (forall fuel ctx,
            expand (S (S fuel)) ctx (Page e)
            = (out <- (html <- Document (Some path) children ;;
                       expand fuel (Some path) html) ;;
               Ok (out ++ [])%list))
      /\ Document (Some path) children
         = Ok (VNode (Tag "html") []
                 [VNode (Tag "head") [] heads; VNode (Tag "body") [] bodies])
      /\ filter isCanonical heads
         = [VNode (Tag "link")
              [("rel", VStr "canonical");
               ("href", VStr ("https://leebyron.com/til" ++ path))] []]
      /\ "https://leebyron.com/til" ++ path
         = "https://leebyron.com/til/" ++ permalink (frontmatter e) ++ "/".
Proof.
  intros e path.
  exists (pageChildren e), (headLead :: pageHeads e ++ headTrail (pathOf e)),
    (bodyLead (pathOf e) :: pageBodies e).
  split; [apply Page_shape|].
  split; [intros fuel ctx; apply expand_Page|].
  split; [apply Page_document|]. split; [|reflexivity].
  cbn [filter]. change (isCanonical headLead) with false. cbv iota.
  rewrite filter_app, pageHeads_no_canonical. reflexivity.
Qed.

(** *** The description *)

Lemma substring_from_start (n : nat) (s : string) :
  exists rest, s = substring 0 n s ++ rest.
Proof.
  revert s. induction n as [|n IH]; intros s.
  - exists s. destruct s; reflexivity.
  - destruct s as [|c s]; [now exists EmptyString|].
    destruct (IH s) as [rest E]. exists rest. simpl. now rewrite <- E.
Qed.

Lemma substring_from_start_length (n : nat) (s : string) :
  String.length (substring 0 n s) = Nat.min n (String.length s).
Proof.
  revert s. induction n as [|n IH]; intros s.
  - destruct s; reflexivity.
  - destruct s as [|c s]; [reflexivity|]. simpl. now rewrite IH.
Qed.

Lemma metadata_description_key (e : Entry) (kv : string * jsval) :
  In kv (pageMetadata e) ->
  get "property" (propsOf (metaOf kv)) = VStr "og:description" ->
  metaOf kv = descriptionNode e.
Proof.
  unfold pageMetadata. intros I G.
  repeat (destruct I as [<-|I]; [try discriminate G; try reflexivity|]).
  destruct I.
Qed.

(** C5: the value [Page] gives under og:description is the text of the first
    paragraph cut after 200 units, wherever that falls: a prefix of the text,
    200 long when the text is longer and the whole text otherwise.  The head
    has a meta element for it with exactly that content when it is not empty,
    and never one with any other content. *)
Theorem Page_description_is_first_200_of_summary :
  forall e : Entry,
    let summary := textContent (firstParagraph (markdown e)) in
    let description := slice 0 200 summary in
    get "og:description" (pageMetadata e) = VStr description
    /\ description = substring 0 200 summary
    /\ (exists rest, summary = description ++ rest)
    /\ String.length description = Nat.min 200 (String.length summary)
    /\ exists children heads bodies,
         Page e
         = VNode Provider [("value", VStr (pathOf e))] [VNode (Fn Document_) [] children]
         /\ Document (Some (pathOf e)) children
            = Ok (VNode (Tag "html") []
                    [VNode (Tag "head") [] heads; VNode (Tag "body") [] bodies])
         /\ (description <> EmptyString ->
             In (VNode (Tag "meta")
                   [("property", VStr "og:description"); ("content", VStr description)] [])
                heads)
         /\ (forall v, In v heads ->
               get "property" (propsOf v) = VStr "og:description" ->
               v = VNode (Tag "meta")
                     [("property", VStr "og:description"); ("content", VStr description)]
                     []).
Proof.
  intros e summary description.
  split; [reflexivity|]. split; [reflexivity|].
  split; [apply substring_from_start|].
  split; [apply substring_from_start_length|].
  exists (pageChildren e), (headLead :: pageHeads e ++ headTrail (pathOf e)),
    (bodyLead (pathOf e) :: pageBodies e).
  split; [apply Page_shape|]. split; [apply Page_document|]. split.
  - intro NE. right. apply in_or_app. left. unfold pageHeads. right.
    apply in_or_app. left.
    change (VNode (Tag "meta")
              [("property", VStr "og:description"); ("content", VStr description)] [])
      with (metaOf ("og:description", VStr description)).
    apply in_map, filter_In. split.
    + unfold pageMetadata. right. right. left. reflexivity.
    + simpl. destruct description; [now destruct NE|reflexivity].
  - intros v I G. destruct I as [<-|I]; [discriminate G|].
    apply in_app_or in I. destruct I as [I|I].
    + unfold pageHeads in I. destruct I as [<-|I]; [discriminate G|].
      apply in_app_or in I. destruct I as [I|I].
      * apply in_map_iff in I. destruct I as (kv & <- & I).
        apply filter_In in I. destruct I as [I _].
        now apply metadata_description_key.
      * destruct (JSONLD_node (pageLinkedData e)) as [text J].
        unfold linkedDataNode in I. rewrite J in I.
        destruct I as [<-|[]]. discriminate G.
    + unfold headTrail in I.
      repeat (destruct I as [<-|I]; [discriminate G|]). destruct I.
Qed.

(** *** Linked data *)

Lemma stringify_none_any_indent (i j : string) (v : jsval) :
  stringify i v = None -> stringify j v = None.
Proof.
  destruct v as [| |b|[|z]|s|d|c|xs|fs|t ps cs]; simpl; intro H;
    try discriminate H; reflexivity.
Qed.

(** An object is written as the members that have a JSON form, in order. *)
Lemma stringify_object (indent : string) (fs : list (string * jsval)) :
  stringify indent (VObj fs)
  = Some (wrap "{" "}" indent (map (member (indent ++ "  ")) (written fs))).
Proof.
  cbn [stringify]. do 2 f_equal.
  induction fs as [|[k x] fs IH]; [reflexivity|].
  unfold written. cbn [filter snd].
  destruct (stringify (indent ++ "  ") x) as [text|] eqn:S.
  - destruct (stringify "  " x) as [text'|] eqn:S'.
    + cbn [map]. unfold member at 1. cbn [fst snd]. rewrite S. f_equal. exact IH.
    + apply (stringify_none_any_indent "  " (indent ++ "  ")) in S'. congruence.
  - rewrite (stringify_none_any_indent _ "  " x S). exact IH.
Qed.

Lemma page_ldData (e : Entry) :
  ldData (pageLinkedData e) = ("@context", VStr "https://schema.org/") :: pageLinkedData e.
Proof. reflexivity. Qed.

Lemma linkedDataNode_text (e : Entry) :
  linkedDataNode e
  = VNode (Tag "script")
      [("type", VStr "application/ld+json");
       ("innerHTML",
        VStr (nl ++ wrap "{" "}" EmptyString
                      (map (member "  ") (written (ldData (pageLinkedData e))))
                 ++ nl))]
      [].
Proof.
  unfold linkedDataNode, JSONLD. rewrite stringify_object. reflexivity.
Qed.

Lemma join_comma_empty (l : list string) :
  join ", " l = EmptyString <-> l = [] \/ l = [EmptyString].
Proof.
  destruct l as [|a [|b l]].
  - split; [now left|reflexivity].
  - simpl. split; [intros ->; now right|]. intros [H|H]; [discriminate H|now inversion H].
  - split.
    + unfold join. simpl. destruct a; discriminate.
    + intros [H|H]; discriminate H.
Qed.

(** C10, as the code has it: the keywords member is written exactly when the
    tags joined by comma and space make a string that is not empty, and its
    value is then that string.  The joined string is empty for the empty tag
    list and for the list holding only the empty tag, and for no other. *)
Theorem Page_keywords_written_iff_joined_tags_nonempty :
  forall e : Entry,
    let keywords := join ", " (tags (frontmatter e)) in
    let data := ldData (pageLinkedData e) in
    In (JSONLD (pageLinkedData e)) (pageArguments e)
    /\ JSONLD (pageLinkedData e)
       = VNode (Tag "script")
           [("type", VStr "application/ld+json");
            ("innerHTML",
             VStr (nl ++ wrap "{" "}" EmptyString (map (member "  ") (written data))
                      ++ nl))]
           []
    /\ (In "keywords" (map fst (written data)) <-> keywords <> EmptyString)
    /\ (forall v, In ("keywords", v) (written data) -> v = VStr keywords)
    /\ (keywords <> EmptyString -> In ("keywords", VStr keywords) (written data))
    /\ (keywords = EmptyString <->
        tags (frontmatter e) = [] \/ tags (frontmatter e) = [EmptyString]).
Proof.
  intros e keywords data.
  split.
  { unfold pageArguments. apply in_or_app. right. apply in_or_app. right. now left. }
  split; [apply linkedDataNode_text|].
  assert (W : written data
              = if truthy (VStr keywords)
                then (("@context", VStr "https://schema.org/") :: pageLinkedData e)
                else filter (fun kv => negb (fst kv =? "keywords")%string)
                            (("@context", VStr "https://schema.org/") :: pageLinkedData e)).
  { unfold data. rewrite page_ldData. unfold pageLinkedData, or_. fold keywords.
    destruct (truthy (VStr keywords)); reflexivity. }
  assert (T : truthy (VStr keywords) = true <-> keywords <> EmptyString).
  { simpl. destruct keywords; simpl; split; congruence. }
  split; [|split; [|split]].
  - rewrite W. destruct (truthy (VStr keywords)) eqn:K.
    + split; [intros _; now apply T|]. intros _. unfold pageLinkedData. simpl. tauto.
    + split.
      * unfold pageLinkedData. simpl. intros H.
        repeat (destruct H as [H|H]; [discriminate H|]). destruct H.
      * intro N. apply T in N. discriminate N.
  - intros v I. rewrite W in I. destruct (truthy (VStr keywords)) eqn:K.
    + unfold pageLinkedData, or_ in I. fold keywords in I. rewrite K in I.
      repeat (destruct I as [I|I]; [inversion I; try reflexivity|]). destruct I.
    + unfold pageLinkedData in I. simpl in I.
      repeat (destruct I as [I|I]; [discriminate I|]). destruct I.
  - intro N. apply T in N. rewrite W, N.
    unfold pageLinkedData, or_. fold keywords. rewrite N.
    do 7 right. left. reflexivity.
  - apply join_comma_empty.
Qed.

End page_facts.

(** ** Entries with one permalink *)

Section duplicate_facts.
Context {R : Runtime}.

Lemma feedEntry_id (e : Entry) :
  filter (hasTag "id") (childrenOf (feedEntry e))
  = [VNode (Tag "id") [] [VStr ("https://leebyron.com/til/" ++ permalink (frontmatter e)
                                ++ "/")]].
Proof.
  rewrite feedEntry_children. unfold childrenOf. rewrite !filter_app.
  rewrite (filter_map_none _ categoryOf) by reflexivity. reflexivity.
Qed.


End duplicate_facts.

(** ** Strings *)

Lemma append_assoc (a b c : string) : (a ++ b) ++ c = a ++ b ++ c.
Proof. induction a as [|x a IH]; simpl; [reflexivity|now rewrite IH]. Qed.

Lemma append_nil_r (a : string) : a ++ EmptyString = a.
Proof. induction a as [|x a IH]; simpl; [reflexivity|now rewrite IH]. Qed.

Lemma length_append (a b : string) :
  String.length (a ++ b) = (String.length a + String.length b)%nat.
Proof. induction a as [|x a IH]; simpl; [reflexivity|now rewrite IH]. Qed.

Lemma chars_append (a b : string) :
  list_ascii_of_string (a ++ b)
  = (list_ascii_of_string a ++ list_ascii_of_string b)%list.
Proof. induction a as [|x a IH]; simpl; [reflexivity|now rewrite IH]. Qed.

Lemma unit_of_code (c : ascii) (n : nat) : nat_of_ascii c = n -> c = ascii_of_nat n.
Proof. intros <-. symmetry. apply ascii_nat_embedding. Qed.

(** ** [Document] on any children *)

Lemma isHeadElement_defined (v : jsval) :
  defined v = true -> isHeadElement v = Ok (isHead v).
Proof.
  destruct v as [| |b|n|s|d|c|xs|fs|[t| |] ps cs]; simpl; intro H;
    try discriminate H; reflexivity.
Qed.

Lemma filterM_throws (f : jsval -> result bool) (g : jsval -> bool) (l : list jsval) :
  (forall v, defined v = true -> f v = Ok (g v)) ->
  (forall v, defined v = false -> f v = Throw TypeError) ->
  forallb defined l = false -> filterM f l = Throw TypeError.
Proof.
  intros HO HT. induction l as [|v l IH]; simpl; [discriminate|].
  destruct (defined v) eqn:D; simpl; intro H.
  - rewrite (HO v D), (IH H). reflexivity.
  - now rewrite (HT v D).
Qed.

Lemma isHead_keeps (v : jsval) : isHead v = true -> keeps v = true.
Proof. destruct v as [| |[|]| | | | | | |]; simpl; intro H; try reflexivity; discriminate H. Qed.

Section document_on_any_children.
Context {R : Runtime}.

(** X9: [Document] returns exactly when [Path] is bound and no child is
    [undefined] or [null], and throws a type error otherwise; it returns the
    html element whose head holds the children that are head elements and
    whose body holds all the others, arrays among them spread out and [false]
    dropped as [h] does with any child. *)
Theorem Document_returns_iff_path_bound_and_children_defined :
  forall (ctx : option string) (children : list jsval),
    (forall from,
        ctx = Some from -> forallb defined children = true ->
        Document ctx children
        = Ok (VNode (Tag "html") []
                [ VNode (Tag "head") []
                    (headLead :: filter isHead children ++ headTrail from);
                  VNode (Tag "body") []
                    (bodyLead from :: normalize (filter isBody children)) ]))
    /\ (ctx = None \/ forallb defined children = false ->
        Document ctx children = Throw TypeError)
    /\ (forall html, Document ctx children = Ok html ->
        ctx <> None /\ forallb defined children = true).
Proof.
  intros ctx children.
  assert (T : ctx = None \/ forallb defined children = false ->
              Document ctx children = Throw TypeError).
  { intros [->|D]; unfold Document.
    - destruct (forallb defined children) eqn:D.
      + rewrite (filterM_total isHeadElement isHead); [reflexivity|].
        apply Forall_forall. intros v Hv. apply isHeadElement_defined.
        rewrite forallb_forall in D. now apply D.
      + rewrite (filterM_throws isHeadElement isHead children); try assumption.
        * reflexivity.
        * apply isHeadElement_defined.
        * intros v Hv. destruct v; try discriminate Hv; reflexivity.
    - rewrite (filterM_throws isHeadElement isHead children); try assumption.
      + reflexivity.
      + apply isHeadElement_defined.
      + intros v Hv. destruct v; try discriminate Hv; reflexivity. }
  split; [|split; [exact T|]].
  - intros from -> D. unfold Document.
    assert (A : Forall (fun v => isHeadElement v = Ok (isHead v)) children).
    { apply Forall_forall. intros v Hv. apply isHeadElement_defined.
      rewrite forallb_forall in D. now apply D. }
    rewrite (filterM_total isHeadElement isHead _ A).
    rewrite (filterM_total _ isBody).
    2:{ eapply Forall_impl; [|exact A]. intros v Hv. simpl. rewrite Hv. reflexivity. }
    cbn [bind useRelPath usePath interpolate]. f_equal.
    unfold h. cbn [normalize flat_map]. rewrite !flattenChild_array.
    rewrite (normalize_keeps_id (filter isHead children)).
    2:{ apply Forall_forall. intros v Hv. apply filter_In in Hv. now apply isHead_keeps. }
    cbn [flattenChild app]. rewrite app_nil_r. reflexivity.
  - intros html H. split.
    + intros ->. rewrite T in H by now left. discriminate H.
    + destruct (forallb defined children) eqn:D; [reflexivity|].
      rewrite T in H by now right. discriminate H.
Qed.

End document_on_any_children.

(** ** Object spread and the context of linked data *)

Lemma lookup_assign (k k' : string) (v : jsval) (fs : list (string * jsval)) :
  lookup k (assign k' v fs) = if (k =? k')%string then Some v else lookup k fs.
Proof.
  induction fs as [|[k0 v0] fs IH]; simpl.
  - destruct (k =? k')%string; reflexivity.
  - destruct (k' =? k0)%string eqn:E; simpl.
    + apply String.eqb_eq in E. subst k0. destruct (k =? k')%string; reflexivity.
    + destruct (precedes k' k0); simpl.
      * destruct (k =? k')%string; reflexivity.
      * rewrite IH. destruct (k =? k')%string eqn:E'; [|reflexivity].
        apply String.eqb_eq in E'. subst k'. now rewrite E.
Qed.

Lemma lookup_none (k : string) (fs : list (string * jsval)) :
  ~ In k (map fst fs) -> lookup k fs = None.
Proof.
  induction fs as [|[k0 v0] fs IH]; simpl; intro N; [reflexivity|].
  destruct (k =? k0)%string eqn:E.
  - apply String.eqb_eq in E. subst. now destruct N; left.
  - apply IH. intro I. apply N. now right.
Qed.

Lemma lookup_spread (k : string) (a b : list (string * jsval)) :
  NoDup (map fst b) ->
  lookup k (spread a b) = match lookup k b with Some v => Some v | None => lookup k a end.
Proof.
  unfold spread. revert a. induction b as [|[k0 v0] b IH]; intros a N; [reflexivity|].
  inversion N as [|? ? N0 N']; subst. cbn [fold_left fst snd lookup].
  rewrite (IH _ N'), lookup_assign.
  destruct (k =? k0)%string eqn:E; [|reflexivity].
  apply String.eqb_eq in E. subst k0. now rewrite (lookup_none k b N0).
Qed.

Lemma precedes_plain (k k' : string) : indexOf k = None -> precedes k k' = false.
Proof. unfold precedes. now intros ->. Qed.

(** A key that is no array index goes last when it is new. *)
Lemma keys_assign (k : string) (v : jsval) (fs : list (string * jsval)) :
  indexOf k = None ->
  map fst (assign k v fs)
  = if existsb (String.eqb k) (map fst fs) then map fst fs else (map fst fs ++ [k])%list.
Proof.
  intro P. induction fs as [|[k0 v0] fs IH]; simpl; [reflexivity|].
  destruct (k =? k0)%string eqn:E; simpl.
  - apply String.eqb_eq in E. now subst.
  - rewrite (precedes_plain k k0 P). simpl. rewrite IH.
    destruct (existsb (String.eqb k) (map fst fs)); reflexivity.
Qed.

Lemma keys_spread (a b : list (string * jsval)) :
  NoDup (map fst b) ->
  Forall (fun k => indexOf k = None) (map fst b) ->
  map fst (spread a b)
  = (map fst a
     ++ filter (fun k => negb (existsb (String.eqb k) (map fst a))) (map fst b))%list.
Proof.
  unfold spread. revert a. induction b as [|[k0 v0] b IH]; intros a N P.
  - simpl. now rewrite app_nil_r.
  - inversion N as [|? ? N0 N']; subst. inversion P as [|? ? P0 P']; subst.
    cbn [fold_left fst snd map filter].
    rewrite (IH _ N' P'), (keys_assign k0 v0 a P0).
    destruct (existsb (String.eqb k0) (map fst a)) eqn:E; cbn [negb]; [reflexivity|].
    rewrite <- app_assoc. cbn [app]. do 2 f_equal.
    apply filter_ext_in. intros k I. rewrite existsb_app. cbn [existsb].
    rewrite orb_false_r.
    destruct (k =? k0)%string eqn:K; [|now rewrite orb_false_r].
    apply String.eqb_eq in K. subst k0. contradiction.
Qed.

Section linked_data_context.
Context {R : Runtime}.

(** X10: in the mapping [JSONLD] serialises, when the keys of the data are
    distinct, as those of an object are, and none is an array index, the
    context comes first whether or not the caller gave one, the caller's
    context replaces the default, and every other key keeps the caller's
    value and the caller's order.  A key that is an array index is listed
    ahead of the context, as the keys of any object are. *)
Theorem JSONLD_context_comes_first_and_can_be_overridden :
  forall data : list (string * jsval),
    NoDup (map fst data) ->
    Forall (fun k => indexOf k = None) (map fst data) ->
    map fst (ldData data)
    = "@context" :: filter (fun k => negb (k =? "@context")%string) (map fst data)
    /\ lookup "@context" (ldData data)
       = Some (match lookup "@context" data with
               | Some context => context
               | None => VStr "https://schema.org/"
               end)
    /\ (forall k, k <> "@context" -> lookup k (ldData data) = lookup k data)
    /\ JSONLD data
       = VNode (Tag "script")
           [("type", VStr "application/ld+json");
            ("innerHTML",
             VStr (nl ++ wrap "{" "}" EmptyString
                           (map (member "  ") (written (ldData data)))
                      ++ nl))]
           []
    /\ (forall k v, indexOf k <> None -> map fst (ldData [(k, v)]) = [k; "@context"]).
Proof.
  intros data N P. unfold ldData. split; [|split; [|split; [|split]]].
  - rewrite (keys_spread _ data N P). cbn [map fst app]. f_equal.
    apply filter_ext. intro k. cbn [existsb]. now rewrite orb_false_r.
  - rewrite (lookup_spread _ _ data N). destruct (lookup "@context" data); reflexivity.
  - intros k Hk. rewrite (lookup_spread _ _ data N).
    destruct (lookup k data); [reflexivity|]. cbn [lookup].
    apply String.eqb_neq in Hk. now rewrite Hk.
  - unfold JSONLD. rewrite stringify_object. reflexivity.
  - intros k v I. unfold spread. cbn [fold_left fst snd assign].
    destruct (k =? "@context")%string eqn:E.
    { apply String.eqb_eq in E. subst k. now destruct I. }
    unfold precedes. destruct (indexOf k) as [i|]; [reflexivity|now destruct I].
Qed.

End linked_data_context.

(** ** The index *)

Lemma filter_all {A : Type} (f : A -> bool) (l : list A) :
  Forall (fun x => f x = true) l -> filter f l = l.
Proof. induction 1 as [|x l Hx _ IH]; simpl; [reflexivity|]. now rewrite Hx, IH. Qed.

Lemma filter_none {A : Type} (f : A -> bool) (l : list A) :
  Forall (fun x => f x = false) l -> filter f l = [].
Proof. induction 1 as [|x l Hx _ IH]; simpl; [reflexivity|]. now rewrite Hx. Qed.

Section index_facts.
Context {R : Runtime}.

Lemma indexHeads_are_heads (size : nat) :
  Forall (fun v => isHead v = true) (indexHeads size).
Proof.
  unfold indexHeads. constructor; [reflexivity|]. apply Forall_app. split.
  - apply Forall_forall. intros v Hv. apply in_map_iff in Hv.
    destruct Hv as (kv & <- & _). reflexivity.
  - destruct (JSONLD_node (indexLinkedData size)) as [text J]. rewrite J.
    constructor; [reflexivity|constructor].
Qed.

Lemma entryLog_kept (frontmatters : list Frontmatter) :
  normalize (map (fun fm : Frontmatter =>
    h (Tag "div") [VObj [("class", VStr "entrylog")];
      h (Tag "a") [VObj [("href", VStr (permalink fm ++ "/"))]; VStr (title fm)];
      h (Tag "pre") [VObj [("class", VStr "timestamp")];
        h (Tag "span") [VObj [("class", VStr "p2")]; VStr (toFormat (date fm) "ccc, ")];
        h (Tag "span") [VObj [("class", VStr "p0")]; VStr (toFormat (date fm) "dd LLL yyyy")];
        h (Tag "span") [VObj [("class", VStr "p1")]; VStr (toFormat (date fm) " HH:mm")];
        h (Tag "span") [VObj [("class", VStr "p3")]; VStr (toFormat (date fm) ":ss ZZ")]
      ]
    ]) frontmatters)
  = map entryLog frontmatters.
Proof.
  rewrite normalize_map_kept by reflexivity. reflexivity.
Qed.

Lemma Index_shape (frontmatters : list Frontmatter) (Content : component) :
  Index frontmatters Content
  = VNode Provider [("value", VStr "/")]
      [VNode (Fn Document_) [] (indexChildren frontmatters Content)].
Proof.
  unfold Index.
  match goal with |- h Provider [_; h (Fn Document_) ?args] = _ => set (a := args) end.
  assert (A : h (Fn Document_) a = VNode (Fn Document_) [] (normalize a)) by reflexivity.
  rewrite A. clear A.
  assert (N : normalize a = indexChildren frontmatters Content).
  { subst a. rewrite !normalize_app.
    match goal with |- context [h (Tag "section") (?c :: ?rest)] =>
      rewrite (h_children_only (Tag "section") c rest) by discriminate
    end.
    rewrite (normalize_cons (h (Fn Content) _)), (normalize_cons (h (Tag "h2") _)).
    rewrite (normalize_cons (VArr _)), flattenChild_array, entryLog_kept.
    destruct (JSONLD_node (indexLinkedData (List.length frontmatters))) as [text J].
    unfold indexChildren, indexHeads, indexSection, indexFooter.
    unfold indexLinkedData in *. rewrite J.
    change (normalize []) with (@nil jsval). rewrite app_nil_r.
    cbn [app]. rewrite <- app_assoc. reflexivity. }
  rewrite <- N. reflexivity.
Qed.

(** X11: [Index] binds [Path] to the root and calls [Document] there, which
    returns; the head holds the title, a meta element for each of the six
    keys handed to [OpenGraph] and the linked data, whose collection size is
    the number of front matters, and its canonical link is the address of the
    site; the body holds the header, one section and the footer; the section
    lists one entry-log line per front matter, in order and whatever its
    [published], whose link leads to the permalink followed by a slash,
    relative to the index. *)
Theorem Index_lists_every_entry_under_the_root_path :
  forall (frontmatters : list Frontmatter) (Content : component),
    exists children heads section,
      Index frontmatters Content
      = VNode Provider [("value", VStr "/")] [VNode (Fn Document_) [] children]
      /\ Document (Some "/") children
         = Ok (VNode (Tag "html") []
                 [ VNode (Tag "head") [] heads;
                   VNode (Tag "body") [] [bodyLead "/"; section; indexFooter] ])
      /\ heads
         = (headLead
            :: VNode (Tag "title") [] [VStr "Today I Learned / Lee Byron"]
            :: map metaOf indexMetadata
            ++ JSONLD (indexLinkedData (List.length frontmatters))
            :: headTrail "/")%list
      /\ map hrefOf (filter isCanonical heads) = [VStr "https://leebyron.com/til/"]
      /\ hasTag "section" section = true
      /\ filter (hasClass "entrylog") (childrenOf section) = map entryLog frontmatters
      /\ map (fun line => map hrefOf (filter (hasTag "a") (childrenOf line)))
             (filter (hasClass "entrylog") (childrenOf section))
         = map (fun fm => [VStr (permalink fm ++ "/")]) frontmatters.
Proof.
  intros frontmatters Content.
  exists (indexChildren frontmatters Content),
    (headLead :: indexHeads (List.length frontmatters) ++ headTrail "/")%list,
    (indexSection frontmatters Content).
  assert (K : Forall (fun c => keeps c = true) (indexChildren frontmatters Content)).
  { unfold indexChildren. apply Forall_app. split; [|repeat constructor].
    eapply Forall_impl; [|apply indexHeads_are_heads]. intros v. apply isHead_keeps. }
  split; [apply Index_shape|]. split.
  { rewrite (Document_kept "/" _ K). unfold indexChildren, documentOf.
    rewrite !filter_app.
    rewrite (filter_all isHead _ (indexHeads_are_heads (List.length frontmatters))).
    rewrite (filter_none isBody (indexHeads (List.length frontmatters))).
    2:{ eapply Forall_impl; [|apply indexHeads_are_heads].
        intros v Hv. unfold isBody. now rewrite Hv. }
    reflexivity. }
  split.
  { unfold indexHeads. cbn [app]. now rewrite <- app_assoc. }
  split.
  { cbn [filter]. change (isCanonical headLead) with false. cbv iota.
    rewrite filter_app. unfold indexHeads. cbn [filter].
    rewrite filter_app, (filter_map_none isCanonical metaOf) by reflexivity.
    destruct (JSONLD_node (indexLinkedData (List.length frontmatters))) as [text J].
    rewrite J. reflexivity. }
  split; [reflexivity|].
  assert (L : filter (hasClass "entrylog") (childrenOf (indexSection frontmatters Content))
              = map entryLog frontmatters).
  { unfold indexSection, childrenOf. cbn [filter].
    change (hasClass "entrylog" (VNode (Fn Content) [("components", components)] []))
      with false.
    cbv iota. cbn [filter].
    apply (filter_map_all (hasClass "entrylog") entryLog). reflexivity. }
  split; [exact L|]. rewrite L, map_map. reflexivity.
Qed.

End index_facts.

(** ** Who reads [published] *)

Section published_facts.
Context {R : Runtime}.

Lemma feedEntry_republish (p : Frontmatter -> jsval) (e : Entry) :
  feedEntry (republish p e) = feedEntry e.
Proof. reflexivity. Qed.

Lemma pageChildren_length (e : Entry) :
  List.length (pageChildren e)
  = (List.length (hintSlot (published (frontmatter e)))
     + (4 + List.length (normalize (OpenGraph (pageMetadata e)))))%nat.
Proof.
  unfold pageChildren. rewrite length_app. cbn [List.length].
  rewrite length_app. cbn [List.length]. lia.
Qed.

(** X12: only [Page] reads [published].  The feed and the index of entries
    are the same whatever [published] is set to, so an entry that is not
    published is listed in both like any other; the page of an entry changes
    when [published] is set to [false] from any other value. *)
Theorem Feed_and_Index_list_unpublished_entries :
  forall (p : Frontmatter -> jsval) (entries : list Entry)
         (frontmatters : list Frontmatter) (Content : component),
    Feed (map (republish p) entries) = Feed entries
    /\ Index (map (fun fm => withPublished (p fm) fm) frontmatters) Content
       = Index frontmatters Content
    /\ (forall e, published (frontmatter e) <> VBool false ->
          Page (republish (fun _ => VBool false) e) <> Page e).
Proof.
  intros p entries frontmatters Content. split; [|split].
  - unfold Feed, latest. rewrite !map_map. cbn [republish lastModified].
    f_equal.
  - unfold Index. rewrite length_map, map_map. reflexivity.
  - intros e P E. rewrite !Page_shape in E.
    assert (C : pageChildren (republish (fun _ => VBool false) e) = pageChildren e)
      by now inversion E.
    apply (f_equal (@List.length jsval)) in C. rewrite !pageChildren_length in C.
    assert (S : hintSlot (published (frontmatter e)) = []).
    { destruct (published (frontmatter e)) as [| |[|]| | | | | | |]; try reflexivity.
      now destruct P. }
    rewrite S in C.
    change (pageMetadata (republish (fun _ => VBool false) e)) with (pageMetadata e) in C.
    cbn [republish frontmatter withPublished published hintSlot List.length] in C. lia.
Qed.

End published_facts.

(** ** One address for an entry *)

Lemma append_cancel_l (p a b : string) : p ++ a = p ++ b -> a = b.
Proof. induction p as [|c p IH]; simpl; intro H; [exact H|]. inversion H. now apply IH. Qed.

Lemma append_unit_cancel_r (a b : string) (c : ascii) :
  a ++ String c EmptyString = b ++ String c EmptyString -> a = b.
Proof.
  revert b. induction a as [|x a IH]; intros [|y b] H; simpl in H.
  - reflexivity.
  - inversion H as [[Hc Hb]]. destruct b; discriminate Hb.
  - inversion H as [[Hc Ha]]. destruct a; discriminate Ha.
  - inversion H. f_equal. now apply IH.
Qed.

Lemma urlOf_injective (fm fm' : Frontmatter) :
  urlOf fm = urlOf fm' <-> permalink fm = permalink fm'.
Proof.
  unfold urlOf. split; [|now intros ->].
  intro H. apply append_cancel_l in H. now apply append_unit_cancel_r in H.
Qed.

Section address_facts.
Context {R : Runtime}.

Lemma Page_arguments (e : Entry) :
  childrenOf (h (Fn Document_) (pageArguments e)) = pageChildren e.
Proof.
  rewrite <- pageArguments_children. unfold pageArguments at 1.
  change (and_ (strictEqFalse (published (frontmatter e))) _)
    with (hintArgument (published (frontmatter e))).
  cbn [app].
  rewrite (h_children_only (Fn Document_) (hintArgument (published (frontmatter e))) _
             (hintArgument_not_object _)).
  reflexivity.
Qed.

(** X13: every composer writes the address of an entry alike: the id and the
    link of its feed entry, the og:url and the url of the linked data of its
    page, and the canonical link [Document] computes from the path that
    [Page] binds all hold the site prefix, the permalink and a slash; and two
    entries have the same address exactly when they have the same
    permalink. *)
Theorem entry_address_is_the_same_in_feed_and_page :
  forall e : Entry,
    let url := VStr (urlOf (frontmatter e)) in
    filter (hasTag "id") (childrenOf (feedEntry e)) = [VNode (Tag "id") [] [url]]
    /\ map hrefOf (filter (hasTag "link") (childrenOf (feedEntry e))) = [url]
    /\ get "og:url" (pageMetadata e) = url
    /\ get "url" (pageLinkedData e) = url
    /\ (exists heads bodies,
          Document (Some (pathOf e)) (childrenOf (h (Fn Document_) (pageArguments e)))
          = Ok (VNode (Tag "html") []
                  [VNode (Tag "head") [] heads; VNode (Tag "body") [] bodies])
          /\ map hrefOf (filter isCanonical heads) = [url])
    /\ (forall e' : Entry,
          urlOf (frontmatter e) = urlOf (frontmatter e')
          <-> permalink (frontmatter e) = permalink (frontmatter e')).
Proof.
  intros e url.
  assert (F : forall t, filter (hasTag t) (childrenOf (feedEntry e))
                        = (filter (hasTag t) (entryLead e)
                           ++ filter (hasTag t) (map categoryOf (tags (frontmatter e)))
                           ++ filter (hasTag t) (entryTrail e))%list).
  { intro t. rewrite feedEntry_children. unfold childrenOf. now rewrite !filter_app. }
  split; [|split; [|split; [|split; [|split]]]].
  - rewrite F, (filter_map_none _ categoryOf) by reflexivity. reflexivity.
  - rewrite F, (filter_map_none _ categoryOf) by reflexivity. reflexivity.
  - reflexivity.
  - reflexivity.
  - exists (headLead :: pageHeads e ++ headTrail (pathOf e))%list,
      (bodyLead (pathOf e) :: pageBodies e).
    split.
    + rewrite Page_arguments. apply Page_document.
    + cbn [filter]. change (isCanonical headLead) with false. cbv iota.
      rewrite filter_app, pageHeads_no_canonical. reflexivity.
  - intro e'. apply urlOf_injective.
Qed.

End address_facts.

(** ** [encodeURIComponent] and the links of [Attribution] *)

Lemma all_units (P : ascii -> bool) :
  forallb P (map ascii_of_nat (seq 0 256)) = true -> forall c, P c = true.
Proof.
  intros H c. rewrite forallb_forall in H. rewrite <- (ascii_nat_embedding c).
  apply H, in_map, in_seq. pose proof (nat_ascii_bounded c). lia.
Qed.

Lemma encodeUnit_units (c : ascii) :
  Forall (fun u => isUnreserved u = true \/ u = "%"%char)
         (list_ascii_of_string (encodeUnit c)).
Proof.
  assert (H : forallb (fun u => isUnreserved u || (u =? "%")%char)
                      (list_ascii_of_string (encodeUnit c)) = true).
  { revert c. apply all_units. vm_compute. reflexivity. }
  rewrite forallb_forall in H. apply Forall_forall. intros u I.
  specialize (H u I). apply orb_true_iff in H. destruct H as [H|H]; [now left|].
  right. now apply Ascii.eqb_eq.
Qed.

Lemma encodeUnit_length (c : ascii) :
  String.length (encodeUnit c) = 1%nat /\ isUnreserved c = true
  \/ (3 <= String.length (encodeUnit c))%nat /\ isUnreserved c = false.
Proof.
  assert (H : (if isUnreserved c then (String.length (encodeUnit c) =? 1)%nat
               else (3 <=? String.length (encodeUnit c))%nat) = true).
  { revert c. apply (all_units (fun c => if isUnreserved c
                                         then (String.length (encodeUnit c) =? 1)%nat
                                         else (3 <=? String.length (encodeUnit c))%nat)).
    vm_compute. reflexivity. }
  destruct (isUnreserved c).
  - left. split; [now apply Nat.eqb_eq|reflexivity].
  - right. split; [now apply Nat.leb_le|reflexivity].
Qed.

Lemma encodeURIComponent_units (s : string) :
  Forall (fun u => isUnreserved u = true \/ u = "%"%char)
         (list_ascii_of_string (encodeURIComponent s)).
Proof.
  induction s as [|c s IH]; [constructor|].
  cbn [encodeURIComponent]. rewrite chars_append. apply Forall_app.
  split; [apply encodeUnit_units|exact IH].
Qed.

Lemma encodeURIComponent_length (s : string) :
  (String.length s <= String.length (encodeURIComponent s))%nat
  /\ (String.length (encodeURIComponent s) = String.length s ->
      forallb isUnreserved (list_ascii_of_string s) = true).
Proof.
  induction s as [|c s [IH1 IH2]]; [split; [apply Nat.le_refl|reflexivity]|].
  cbn [encodeURIComponent String.length list_ascii_of_string forallb].
  rewrite length_append.
  destruct (encodeUnit_length c) as [[L U]|[L U]]; rewrite U.
  - rewrite L. split; [lia|]. intro H. apply IH2. lia.
  - split; [lia|]. intro H. lia.
Qed.

Lemma encodeURIComponent_unreserved (s : string) :
  forallb isUnreserved (list_ascii_of_string s) = true -> encodeURIComponent s = s.
Proof.
  induction s as [|c s IH]; [reflexivity|].
  cbn [list_ascii_of_string forallb encodeURIComponent]. intro H.
  apply andb_true_iff in H. destruct H as [Hc Hs].
  unfold encodeUnit. rewrite Hc, (IH Hs). reflexivity.
Qed.

Section attribution_facts.
Context {R : Runtime}.
Variable toLocaleString : DateTime -> string.

(** X15: the three links of [Attribution] lead to the address of the entry,
    to the raw file and to line 8 of the file in the editor of the
    repository, the file name encoded as a component in both.  The encoded
    name holds only unreserved units and percent signs, so no slash, no
    question mark, no blank and no number sign: the fragment is the only
    one in the edit link.  Encoding leaves a name as it is exactly when
    all its units are unreserved. *)
Theorem Attribution_links_encode_the_file_name :
  forall (filename : string) (fm : Frontmatter),
    map hrefOf (filter (hasTag "a") (itemsOf (Attribution toLocaleString filename fm)))
    = [ VStr (urlOf fm);
        VStr ("https://raw.githubusercontent.com/leebyron/til/main/entries/"
              ++ encodeURIComponent filename);
        VStr ("https://github.com/leebyron/til/edit/main/entries/"
              ++ encodeURIComponent filename ++ "#L8") ]
    /\ Forall (fun u => isUnreserved u = true \/ u = "%"%char)
              (list_ascii_of_string (encodeURIComponent filename))
    /\ (forall u, In u (list_ascii_of_string (encodeURIComponent filename)) ->
          u <> "/"%char /\ u <> "#"%char /\ u <> "?"%char /\ u <> " "%char)
    /\ (encodeURIComponent filename = filename
        <-> forallb isUnreserved (list_ascii_of_string filename) = true).
Proof.
  intros filename fm. split; [reflexivity|].
  split; [apply encodeURIComponent_units|]. split.
  - intros u I. pose proof (encodeURIComponent_units filename) as F.
    rewrite Forall_forall in F. specialize (F u I).
    repeat split; intros ->; destruct F as [F|F]; discriminate F.
  - split; [|apply encodeURIComponent_unreserved].
    intro E. apply (proj2 (encodeURIComponent_length filename)). now rewrite E.
Qed.

End attribution_facts.

(** ** [License] *)

Lemma falsy_flat_no_break (v : jsval) :
  truthy v = false -> filter (hasTag "br") (flattenChild v) = [].
Proof.
  destruct v as [| |[|]|[|z]|s| | |xs| |]; simpl; intro H; try reflexivity; discriminate H.
Qed.

Section license_facts.
Context {R : Runtime}.

(** X14: outside a provider of [Path], [License] throws a type error; under
    one it returns a division that holds what [h] keeps of [children], then a
    line break when [children] is truthy, then the copyright line, whose last
    link leads to the feed relative to the bound path.  The line break
    depends on the truth of [children] alone: the empty array gives a break
    with nothing before it, and no falsy value gives one. *)
Theorem License_breaks_the_line_iff_children_are_truthy :
  forall (ctx : option string) (year children : jsval),
    (ctx = None -> License ctx year children = Throw TypeError)
    /\ (forall from,
          ctx = Some from ->
          exists kids,
            License ctx year children
            = Ok (VNode (Tag "div")
                    [("class", VStr "license");
                     ("xmlns:cc", VStr "http://creativecommons.org/ns");
                     ("xmlns:dct", VStr "http://purl.org/dc/terms/")]
                    kids)
            /\ kids = (flattenChild children
                       ++ (if truthy children then [lineBreak] else flattenChild children)
                       ++ licenseTail from year)%list
            /\ filter (hasTag "br") kids
               = (filter (hasTag "br") (flattenChild children)
                  ++ (if truthy children then [lineBreak] else []))%list
            /\ (children = VArr [] -> kids = lineBreak :: licenseTail from year)
            /\ (truthy children = false -> ~ In lineBreak kids)
            /\ hrefOf (last kids VUndefined) = VStr (relative from "/feed.xml")).
Proof.
  intros ctx year children. split; [intros ->; reflexivity|].
  intros from ->.
  assert (A : flattenChild (and_ children (h (Tag "br") []))
              = if truthy children then [lineBreak] else flattenChild children).
  { unfold and_. destruct (truthy children); reflexivity. }
  exists (flattenChild children
          ++ (if truthy children then [lineBreak] else flattenChild children)
          ++ licenseTail from year)%list.
  split.
  { unfold License. cbn [bind useRelPath usePath]. f_equal.
    unfold h at 1. rewrite (normalize_cons children), (normalize_cons (and_ _ _)), A.
    do 3 f_equal. unfold h. cbn [normalize flat_map flattenChild app].
    rewrite app_nil_r. reflexivity. }
  split; [reflexivity|].
  assert (T : filter (hasTag "br") (licenseTail from year) = []) by reflexivity.
  split; [|split; [|split]].
  - rewrite !filter_app, T, app_nil_r. f_equal.
    destruct (truthy children) eqn:C; [reflexivity|]. now apply falsy_flat_no_break.
  - intros ->. reflexivity.
  - intros C I. rewrite C in I.
    assert (F : In lineBreak (filter (hasTag "br")
                  (flattenChild children ++ flattenChild children
                   ++ licenseTail from year)%list)).
    { apply filter_In. split; [exact I|reflexivity]. }
    rewrite !filter_app, T, (falsy_flat_no_break children C) in F. destruct F.
  - rewrite app_assoc. unfold licenseTail.
    match goal with |- context [(?a ++ ?b)%list] =>
      change b with (removelast b ++ [last b VUndefined])%list
    end.
    rewrite app_assoc, last_last. reflexivity.
Qed.

End license_facts.

(** ** The page of any entry *)

Section any_page_facts.
Context {R : Runtime}.

Lemma pageBodies_no_robots (e : Entry) :
  Forall (fun v => isRobots v = false) (pageBodies e).
Proof.
  unfold pageBodies. apply Forall_app. split; [|apply Forall_app; split].
  - destruct (published (frontmatter e)) as [| |[|]| | | | | | |]; repeat constructor.
  - apply Forall_forall. intros v Hv. apply filter_In in Hv. destruct Hv as [I _].
    assert (F : Forall (fun v => isRobots v = false) (normalize (OpenGraph (pageMetadata e)))).
    { apply normalize_OpenGraph_forall.
      - intros kv _ _. apply metaOf_not_robots.
      - intros [k c] _ L. unfold leftover in L. simpl in L.
        destruct c as [| |[|]|[|z]|s| | | | |]; try discriminate L; reflexivity. }
    rewrite Forall_forall in F. now apply F.
  - repeat constructor.
Qed.

Lemma pageBodies_NaN (e : Entry) :
  In (VNum NaN) (pageBodies e) <-> published (frontmatter e) = VBool false.
Proof.
  unfold pageBodies. split.
  - intro I. apply in_app_or in I. destruct I as [I|I].
    + destruct (published (frontmatter e)) as [| |[|]| | | | | | |];
        try reflexivity; destruct I.
    + exfalso. apply in_app_or in I. destruct I as [I|I].
      * apply filter_In in I. destruct I as [I _].
        assert (F : Forall (fun v => v <> VNum NaN)
                           (normalize (OpenGraph (pageMetadata e)))).
        { apply normalize_OpenGraph_forall.
          - intros kv _ _. discriminate.
          - intros kv K L. unfold pageMetadata in K.
            repeat (destruct K as [<-|K]; [discriminate|]). destruct K. }
        rewrite Forall_forall in F. now apply (F _ I).
      * destruct I as [I|[I|[]]]; discriminate I.
  - intros ->. now left.
Qed.

(** X16: for every entry, whatever its [published], [Document] returns for
    the children [Page] hands it, and neither its head nor its body holds a
    meta element named robots; the body holds the number NaN, which is what
    the negated element comes to, exactly when [published] is [false]. *)
Theorem Page_never_hints_and_marks_the_unpublished :
  forall e : Entry,
    exists heads bodies,
      Document (Some (pathOf e)) (childrenOf (h (Fn Document_) (pageArguments e)))
      = Ok (VNode (Tag "html") []
              [VNode (Tag "head") [] heads; VNode (Tag "body") [] bodies])
      /\ Forall (fun v => isRobots v = false) heads
      /\ Forall (fun v => isRobots v = false) bodies
      /\ (In (VNum NaN) bodies <-> published (frontmatter e) = VBool false)
      /\ (hd VUndefined (pageArguments e) = VBool false
          <-> published (frontmatter e) <> VBool false).
Proof.
  intro e.
  exists (headLead :: pageHeads e ++ headTrail (pathOf e))%list,
    (bodyLead (pathOf e) :: pageBodies e).
  split.
  { rewrite Page_arguments. apply Page_document. }
  split; [apply head_no_robots|].
  split; [constructor; [reflexivity|apply pageBodies_no_robots]|].
  split.
  - rewrite <- pageBodies_NaN. split; [|now right].
    intros [I|I]; [discriminate I|exact I].
  - unfold pageArguments. cbn [app hd].
    destruct (published (frontmatter e)) as [| |[|]| | | | | | |]; cbn;
      split; try congruence; try discriminate; intro H; now destruct H.
Qed.

End any_page_facts.

(** ** The scenarios of the specification *)

#[local] Existing Instance Sample.runtime.

(** Children tagged title, meta, meta, section come out the same wherever the
    section stands among them: the three head children in the head, in their
    order, the section in the body. *)
Example Document_interleaving :
  let t := h (Tag "title") [VStr "T"] in
  let m1 := h (Tag "meta") [VObj [("name", VStr "a")]] in
  let m2 := h (Tag "meta") [VObj [("name", VStr "b")]] in
  let s := h (Tag "section") [VStr "S"] in
  let doc args :=
    Document (R := Sample.runtime) (Some "/") (childrenOf (h (Fn Document_) args)) in
  doc [t; m1; m2; s] = doc [s; t; m1; m2]
  /\ doc [t; m1; m2; s] = doc [t; m1; s; m2]
  /\ region "head" (l <- doc [t; s; m1; m2] ;; Ok [l])
     = (headLead :: [t; m1; m2] ++ headTrail "/")%list
  /\ region "body" (l <- doc [t; s; m1; m2] ;; Ok [l]) = [bodyLead "/"; s].
Proof. repeat split. Qed.

(** Last modified on 2023-01-01 and on 2023-06-15: the feed is updated on
    2023-06-15, in either order of the entries. *)
Example Feed_updated_sample :
  exists doc doc',
    Feed [Sample.hello; Sample.hidden] = Ok doc
    /\ Feed [Sample.hidden; Sample.hello] = Ok doc'
    /\ filter (hasTag "updated") (childrenOf doc)
       = [VNode (Tag "updated") [] [VStr (toISO (mkDateTime Sample.june 0))]]
    /\ filter (hasTag "updated") (childrenOf doc')
       = [VNode (Tag "updated") [] [VStr (toISO (mkDateTime Sample.june 0))]].
Proof. do 2 eexists. repeat split; vm_compute; reflexivity. Qed.

(** Title X, permalink x, no tags, body Hello: the rendered page has one
    paragraph in its article, holding Hello, and one canonical link, to the
    site address followed by /x/. *)
Example Page_hello_sample :
  let out := expand 10 None (Page Sample.hello) in
  filter isCanonical (region "head" out)
  = [VNode (Tag "link")
       [("rel", VStr "canonical"); ("href", VStr "https://leebyron.com/til/x/")] []]
  /\ flat_map (fun v => filter (hasTag "p") (childrenOf v))
              (filter (hasTag "article") (region "body" out))
     = [VNode (Tag "p") [] [VStr "Hello"]]
  /\ filter isRobots (region "head" out) = [].
Proof. vm_compute. repeat split. Qed.

(** An entry with [published: false], rendered: the head has no robots
    element and the body holds, after the header, NaN. *)
Example Page_hidden_sample :
  let out := expand 10 None (Page Sample.hidden) in
  filter isRobots (region "head" out) = []
  /\ filter (hasTag "meta") (region "body" out) = []
  /\ nth 1 (region "body" out) VUndefined = VNum NaN.
Proof. vm_compute. repeat split. Qed.

(** ** The theorems at concrete entries *)

Lemma Page_unpublished_witness :
  published (frontmatter Sample.hidden) = VBool false
  /\ exists children heads bodies,
       Page Sample.hidden
       = VNode Provider [("value", VStr (pathOf Sample.hidden))]
           [VNode (Fn Document_) [] children]
       /\ hd VUndefined (pageArguments Sample.hidden) = VNum NaN
       /\ Document (Some (pathOf Sample.hidden)) children
          = Ok (VNode (Tag "html") []
                  [VNode (Tag "head") [] heads; VNode (Tag "body") [] bodies])
       /\ Forall (fun v => isRobots v = false) heads
       /\ ~ In noindexHint heads
       /\ In (VNum NaN) bodies.
Proof.
  split; [reflexivity|].
  apply (Page_unpublished_has_no_noindex_hint Sample.hidden).
  reflexivity.
Defined.



Lemma Feed_entry_witness :
  [Sample.hello; Sample.hidden] <> []
  /\ exists doc : jsval,
       Feed [Sample.hello; Sample.hidden] = Ok doc
       /\ hasTag "feed" doc = true
       /\ map tagOf (childrenOf doc)
          = (map Some ["id"; "link"; "link"; "updated"; "title"; "subtitle"; "icon";
                       "author"; "rights"; "generator"]
             ++ map (fun _ => Some "entry") [Sample.hello; Sample.hidden])%list
       /\ List.length (filter (hasTag "entry") (childrenOf doc))
          = List.length [Sample.hello; Sample.hidden]
       /\ Forall2 carries [Sample.hello; Sample.hidden]
                  (filter (hasTag "entry") (childrenOf doc)).
Proof.
  split; [discriminate|].
  apply (Feed_entry_per_entry [Sample.hello; Sample.hidden]).
  discriminate.
Defined.



(** A tag list that is not empty and yet gives no keywords member: the one
    tag is the empty string, and the tags join to the empty string. *)
Lemma blank_tag_has_no_keywords :
  tags (frontmatter Sample.blankTag) <> []
  /\ ~ In "keywords" (map fst (written (ldData (pageLinkedData Sample.blankTag))))
  /\ (forall v, lookup "keywords" (written (ldData (pageLinkedData Sample.blankTag)))
                <> Some (VStr v))
  /\ get "keywords" (pageLinkedData Sample.blankTag) = VUndefined.
Proof.
  split; [discriminate|]. split; [|split].
  - vm_compute. intros H.
    repeat (destruct H as [H|H]; [discriminate H|]). exact H.
  - intro v. vm_compute. discriminate.
  - reflexivity.
Qed.

(** * Properties of the authoring command *)

(** ** Quoting for the shell *)

Lemma quot_quote (str : string) :
  quot (String (ascii_of_nat 34) str)
  = String (ascii_of_nat 92) (String (ascii_of_nat 34) (quot str)).
Proof. reflexivity. Qed.

Lemma quot_other (c : ascii) (str : string) :
  (nat_of_ascii c =? 34)%nat = false -> quot (String c str) = String c (quot str).
Proof. intro H. simpl. now rewrite H. Qed.

Lemma quot_cases (c : ascii) (str : string) :
  (c = ascii_of_nat 34
   /\ quot (String c str)
      = String (ascii_of_nat 92) (String (ascii_of_nat 34) (quot str)))
  \/ (c <> ascii_of_nat 34 /\ quot (String c str) = String c (quot str)).
Proof.
  destruct (nat_of_ascii c =? 34)%nat eqn:E.
  - left. apply Nat.eqb_eq, unit_of_code in E. subst c. split; reflexivity.
  - right. split; [|now apply quot_other].
    intros ->. discriminate E.
Qed.

Lemma quot_never_starts_with_quote (str rest : string) :
  quot str <> String (ascii_of_nat 34) rest.
Proof.
  destruct str as [|c str]; [discriminate|].
  destruct (quot_cases c str) as [[-> E]|[N E]]; rewrite E.
  - discriminate.
  - intro H. inversion H. contradiction.
Qed.

(** X1: in what [quot] returns every double quote stands right after a
    backslash that [quot] put there; the result is longer than the argument
    by the number of its double quotes, and two different arguments never
    give the same result. *)
Theorem quot_escapes_each_quote :
  forall str : string,
    (forall pre post,
        quot str = pre ++ dquote ++ post -> exists pre', pre = pre' ++ backslash)
    /\ String.length (quot str)
       = (String.length str
          + count_occ ascii_dec (list_ascii_of_string str) (ascii_of_nat 34))%nat
    /\ (forall other, quot other = quot str -> other = str).
Proof.
  intro str. split; [|split].
  - induction str as [|c str IH]; intros pre post H.
    + destruct pre; discriminate H.
    + destruct (quot_cases c str) as [[-> E]|[N E]]; rewrite E in H.
      * destruct pre as [|a pre]; [discriminate H|].
        destruct pre as [|b pre].
        -- exists EmptyString. simpl in H. injection H as Ha _. now subst a.
        -- simpl in H. injection H as Ha Hb Hq. subst a b.
           destruct (IH pre post Hq) as [p ->].
           exists (String (ascii_of_nat 92) (String (ascii_of_nat 34) p)). reflexivity.
      * destruct pre as [|a pre].
        -- simpl in H. injection H as Ha _. now destruct N.
        -- simpl in H. injection H as Ha Hq. subst a.
           destruct (IH pre post Hq) as [p ->]. now exists (String c p).
  - induction str as [|c str IH]; [reflexivity|].
    destruct (quot_cases c str) as [[-> E]|[N E]]; rewrite E.
    + cbn [String.length list_ascii_of_string count_occ]. rewrite IH.
      destruct (ascii_dec (ascii_of_nat 34) (ascii_of_nat 34)) as [_|F]; [lia|now destruct F].
    + cbn [String.length list_ascii_of_string count_occ]. rewrite IH.
      destruct (ascii_dec c (ascii_of_nat 34)) as [F|_]; [now destruct N|lia].
  - induction str as [|c str IH]; intros other H.
    + destruct other as [|d other]; [reflexivity|].
      destruct (quot_cases d other) as [[-> E]|[N E]]; rewrite E in H; discriminate H.
    + destruct other as [|d other].
      * destruct (quot_cases c str) as [[-> E]|[N E]]; rewrite E in H; discriminate H.
      * destruct (quot_cases c str) as [[-> E]|[N E]];
          destruct (quot_cases d other) as [[-> E']|[N' E']]; rewrite E, E' in H.
        -- injection H as Hq. now rewrite (IH other Hq).
        -- injection H as Hd Hq. exfalso.
           exact (quot_never_starts_with_quote _ _ Hq).
        -- injection H as Hc Hq. exfalso. symmetry in Hq.
           exact (quot_never_starts_with_quote _ _ Hq).
        -- injection H as Hc Hq. subst d. now rewrite (IH other Hq).
Qed.

(** ** Permalink and file name, first version *)

Lemma length_mapUnits (f : ascii -> ascii) (s : string) :
  String.length (mapUnits f s) = String.length s.
Proof. induction s as [|c s IH]; simpl; [reflexivity|now rewrite IH]. Qed.

Lemma chars_mapUnits (f : ascii -> ascii) (s : string) :
  list_ascii_of_string (mapUnits f s) = map f (list_ascii_of_string s).
Proof. induction s as [|c s IH]; simpl; [reflexivity|now rewrite IH]. Qed.

Lemma mapUnits_fixed (f : ascii -> ascii) (s : string) :
  Forall (fun c => f c = c) (list_ascii_of_string s) -> mapUnits f s = s.
Proof.
  induction s as [|c s IH]; simpl; intro H; [reflexivity|].
  inversion H as [|? ? Hc Hs]; subst. now rewrite Hc, IH.
Qed.

Lemma isDash_eq (c : ascii) : isDash c = true <-> c = "-"%char.
Proof. apply Ascii.eqb_eq. Qed.

Lemma alnum_is_no_dash (c : ascii) : isAlnum c = true -> isDash c = false.
Proof.
  intro H. destruct (isDash c) eqn:D; [|reflexivity].
  apply isDash_eq in D. subst c. discriminate H.
Qed.

Lemma get_mapUnits (f : ascii -> ascii) (s : string) (i : nat) :
  String.get i (mapUnits f s) = option_map f (String.get i s).
Proof.
  revert i. induction s as [|c s IH]; intro i; [reflexivity|].
  destruct i as [|i]; [reflexivity|]. apply IH.
Qed.

Lemma mapUnits_append (f : ascii -> ascii) (a b : string) :
  mapUnits f (a ++ b) = mapUnits f a ++ mapUnits f b.
Proof. induction a as [|c a IH]; simpl; [reflexivity|now rewrite IH]. Qed.

Lemma mapUnits_same (f g : ascii -> ascii) (s : string) :
  Forall (fun c => f c = g c) (list_ascii_of_string s) -> mapUnits f s = mapUnits g s.
Proof.
  induction s as [|c s IH]; simpl; intro H; [reflexivity|].
  inversion H as [|? ? Hc Hs]; subst. now rewrite Hc, IH.
Qed.

(** X2: the first version's permalink replaces unit for unit: at every place
    it holds the unit of the title when that is a digit or letter and a dash
    otherwise, so it is as long as the title, holds only digits, letters and
    dashes, and keeps every dash where it stood: the permalink of two parts
    is the permalink of the one followed by that of the other, and a part
    without digit or letter gives as many dashes as it has units, at the ends
    as in the middle.  A title of digits and letters is kept as it is, and
    the permalink is not changed by being computed again. *)
Theorem permalink_v1_replaces_unit_for_unit :
  forall title : string,
    (forall i, String.get i (V1.permalink title)
               = option_map (fun c => if isAlnum c then c else "-"%char)
                            (String.get i title))
    /\ String.length (V1.permalink title) = String.length title
    /\ Forall (fun c => isAlnum c = true \/ c = "-"%char)
              (list_ascii_of_string (V1.permalink title))
    /\ (forall before after,
          title = before ++ after ->
          V1.permalink title = V1.permalink before ++ V1.permalink after)
    /\ (Forall (fun c => isAlnum c = false) (list_ascii_of_string title) ->
        V1.permalink title = mapUnits (fun _ => "-"%char) title)
    /\ (Forall (fun c => isAlnum c = true) (list_ascii_of_string title) ->
        V1.permalink title = title)
    /\ V1.permalink (V1.permalink title) = V1.permalink title.
Proof.
  intro title. unfold V1.permalink.
  split; [intro i; apply get_mapUnits|]. split; [apply length_mapUnits|].
  split; [|split; [|split; [|split]]].
  - rewrite chars_mapUnits. apply Forall_forall. intros c Hc.
    apply in_map_iff in Hc. destruct Hc as (d & <- & _).
    destruct (isAlnum d) eqn:A; [now left|now right].
  - intros before after ->. apply mapUnits_append.
  - intro H. apply mapUnits_same. eapply Forall_impl; [|exact H].
    intros c Hc. simpl in Hc. now rewrite Hc.
  - intro H. apply mapUnits_fixed. eapply Forall_impl; [|exact H].
    intros c Hc. simpl in Hc. now rewrite Hc.
  - apply mapUnits_fixed. rewrite chars_mapUnits. apply Forall_forall.
    intros c Hc. apply in_map_iff in Hc. destruct Hc as (d & <- & _).
    destruct (isAlnum d) eqn:A; [now rewrite A|reflexivity].
Qed.

Example permalink_v1_sample : V1.permalink "-a: b/c-" = "-a--b-c-".
Proof. reflexivity. Qed.

(** X3: the first version's file name is the title with every slash and colon
    turned into a dash and every other unit kept, followed by .md: at every
    place the stem holds a dash where the title holds a slash or a colon and
    the unit of the title otherwise; it is as long as the title, the name
    holds no slash and no colon, so it names one path segment, and a title
    without slash and colon is itself the stem. *)
Theorem filename_v1_is_one_segment :
  forall argv : list string,
    exists stem,
      V1.filename argv = stem ++ ".md"
      /\ (forall i, String.get i stem
                    = option_map (fun c => if ((c =? "/") || (c =? ":"))%char
                                           then "-"%char else c)
                                 (String.get i (V1.title argv)))
      /\ String.length stem = String.length (V1.title argv)
      /\ Forall (fun c => c <> "/"%char /\ c <> ":"%char)
                (list_ascii_of_string (V1.filename argv))
      /\ (Forall (fun c => c <> "/"%char /\ c <> ":"%char)
                 (list_ascii_of_string (V1.title argv)) ->
          stem = V1.title argv).
Proof.
  intro argv.
  exists (mapUnits (fun c => if oneOf "/:" c then "-"%char else c) (V1.title argv)).
  assert (Q : forall c, oneOf "/:" c = ((c =? "/") || (c =? ":"))%char).
  { intro c. unfold oneOf. simpl. now rewrite orb_false_r. }
  split; [reflexivity|]. split.
  { intro i. rewrite get_mapUnits. destruct (String.get i (V1.title argv)) as [c|];
      [|reflexivity].
    simpl. now rewrite Q. }
  split; [apply length_mapUnits|]. split.
  2:{ intro H. apply mapUnits_fixed. eapply Forall_impl; [|exact H].
      intros c [S C]. simpl. rewrite Q.
      apply Ascii.eqb_neq in S. apply Ascii.eqb_neq in C. now rewrite S, C. }
  unfold V1.filename. rewrite chars_append, chars_mapUnits. apply Forall_app. split.
  - apply Forall_forall. intros c Hc. apply in_map_iff in Hc.
    destruct Hc as (d & <- & _).
    destruct (oneOf "/:" d) eqn:O; [split; discriminate|].
    unfold oneOf in O. simpl in O.
    apply orb_false_iff in O. destruct O as [O1 O2].
    apply orb_false_iff in O2. destruct O2 as [O2 _].
    apply Ascii.eqb_neq in O1, O2. now split.
  - repeat constructor; discriminate.
Qed.

(** ** Trimming dashes *)

Lemma dropDashes_Forall (P : ascii -> Prop) (s : string) :
  Forall P (list_ascii_of_string s) -> Forall P (list_ascii_of_string (dropDashes s)).
Proof.
  induction s as [|c s IH]; simpl; intro H; [constructor|].
  destruct (isDash c); [|exact H]. apply IH. now inversion H.
Qed.

Lemma dropDashes_alnum (s : string) :
  filter isAlnum (list_ascii_of_string (dropDashes s))
  = filter isAlnum (list_ascii_of_string s).
Proof.
  induction s as [|c s IH]; simpl; [reflexivity|].
  destruct (isDash c) eqn:D; [|reflexivity].
  rewrite IH. apply isDash_eq in D. now subst c.
Qed.

Lemma dropDashes_head (s : string) : headDash (dropDashes s) = false.
Proof.
  induction s as [|c s IH]; simpl; [reflexivity|].
  destruct (isDash c) eqn:D; [exact IH|exact D].
Qed.

Lemma tidy_tail (c : ascii) (s : string) : tidy (String c s) = true -> tidy s = true.
Proof. simpl. intro H. now apply andb_true_iff in H. Qed.

Lemma dropDashes_tidy (s : string) : tidy s = true -> tidy (dropDashes s) = true.
Proof.
  induction s as [|c s IH]; intro H; [reflexivity|].
  simpl. destruct (isDash c); [|exact H]. apply IH. now apply tidy_tail in H.
Qed.

Lemma dropDashes_length (s : string) :
  (String.length (dropDashes s) <= String.length s)%nat.
Proof.
  induction s as [|c s IH]; simpl; [lia|]. destruct (isDash c); simpl; lia.
Qed.

Lemma dropDashes_fixed (s : string) : headDash s = false -> dropDashes s = s.
Proof. destruct s as [|c s]; simpl; [reflexivity|]. now intros ->. Qed.

Lemma stripDashes_cons (c : ascii) (s : string) :
  stripDashes (String c s)
  = match stripDashes s with
    | EmptyString => if isDash c then EmptyString else String c EmptyString
    | r => String c r
    end.
Proof. reflexivity. Qed.

Lemma stripDashes_keeps (c : ascii) (s : string) :
  isDash c = false -> stripDashes (String c s) = String c (stripDashes s).
Proof. intro D. rewrite stripDashes_cons, D. now destruct (stripDashes s). Qed.

Lemma stripDashes_Forall (P : ascii -> Prop) (s : string) :
  Forall P (list_ascii_of_string s) -> Forall P (list_ascii_of_string (stripDashes s)).
Proof.
  induction s as [|c s IH]; intro H; [constructor|].
  inversion H as [|? ? Hc Hs]; subst. specialize (IH Hs).
  rewrite stripDashes_cons. destruct (stripDashes s) as [|d r].
  - destruct (isDash c); simpl; [constructor|now constructor].
  - simpl. now constructor.
Qed.

Lemma stripDashes_alnum (s : string) :
  filter isAlnum (list_ascii_of_string (stripDashes s))
  = filter isAlnum (list_ascii_of_string s).
Proof.
  induction s as [|c s IH]; [reflexivity|].
  rewrite stripDashes_cons. cbn [list_ascii_of_string filter]. rewrite <- IH.
  destruct (stripDashes s) as [|d r]; [|reflexivity].
  destruct (isDash c) eqn:D; [|reflexivity].
  apply isDash_eq in D. now subst c.
Qed.

Lemma stripDashes_head (s : string) :
  headDash (stripDashes s) = true -> headDash s = true.
Proof.
  destruct s as [|c s]; [discriminate|].
  rewrite stripDashes_cons. destruct (stripDashes s) as [|d r]; simpl.
  - destruct (isDash c) eqn:D; [discriminate|]. simpl. now rewrite D.
  - trivial.
Qed.

Lemma stripDashes_tidy (s : string) : tidy s = true -> tidy (stripDashes s) = true.
Proof.
  induction s as [|c s IH]; intro H; [reflexivity|].
  pose proof (tidy_tail c s H) as T. specialize (IH T).
  rewrite stripDashes_cons. destruct (stripDashes s) as [|d r] eqn:E.
  - destruct (isDash c) eqn:D; cbn [tidy headDash]; rewrite ?D; reflexivity.
  - change (tidy (String c (String d r)))
      with (negb (isDash c && headDash (String d r)) && tidy (String d r)).
    rewrite IH, andb_true_r.
    change (tidy (String c s)) with (negb (isDash c && headDash s) && tidy s) in H.
    apply andb_true_iff in H. destruct H as [H _].
    destruct (isDash c) eqn:D; [|reflexivity].
    destruct (headDash (String d r)) eqn:HD; [|reflexivity].
    rewrite <- E in HD. apply stripDashes_head in HD. now rewrite HD in H.
Qed.

Lemma stripDashes_last (s : string) : lastDash (stripDashes s) = false.
Proof.
  induction s as [|c s IH]; [reflexivity|].
  rewrite stripDashes_cons. destruct (stripDashes s) as [|d r].
  - destruct (isDash c) eqn:D; [reflexivity|exact D].
  - exact IH.
Qed.

Lemma stripDashes_length (s : string) :
  (String.length (stripDashes s) <= String.length s)%nat.
Proof.
  induction s as [|c s IH]; [simpl; lia|].
  rewrite stripDashes_cons. destruct (stripDashes s) as [|d r].
  - destruct (isDash c); simpl; lia.
  - simpl in *. lia.
Qed.

Lemma stripDashes_fixed (s : string) : lastDash s = false -> stripDashes s = s.
Proof.
  induction s as [|c s IH]; intro H; [reflexivity|].
  rewrite stripDashes_cons. destruct s as [|d s].
  - simpl in *. now rewrite H.
  - rewrite IH by exact H. reflexivity.
Qed.

Lemma trimDashes_ends (s : string) :
  headDash (trimDashes s) = false /\ lastDash (trimDashes s) = false.
Proof.
  unfold trimDashes. split; [|apply stripDashes_last].
  destruct (headDash (stripDashes (dropDashes s))) eqn:H; [|reflexivity].
  apply stripDashes_head in H. now rewrite dropDashes_head in H.
Qed.

Lemma headDash_append (rest : string) : headDash ("-" ++ rest) = true.
Proof. reflexivity. Qed.

Lemma lastDash_append (pre : string) : lastDash (pre ++ "-") = true.
Proof.
  induction pre as [|c pre IH]; [reflexivity|].
  simpl. destruct (pre ++ "-") eqn:E; [destruct pre; discriminate E|exact IH].
Qed.

Lemma tidy_append (pre post : string) : tidy (pre ++ "--" ++ post) = false.
Proof.
  induction pre as [|c pre IH]; [reflexivity|].
  simpl in *. rewrite IH. apply andb_false_r.
Qed.

(** ** Permalink, second version *)

Lemma collapse_units (b : bool) (s : string) :
  Forall (fun c => isAlnum c = true \/ c = "-"%char)
         (list_ascii_of_string (V2.collapse b s)).
Proof.
  revert b. induction s as [|c s IH]; intro b; [constructor|].
  simpl. destruct (isDash c || negb (isAlnum c)) eqn:T.
  - destruct b; [apply IH|]. simpl. constructor; [now right|apply IH].
  - simpl. constructor; [|apply IH].
    apply orb_false_iff in T. destruct T as [_ T].
    left. now apply negb_false_iff in T.
Qed.

Lemma collapse_alnum (b : bool) (s : string) :
  filter isAlnum (list_ascii_of_string (V2.collapse b s))
  = filter isAlnum (list_ascii_of_string s).
Proof.
  revert b. induction s as [|c s IH]; intro b; [reflexivity|].
  simpl. destruct (isDash c || negb (isAlnum c)) eqn:T.
  - assert (A : isAlnum c = false).
    { destruct (isAlnum c) eqn:A; [|reflexivity].
      rewrite (alnum_is_no_dash c A) in T. discriminate T. }
    rewrite A. destruct b; [apply IH|]. simpl. apply IH.
  - simpl. now rewrite IH.
Qed.

Lemma collapse_tidy (s : string) :
  forall b, tidy (V2.collapse b s) = true /\ headDash (V2.collapse true s) = false.
Proof.
  induction s as [|c s IH]; intro b; [split; reflexivity|].
  simpl. destruct (isDash c || negb (isAlnum c)) eqn:T.
  - split; [|apply (IH true)].
    destruct b; [apply (IH true)|].
    cbn [tidy]. destruct (IH true) as [-> ->]. now rewrite andb_false_r.
  - apply orb_false_iff in T. destruct T as [D _].
    split; [|exact D]. cbn [tidy]. rewrite D. apply (IH false).
Qed.

Lemma collapse_fixed (s : string) :
  Forall (fun c => isAlnum c = true \/ c = "-"%char) (list_ascii_of_string s) ->
  tidy s = true ->
  V2.collapse false s = s /\ (headDash s = false -> V2.collapse true s = s).
Proof.
  induction s as [|c s IH]; intros U T; [split; reflexivity|].
  inversion U as [|? ? Uc Us]; subst.
  pose proof (tidy_tail c s T) as Ts. destruct (IH Us Ts) as [F G].
  simpl. destruct Uc as [A| ->].
  - rewrite (alnum_is_no_dash c A), A. simpl. rewrite F. split; reflexivity.
  - simpl. split; [|discriminate].
    rewrite G; [reflexivity|].
    simpl in T. apply andb_true_iff in T. destruct T as [T _].
    now destruct (headDash s).
Qed.

(** X4: the second version's permalink is a slug: only digits, letters and
    dashes, the digits and letters being those of the title in their order;
    it neither starts nor ends with a dash and holds no two dashes in a row;
    computing it from a permalink gives the permalink back. *)
Theorem permalink_v2_is_a_slug :
  forall title : string,
    let slug := V2.permalink title in
    Forall (fun c => isAlnum c = true \/ c = "-"%char) (list_ascii_of_string slug)
    /\ filter isAlnum (list_ascii_of_string slug)
       = filter isAlnum (list_ascii_of_string title)
    /\ (forall rest, slug <> "-" ++ rest)
    /\ (forall pre, slug <> pre ++ "-")
    /\ (forall pre post, slug <> pre ++ "--" ++ post)
    /\ V2.permalink slug = slug.
Proof.
  intros title slug.
  assert (U : Forall (fun c => isAlnum c = true \/ c = "-"%char)
                     (list_ascii_of_string slug)).
  { apply stripDashes_Forall, dropDashes_Forall, collapse_units. }
  assert (T : tidy slug = true).
  { apply stripDashes_tidy, dropDashes_tidy, collapse_tidy. }
  destruct (trimDashes_ends (V2.collapse false title)) as [H L].
  fold (V2.permalink title) in H, L. fold slug in H, L.
  split; [exact U|]. split.
  { unfold slug, V2.permalink, trimDashes.
    now rewrite stripDashes_alnum, dropDashes_alnum, collapse_alnum. }
  split. { intros rest E. rewrite E in H. discriminate H. }
  split. { intros pre E. rewrite E, lastDash_append in L. discriminate L. }
  split. { intros pre post E. rewrite E, tidy_append in T. discriminate T. }
  unfold V2.permalink at 1. destruct (collapse_fixed slug U T) as [-> _].
  unfold trimDashes. rewrite (dropDashes_fixed slug H). now apply stripDashes_fixed.
Qed.

(** ** File name, second version *)

Lemma coerce_plain (b : bool) (s : string) :
  Forall (fun c => c <> "-"%char) (list_ascii_of_string s) -> V2.coerce b s = s.
Proof.
  revert b. induction s as [|d t IH]; intros b H; [reflexivity|].
  inversion H as [|? ? Hd Ht]; subst.
  assert (D : isDash d = false).
  { destruct (isDash d) eqn:D; [|reflexivity]. apply isDash_eq in D. contradiction. }
  cbn [V2.coerce]. destruct t as [|c s']; [reflexivity|].
  rewrite D. cbn [andb]. now rewrite (IH false Ht).
Qed.

Lemma coerce_length (s : string) :
  forall b, (String.length (V2.coerce b s) <= String.length s)%nat.
Proof.
  assert (G : forall n s, (String.length s <= n)%nat ->
                          forall b, (String.length (V2.coerce b s) <= String.length s)%nat).
  { induction n as [|n IH]; intros s0 L b.
    - destruct s0; [simpl; lia|simpl in L; lia].
    - destruct s0 as [|d t]; [simpl; lia|].
      cbn [V2.coerce]. destruct t as [|c s']; [simpl; lia|].
      simpl in L.
      destruct (isDash d && V2.isOutside c).
      + pose proof (IH s' ltac:(lia) true). destruct b; simpl; lia.
      + pose proof (IH (String c s') ltac:(simpl; lia) false).
        cbn [String.length] in *. lia. }
  intro b. now apply (G (String.length s)).
Qed.

Lemma no_dash_ends (s : string) :
  Forall (fun c => c <> "-"%char) (list_ascii_of_string s) ->
  headDash s = false /\ lastDash s = false.
Proof.
  induction s as [|c s IH]; intro H; [split; reflexivity|].
  inversion H as [|? ? Hc Hs]; subst.
  assert (D : isDash c = false).
  { destruct (isDash c) eqn:D; [|reflexivity]. apply isDash_eq in D. contradiction. }
  split; [exact D|]. destruct s as [|d s]; [exact D|]. now apply IH.
Qed.

(** X5: the second version's file name leaves a title without a dash exactly
    as it is, whatever else it holds, a slash or a colon included: only a dash
    together with the unit after it is ever replaced.  The name never starts
    or ends with a dash and is never longer than the title. *)
Theorem filename_v2_keeps_a_title_without_dash :
  forall title : string,
    (Forall (fun c => c <> "-"%char) (list_ascii_of_string title) ->
     V2.filename title = title)
    /\ (forall rest, V2.filename title <> "-" ++ rest)
    /\ (forall pre, V2.filename title <> pre ++ "-")
    /\ (String.length (V2.filename title) <= String.length title)%nat.
Proof.
  intro title. unfold V2.filename.
  destruct (trimDashes_ends (V2.coerce false title)) as [H L].
  split; [|split; [|split]].
  - intro N. rewrite (coerce_plain false title N).
    destruct (no_dash_ends title N) as [Hh Hl].
    unfold trimDashes. rewrite (dropDashes_fixed title Hh). now apply stripDashes_fixed.
  - intros rest E. rewrite E in H. discriminate H.
  - intros pre E. rewrite E, lastDash_append in L. discriminate L.
  - unfold trimDashes.
    pose proof (stripDashes_length (dropDashes (V2.coerce false title))).
    pose proof (dropDashes_length (V2.coerce false title)).
    pose proof (coerce_length title false). lia.
Qed.

Example filename_v2_samples :
  V2.filename "a/b" = "a/b"
  /\ V2.filename "a-/b" = "a-b"
  /\ V2.filename "-:draft-" = "draft"
  /\ V2.permalink "  Hello, World! -- x " = "Hello-World-x"
  /\ V1.permalink "Hello, World!" = "Hello--World-".
Proof. repeat split. Qed.

(** ** The time stamp *)

Lemma forallb_range (P : Z -> bool) (lo n : Z) :
  forallb P (map (fun k => lo + Z.of_nat k) (seq 0 (Z.to_nat n))) = true ->
  forall z, lo <= z < lo + n -> P z = true.
Proof.
  intros H z Hz. rewrite forallb_forall in H. apply H.
  apply in_map_iff. exists (Z.to_nat (z - lo)). split; [lia|].
  apply in_seq. lia.
Qed.

Lemma p2_two_digits (n : Z) : 0 <= n <= 99 -> V1.p2 n = digits2 n.
Proof.
  intro H. apply String.eqb_eq.
  apply (forallb_range (fun z => (V1.p2 z =? digits2 z)%string) 0 100);
    [vm_compute; reflexivity|lia].
Qed.

Lemma four_digits (m : Z) :
  0 <= m <= 999 -> padStart 4 (numToString m) = digits4 m.
Proof.
  intro H. apply String.eqb_eq.
  apply (forallb_range (fun z => String.eqb (padStart 4 (numToString z)) (digits4 z)) 0 1000);
    [vm_compute; reflexivity|lia].
Qed.

Lemma p4_four_digits (n : Z) :
  -999 <= n <= 999 ->
  V1.p4 n = (if n <? 0 then "-" else "+") ++ digits4 (Z.abs n).
Proof.
  intro H. unfold V1.p4. rewrite (four_digits (Z.abs n)) by lia. reflexivity.
Qed.

(** X6: [now] returns the year followed by 21 units: [/mm/dd hh:mm:ss] in two
    digits each, the month counted from one, and after a blank the sign and
    four digits, which are the absolute value of [getTimezoneOffset()], a
    count of minutes (at most 840 on any clock), and not hours and minutes. *)
Theorem now_has_a_fixed_layout :
  forall date : V1.LocalDate,
    0 <= V1.getMonth date <= 11 ->
    0 <= V1.getDate date <= 99 ->
    0 <= V1.getHours date <= 99 ->
    0 <= V1.getMinutes date <= 99 ->
    0 <= V1.getSeconds date <= 99 ->
    -999 <= V1.getTimezoneOffset date <= 999 ->
    V1.now date
    = numToString (V1.getFullYear date) ++ "/" ++ digits2 (V1.getMonth date + 1) ++ "/"
      ++ digits2 (V1.getDate date) ++ " " ++ digits2 (V1.getHours date) ++ ":"
      ++ digits2 (V1.getMinutes date) ++ ":" ++ digits2 (V1.getSeconds date) ++ " "
      ++ (if V1.getTimezoneOffset date <? 0 then "-" else "+")
      ++ digits4 (Z.abs (V1.getTimezoneOffset date))
    /\ String.length (V1.now date)
       = (String.length (numToString (V1.getFullYear date)) + 21)%nat.
Proof.
  intros date Hmo Hd Hh Hmi Hs Htz.
  assert (E : V1.now date
              = numToString (V1.getFullYear date) ++ "/"
                ++ digits2 (V1.getMonth date + 1) ++ "/"
                ++ digits2 (V1.getDate date) ++ " " ++ digits2 (V1.getHours date) ++ ":"
                ++ digits2 (V1.getMinutes date) ++ ":" ++ digits2 (V1.getSeconds date) ++ " "
                ++ (if V1.getTimezoneOffset date <? 0 then "-" else "+")
                ++ digits4 (Z.abs (V1.getTimezoneOffset date))).
  { unfold V1.now.
    rewrite (p2_two_digits (V1.getMonth date + 1)) by lia.
    rewrite (p2_two_digits _ Hd), (p2_two_digits _ Hh), (p2_two_digits _ Hmi),
      (p2_two_digits _ Hs), (p4_four_digits _ Htz).
    reflexivity. }
  split; [exact E|]. rewrite E, length_append.
  destruct (V1.getTimezoneOffset date <? 0); reflexivity.
Qed.

Example now_sample :
  V1.now (V1.mkLocalDate 2023 6 24 12 2 7 420) = "2023/07/24 12:02:07 +0420".
Proof. reflexivity. Qed.

(** ** The template *)

Lemma oneLine_append (a b : string) : oneLine a -> oneLine b -> oneLine (a ++ b).
Proof. unfold oneLine. rewrite chars_append. intros. now apply Forall_app. Qed.

Lemma lines_first (a rest : string) :
  oneLine a -> lines (a ++ nl ++ rest) = a :: lines rest.
Proof.
  unfold lines, oneLine. induction a as [|c a IH]; intro H; [reflexivity|].
  inversion H as [|? ? Hc Ha]; subst. specialize (IH Ha).
  cbn [append split]. apply Ascii.eqb_neq in Hc. rewrite Hc.
  cbn [append] in IH. now rewrite IH.
Qed.

Lemma lines_field (label field rest : string) :
  oneLine label -> oneLine field ->
  lines (label ++ field ++ nl ++ rest) = (label ++ field) :: lines rest.
Proof.
  intros L F. rewrite <- append_assoc. apply lines_first. now apply oneLine_append.
Qed.

(** X7: when title, permalink, date and tags hold no line break, the first
    version's template is eight lines: the front matter between its two rules
    in lines 1 to 6, each field on its own line, and two empty lines, so that
    line 8, where [main] opens the editor with [+8], is there and empty.  The
    second version's template is the same text without its last line. *)
Theorem template_puts_line_8_after_the_front_matter :
  forall (title permalink date : string) (tags : list string),
    oneLine title -> oneLine permalink -> oneLine date -> Forall oneLine tags ->
    lines (V1.template title permalink date tags)
    = [ "---"; "title: " ++ title; "permalink: " ++ permalink; "date: " ++ date;
        "tags: [" ++ join "," tags ++ "]"; "---"; EmptyString; EmptyString; EmptyString ]
    /\ nth 7 (lines (V1.template title permalink date tags)) "missing" = EmptyString
    /\ V1.template title permalink date tags
       = V2.template title permalink date tags ++ nl.
Proof.
  intros title permalink date tags Ht Hp Hd Hg.
  assert (J : oneLine (join "," tags ++ "]")).
  { apply oneLine_append; [|repeat constructor; discriminate].
    unfold join. induction Hg as [|t ts Ht' _ IH]; [constructor|].
    destruct ts as [|u ts]; [exact Ht'|].
    change (String.concat "," (t :: u :: ts)) with (t ++ "," ++ String.concat "," (u :: ts)).
    apply oneLine_append; [exact Ht'|].
    apply oneLine_append; [repeat constructor; discriminate|exact IH]. }
  assert (E : lines (V1.template title permalink date tags)
              = [ "---"; "title: " ++ title; "permalink: " ++ permalink; "date: " ++ date;
                  "tags: [" ++ join "," tags ++ "]"; "---"; EmptyString; EmptyString;
                  EmptyString ]).
  { unfold V1.template.
    rewrite (lines_first "---") by (repeat constructor; discriminate).
    rewrite (lines_field "title: " title) by (assumption || (repeat constructor; discriminate)).
    rewrite (lines_field "permalink: " permalink)
      by (assumption || (repeat constructor; discriminate)).
    rewrite (lines_field "date: " date) by (assumption || (repeat constructor; discriminate)).
    rewrite <- (append_assoc (join "," tags) "]").
    rewrite (lines_field "tags: [" (join "," tags ++ "]"))
      by (assumption || (repeat constructor; discriminate)).
    rewrite (lines_first "---") by (repeat constructor; discriminate).
    reflexivity. }
  split; [exact E|]. split; [now rewrite E|].
  unfold V1.template, V2.template. rewrite !append_assoc. reflexivity.
Qed.

(** ** Tags *)

Lemma includes_TAGS (arg : string) : includes TAGS arg = true <-> arg = "vim".
Proof.
  unfold includes, TAGS. simpl. rewrite orb_false_r. apply String.eqb_eq.
Qed.

Lemma lowerUnit_space (c : ascii) : lowerUnit c = " "%char <-> c = " "%char.
Proof.
  destruct c as [[] [] [] [] [] [] [] []]; vm_compute; split; congruence.
Qed.

Lemma toLowerCase_append (a b : string) :
  toLowerCase (a ++ b) = toLowerCase a ++ toLowerCase b.
Proof.
  unfold toLowerCase. induction a as [|c a IH]; simpl; [reflexivity|now rewrite IH].
Qed.

Lemma toLowerCase_join (words : list string) :
  toLowerCase (join " " words) = join " " (map toLowerCase words).
Proof.
  unfold join. induction words as [|w ws IH]; [reflexivity|].
  destruct ws as [|v ws]; [reflexivity|].
  change (String.concat " " (w :: v :: ws)) with (w ++ " " ++ String.concat " " (v :: ws)).
  rewrite !toLowerCase_append, IH. reflexivity.
Qed.

Lemma split_word (w rest : string) :
  Forall (fun c => c <> " "%char) (list_ascii_of_string w) ->
  split " " (w ++ " " ++ rest) = w :: split " " rest.
Proof.
  induction w as [|c w IH]; intro H; [reflexivity|].
  inversion H as [|? ? Hc Hw]; subst. specialize (IH Hw).
  cbn [append split]. apply Ascii.eqb_neq in Hc. rewrite Hc.
  cbn [append] in IH. now rewrite IH.
Qed.

Lemma split_last_word (w : string) :
  Forall (fun c => c <> " "%char) (list_ascii_of_string w) -> split " " w = [w].
Proof.
  induction w as [|c w IH]; intro H; [reflexivity|].
  inversion H as [|? ? Hc Hw]; subst. specialize (IH Hw).
  cbn [split]. apply Ascii.eqb_neq in Hc. now rewrite Hc, IH.
Qed.

(** Splitting at blanks undoes joining with blanks, when no word holds one
    and there is a word at all. *)
Lemma split_join (words : list string) :
  words <> [] ->
  Forall (fun w => Forall (fun c => c <> " "%char) (list_ascii_of_string w)) words ->
  split " " (join " " words) = words.
Proof.
  unfold join. induction words as [|w ws IH]; intros N H; [congruence|].
  inversion H as [|? ? Hw Hws]; subst.
  destruct ws as [|v ws]; [now apply split_last_word|].
  change (String.concat " " (w :: v :: ws)) with (w ++ " " ++ String.concat " " (v :: ws)).
  rewrite (split_word w _ Hw), IH; [reflexivity|discriminate|exact Hws].
Qed.

Lemma filter_TAGS (l : list string) :
  filter (includes TAGS) l = map (fun _ => "vim") (filter (fun w => (w =? "vim")%string) l).
Proof.
  induction l as [|w l IH]; [reflexivity|]. cbn [filter].
  replace (includes TAGS w) with (w =? "vim")%string
    by (unfold includes, TAGS; simpl; now rewrite orb_false_r).
  destruct (w =? "vim")%string eqn:E; [|exact IH].
  apply String.eqb_eq in E. subst w. cbn [map]. now rewrite IH.
Qed.

Lemma split_toLowerCase (s : string) :
  split " " (toLowerCase s) = map toLowerCase (split " " s).
Proof.
  unfold toLowerCase. induction s as [|c s IH]; [reflexivity|].
  cbn [mapUnits split]. rewrite IH.
  destruct (c =? " ")%char eqn:E.
  - apply Ascii.eqb_eq in E. subst c. reflexivity.
  - replace (lowerUnit c =? " ")%char with false.
    + destruct (split " " s) as [|w ws]; reflexivity.
    + symmetry. apply Ascii.eqb_neq. intro L.
      apply (proj1 (lowerUnit_space c)) in L. subst c. discriminate E.
Qed.

Lemma lowerUnit_letter (c : ascii) :
  ((lowerUnit c =? "v")%char = ((c =? "v") || (c =? "V"))%char)
  /\ ((lowerUnit c =? "i")%char = ((c =? "i") || (c =? "I"))%char)
  /\ ((lowerUnit c =? "m")%char = ((c =? "m") || (c =? "M"))%char).
Proof.
  assert (H : (Bool.eqb (lowerUnit c =? "v")%char ((c =? "v") || (c =? "V"))%char
               && Bool.eqb (lowerUnit c =? "i")%char ((c =? "i") || (c =? "I"))%char
               && Bool.eqb (lowerUnit c =? "m")%char ((c =? "m") || (c =? "M"))%char)
              = true).
  { revert c. apply (all_units (fun c =>
      Bool.eqb (lowerUnit c =? "v")%char ((c =? "v") || (c =? "V"))%char
      && Bool.eqb (lowerUnit c =? "i")%char ((c =? "i") || (c =? "I"))%char
      && Bool.eqb (lowerUnit c =? "m")%char ((c =? "m") || (c =? "M"))%char)).
    vm_compute. reflexivity. }
  apply andb_true_iff in H. destruct H as [H M]. apply andb_true_iff in H.
  destruct H as [V I]. repeat split; now apply Bool.eqb_prop.
Qed.

(** The words that are vim in some letter case. *)
Lemma toLowerCase_vim (word : string) :
  toLowerCase word = "vim"
  <-> In word ["vim"; "Vim"; "vIm"; "viM"; "VIm"; "ViM"; "vIM"; "VIM"].
Proof.
  split.
  - destruct word as [|a [|b [|c [|d word]]]]; try discriminate.
    unfold toLowerCase. cbn [mapUnits]. intro H. inversion H as [[A B C]].
    destruct (lowerUnit_letter a) as (La & _ & _).
    destruct (lowerUnit_letter b) as (_ & Lb & _).
    destruct (lowerUnit_letter c) as (_ & _ & Lc).
    rewrite A in La. rewrite B in Lb. rewrite C in Lc. cbn in La, Lb, Lc.
    symmetry in La, Lb, Lc.
    apply orb_true_iff in La, Lb, Lc.
    destruct La as [La|La], Lb as [Lb|Lb], Lc as [Lc|Lc];
      apply Ascii.eqb_eq in La, Lb, Lc; subst a b c; simpl; tauto.
  - intro I. repeat (destruct I as [<-|I]; [reflexivity|]). destruct I.
Qed.

(** X8: each version finds one tag vim for each word that is vim in some
    letter case, of the arguments in the first version and of the title split
    at blanks in the second, and finds no other tag; the words that count are
    the eight spellings of vim.  When no argument of the command holds a
    blank, the second version finds the same tags as the first. *)
Theorem tags_are_vim_and_versions_agree :
  forall argv : list string,
    V1.tags argv
    = map (fun _ => "vim")
          (filter (fun word => (toLowerCase word =? "vim")%string) (skipn 2 argv))
    /\ V2.tags (V1.title argv)
       = map (fun _ => "vim")
             (filter (fun word => (toLowerCase word =? "vim")%string)
                     (split " " (V1.title argv)))
    /\ (forall word,
          (toLowerCase word =? "vim")%string = true
          <-> In word ["vim"; "Vim"; "vIm"; "viM"; "VIm"; "ViM"; "vIM"; "VIM"])
    /\ Forall (fun tag => tag = "vim") (V1.tags argv)
    /\ Forall (fun tag => tag = "vim") (V2.tags (V1.title argv))
    /\ (Forall (fun arg => Forall (fun c => c <> " "%char) (list_ascii_of_string arg))
               (skipn 2 argv) ->
        V2.tags (V1.title argv) = V1.tags argv).
Proof.
  intro argv.
  assert (F : forall l, Forall (fun tag => tag = "vim") (filter (includes TAGS) l)).
  { intro l. apply Forall_forall. intros x Hx. apply filter_In in Hx.
    now apply includes_TAGS. }
  assert (M : forall l,
             filter (fun w => (w =? "vim")%string) (map toLowerCase l)
             = map toLowerCase (filter (fun w => (toLowerCase w =? "vim")%string) l)).
  { induction l as [|w l IH]; [reflexivity|]. cbn [map filter].
    destruct (toLowerCase w =? "vim")%string; cbn [map]; now rewrite IH. }
  split; [|split; [|split; [|split; [apply F|split; [apply F|]]]]].
  - unfold V1.tags. rewrite filter_TAGS, M, map_map. reflexivity.
  - unfold V2.tags. rewrite split_toLowerCase, filter_TAGS, M, map_map. reflexivity.
  - intro word. rewrite String.eqb_eq. apply toLowerCase_vim.
  - intro H. unfold V2.tags, V1.tags, V1.title.
    rewrite toLowerCase_join.
    destruct (skipn 2 argv) as [|a args] eqn:E; [reflexivity|].
    rewrite split_join; [reflexivity|discriminate|].
    apply Forall_forall. intros w Hw. apply in_map_iff in Hw.
    destruct Hw as (arg & <- & Harg).
    rewrite Forall_forall in H. specialize (H arg Harg).
    unfold toLowerCase. rewrite chars_mapUnits. apply Forall_forall.
    intros c Hc. apply in_map_iff in Hc. destruct Hc as (d & <- & Hd).
    rewrite Forall_forall in H. specialize (H d Hd).
    intro L. exact (H (proj1 (lowerUnit_space d) L)).
Qed.

Example tags_samples :
  V1.tags ["node"; "til"; "Vim"; "tips"] = ["vim"]
  /\ V2.tags "Vim tips" = ["vim"]
  /\ V1.tags ["node"; "til"; "vim tips"] = []
  /\ V2.tags (V1.title ["node"; "til"; "vim tips"]) = ["vim"].
Proof. repeat split. Qed.

(** ** The two permalinks *)

Lemma collapse_permalink_v1 (inRun : bool) (title : string) :
  V2.collapse inRun (V1.permalink title) = V2.collapse inRun title.
Proof.
  revert inRun. induction title as [|c title IH]; intro inRun; [reflexivity|].
  unfold V1.permalink in *. cbn [mapUnits V2.collapse].
  destruct (isAlnum c) eqn:A.
  - rewrite A, !IH. reflexivity.
  - change (isDash "-") with true. cbn [orb negb].
    rewrite orb_true_r. destruct inRun; now rewrite IH.
Qed.

Lemma collapse_plain (inRun : bool) (title : string) :
  Forall (fun c => isAlnum c = true) (list_ascii_of_string title) ->
  V2.collapse inRun title = title.
Proof.
  revert inRun. induction title as [|c title IH]; intros inRun A; [reflexivity|].
  inversion A as [|? ? Hc Ht]; subst. cbn [V2.collapse].
  rewrite Hc, (alnum_is_no_dash c Hc). cbn [orb negb]. now rewrite IH.
Qed.

(** X21: the second version's permalink is what the second version makes of
    the first version's permalink: the first turns every unit that is no
    digit or letter into a dash, the second also merges the dashes that
    follow one another and drops those at the ends; on a title of digits and
    letters both give the title. *)
Theorem permalink_v2_tidies_permalink_v1 :
  forall title : string,
    V2.permalink (V1.permalink title) = V2.permalink title
    /\ V2.permalink title = trimDashes (V2.collapse false (V1.permalink title))
    /\ (Forall (fun c => isAlnum c = true) (list_ascii_of_string title) ->
        V2.permalink title = title /\ V1.permalink title = title).
Proof.
  intro title. unfold V2.permalink. rewrite collapse_permalink_v1.
  split; [reflexivity|]. split; [reflexivity|].
  intro A. split.
  - rewrite (collapse_plain false title A).
    assert (D : Forall (fun c => c <> "-"%char) (list_ascii_of_string title)).
    { eapply Forall_impl; [|exact A]. intros c Hc ->. discriminate Hc. }
    destruct (no_dash_ends title D) as [H L].
    unfold trimDashes. rewrite (dropDashes_fixed title H). now apply stripDashes_fixed.
  - apply mapUnits_fixed. eapply Forall_impl; [|exact A].
    intros c Hc. cbv beta. now rewrite Hc.
Qed.

Example permalink_samples :
  V1.permalink "Radiate: intent!" = "Radiate--intent-"
  /\ V2.permalink "Radiate: intent!" = "Radiate-intent".
Proof. split; reflexivity. Qed.

(** * Properties of the calls of [main] *)

(** ** Calls add up *)

Section calls_facts.
Variable T : list call -> Prop.
Hypothesis T_nil : T [].
Hypothesis T_app : forall a b, T a -> T b -> T (a ++ b)%list.

Lemma calls_ret {A : Type} (a : A) : calls T (ret a).
Proof. intros w made. exists []. split; [symmetry; apply app_nil_r|exact T_nil]. Qed.

Lemma calls_throw {A : Type} (error : failure) : calls T (@throw A error).
Proof. intros w made. exists []. split; [symmetry; apply app_nil_r|exact T_nil]. Qed.

Lemma calls_perform (c : call) : T [c] -> calls T (perform c).
Proof. intros H w made. exists [c]. split; [reflexivity|exact H]. Qed.

Lemma calls_exit {A : Type} (code : Z) : T [Exit code] -> calls T (@exit A code).
Proof. intros H w made. exists [Exit code]. split; [reflexivity|exact H]. Qed.

Lemma calls_andThen {A B : Type} (m : action A) (k : A -> action B) :
  calls T m -> (forall a, calls T (k a)) -> calls T (andThen m k).
Proof.
  intros Hm Hk w made. unfold andThen.
  destruct (Hm w made) as (n1 & E1 & T1).
  destruct (m w made) as [made' [a|error|code]]; simpl in E1; subst made'.
  - destruct (Hk a w (made ++ n1)%list) as (n2 & E2 & T2).
    exists (n1 ++ n2)%list. rewrite E2, app_assoc. split; [reflexivity|now apply T_app].
  - exists n1. split; [reflexivity|exact T1].
  - exists n1. split; [reflexivity|exact T1].
Qed.

Lemma calls_catch {A : Type} (m : action A) (handler : failure -> action A) :
  calls T m -> (forall error, calls T (handler error)) -> calls T (catch m handler).
Proof.
  intros Hm Hh w made. unfold catch.
  destruct (Hm w made) as (n1 & E1 & T1).
  destruct (m w made) as [made' [a|error|code]]; simpl in E1; subst made'.
  - exists n1. split; [reflexivity|exact T1].
  - destruct (Hh error w (made ++ n1)%list) as (n2 & E2 & T2).
    exists (n1 ++ n2)%list. rewrite E2, app_assoc. split; [reflexivity|now apply T_app].
  - exists n1. split; [reflexivity|exact T1].
Qed.

Lemma calls_finally {A : Type} (m : action A) (cleanup : action unit) :
  calls T m -> calls T cleanup -> calls T (finally m cleanup).
Proof.
  intros Hm Hc w made. unfold finally.
  destruct (Hm w made) as (n1 & E1 & T1).
  destruct (Hc w (made ++ n1)%list) as (n2 & E2 & T2).
  destruct (m w made) as [made' [a|error|code]]; simpl in E1; subst made';
    try (exists n1; split; [reflexivity|exact T1]);
    destruct (cleanup w (made ++ n1)%list) as [made'' [[]|error'|code']];
    simpl in E2; subst made''; exists (n1 ++ n2)%list; rewrite app_assoc;
    (split; [reflexivity|now apply T_app]).
Qed.

Lemma calls_request (c : call) : T [c] -> calls T (request c).
Proof.
  intro H. unfold request. apply calls_andThen; [now apply calls_perform|].
  intros [out err|code]; [apply calls_ret|apply calls_throw].
Qed.

Lemma calls_say (c : call) : T [c] -> calls T (say c).
Proof.
  intro H. unfold say. apply calls_andThen; [now apply calls_perform|].
  intro a. apply calls_ret.
Qed.

Lemma calls_exists (p : string) : T [Stat p] -> calls T (exists_ p).
Proof.
  intro H. unfold exists_. apply calls_andThen; [now apply calls_perform|].
  intros [out err|code]; [apply calls_ret|].
  destruct (code =? "ENOENT")%string; [apply calls_ret|apply calls_throw].
Qed.

Lemma calls_edit (command : string) :
  T [SpawnInherit ("$EDITOR " ++ command)] -> calls T (edit command).
Proof.
  intro H. unfold edit. apply calls_andThen; [now apply calls_request|].
  intro r. apply calls_ret.
Qed.

Lemma calls_interactive (command cwd : string) :
  T [SpawnPiped command cwd] -> calls T (interactive command cwd).
Proof.
  intro H. unfold interactive. apply calls_andThen; [now apply calls_request|].
  intro r. apply calls_ret.
Qed.

End calls_facts.

Lemma calls_same {A : Type} (T : list call -> Prop) (m m' : action A) :
  (forall w made, m w made = m' w made) -> calls T m -> calls T m'.
Proof. intros E H w made. rewrite <- E. apply H. Qed.

Lemma andThen_assoc {A B C : Type} (m : action A) (f : A -> action B) (g : B -> action C)
      (w : world) (made : list call) :
  andThen (andThen m f) g w made = andThen m (fun a => andThen (f a) g) w made.
Proof.
  unfold andThen. destruct (m w made) as [made' [a|error|code]]; reflexivity.
Qed.

Lemma andThen_settled {A B : Type} (m : action A) (k : A -> action B)
      (w : world) (made : list call) (b : B) :
  snd (andThen m k w made) = Settled b ->
  exists made' a,
    m w made = (made', Settled a)
    /\ andThen m k w made = k a w made'.
Proof.
  unfold andThen. destruct (m w made) as [made' [a|error|code]]; simpl; intro H;
    try discriminate H.
  now exists made', a.
Qed.

Lemma exists_settled (p : string) (w : world) (made made' : list call) (found : bool) :
  exists_ p w made = (made', Settled found) ->
  made' = (made ++ [Stat p])%list
  /\ (found = true -> exists out err, w made (Stat p) = Gave out err).
Proof.
  cbv beta iota zeta delta [exists_ andThen perform ret throw].
  destruct (w made (Stat p)) as [out err|code].
  - intro H. inversion H. split; [reflexivity|]. intros _. now exists out, err.
  - destruct (code =? "ENOENT")%string; intro H; inversion H.
    split; [reflexivity|discriminate].
Qed.

Lemma finally_settled {A : Type} (m : action A) (w : world) (made : list call) :
  finally m (ret tt) w made = m w made.
Proof.
  unfold finally, ret. destruct (m w made) as [made' [a|error|code]]; reflexivity.
Qed.

(** ** What the second version writes *)

Lemma removes_nil (data : string) : removesWhatItWrites data [].
Proof. intros path text []. Qed.

Lemma removes_app (data : string) (a b : list call) :
  removesWhatItWrites data a -> removesWhatItWrites data b ->
  removesWhatItWrites data (a ++ b).
Proof.
  intros Ha Hb path text I. apply in_app_or in I. destruct I as [I|I].
  - destruct (Ha path text I) as (E & before & between & after & N & M & F).
    split; [exact E|]. exists before, between, (after ++ b)%list.
    split; [|split; assumption].
    rewrite N. repeat (rewrite <- app_assoc; cbn [app]). reflexivity.
  - destruct (Hb path text I) as (E & before & between & after & N & M & F).
    split; [exact E|]. exists (a ++ before)%list, between, after.
    split; [|split; [apply in_or_app; now right|exact F]].
    rewrite N, <- app_assoc. reflexivity.
Qed.

Lemma removes_other (data : string) (l : list call) :
  Forall (fun c => isWrite c = false) l -> removesWhatItWrites data l.
Proof.
  intros F path text I. rewrite Forall_forall in F. specialize (F _ I). discriminate F.
Qed.

Lemma logged_console (shown : string -> string) (stderr : string) :
  Forall (fun c => isWrite c = false) (logged shown stderr).
Proof. unfold logged. destruct (nonEmpty stderr); repeat constructor. Qed.

Section second_version_facts.
Variables TIL_PATH ENTRIES_PATH : string.
Variable resolve : string -> string -> string.
Variables trim trimEnd : string -> string.
Variable today : string.

Lemma exec2_runs (command : string) (timeout : option Z) (w : world) (made : list call) :
  V2.exec trimEnd command timeout w made
  = match w made (Exec command timeout) with
    | Gave out err =>
        ((made ++ Exec command timeout :: logged trimEnd err)%list, Settled (trimEnd out))
    | Raised code => ((made ++ [Exec command timeout])%list, Rejected (Failed code))
    end.
Proof.
  cbv beta iota zeta delta [V2.exec andThen request perform say ret throw logged].
  destruct (w made (Exec command timeout)) as [out err|code]; [|reflexivity].
  cbn [fst snd]. destruct (nonEmpty err); [|reflexivity].
  now rewrite <- app_assoc.
Qed.

Lemma run2_runs (command : string) (timeout : option Z) (w : world) (made : list call) :
  V2.run trimEnd command timeout w made
  = match w made (Exec command timeout) with
    | Gave out err =>
        ((made ++ Exec command timeout :: logged trimEnd err ++ printed (trimEnd out))%list,
         Settled tt)
    | Raised code => ((made ++ [Exec command timeout])%list, Rejected (Failed code))
    end.
Proof.
  unfold V2.run, andThen. rewrite exec2_runs.
  destruct (w made (Exec command timeout)) as [out err|code]; [|reflexivity].
  unfold printed, say, andThen, perform, ret. destruct (nonEmpty (trimEnd out)).
  - rewrite <- app_assoc. reflexivity.
  - now rewrite app_nil_r.
Qed.

Section calls_of_the_parts.
Variable T : list call -> Prop.
Hypothesis T_nil : T [].
Hypothesis T_app : forall a b, T a -> T b -> T (a ++ b)%list.
Hypothesis T_other : forall c, isWrite c = false -> isUnlink c = false -> T [c].

Lemma calls_exec2 (command : string) (timeout : option Z) :
  calls T (V2.exec trimEnd command timeout).
Proof.
  unfold V2.exec. apply calls_andThen; try assumption.
  - apply calls_request; try assumption. now apply T_other.
  - intro r. apply calls_andThen; try assumption.
    + destruct (nonEmpty (snd r)); [|now apply calls_ret].
      apply calls_say; try assumption. now apply T_other.
    + intro u. now apply calls_ret.
Qed.

Lemma calls_run2 (command : string) (timeout : option Z) :
  calls T (V2.run trimEnd command timeout).
Proof.
  unfold V2.run. apply calls_andThen; try assumption; [apply calls_exec2|].
  intro result. destruct (nonEmpty result); [|now apply calls_ret].
  apply calls_say; try assumption. now apply T_other.
Qed.

Lemma calls_spin {A : Type} (doing : action A) : calls T doing -> calls T (V2.spin doing).
Proof. intro H. unfold V2.spin. apply calls_finally; try assumption. now apply calls_ret. Qed.

End calls_of_the_parts.

(** The template written, the editor, the template removed: whatever
    fails, the last call removes the file. *)
Lemma template_calls (tmp text command : string) (w : world) (made : list call) :
  exists between,
    fst (finally (andThen (request (WriteFile tmp text)) (fun _ => edit command))
                 (andThen (request (Unlink tmp)) (fun _ => ret tt)) w made)
    = (made ++ WriteFile tmp text :: between ++ [Unlink tmp])%list
    /\ Forall (fun c => isEditor c = true) between.
Proof.
  cbv beta iota zeta delta [finally andThen request perform ret throw edit fst snd].
  destruct (w made (WriteFile tmp text)) as [o1 e1|c1].
  - destruct (w (made ++ [WriteFile tmp text])%list (SpawnInherit ("$EDITOR " ++ command)))
      as [o2 e2|c2];
    match goal with |- context [w ?hh (Unlink tmp)] =>
      destruct (w hh (Unlink tmp)) as [o3 e3|c3] end;
    exists [SpawnInherit ("$EDITOR " ++ command)]; rewrite <- !app_assoc;
    (split; [reflexivity|repeat constructor]).
  - match goal with |- context [w ?hh (Unlink tmp)] =>
      destruct (w hh (Unlink tmp)) as [o3 e3|c3] end;
    exists []; rewrite <- !app_assoc;
    (split; [reflexivity|constructor]).
Qed.

(** The editing session of a file that is not there yet: [mktemp], the
    template written, the editor, the template removed. *)
Lemma session_removes (title filepath : string) :
  calls (removesWhatItWrites (V2.entry today title))
    (andThen (V2.exec trimEnd "mktemp" None)
       (fun made =>
          finally
            (andThen (request (WriteFile (trim made) (V2.entry today title)))
               (fun _ => edit (quoted ("+read " ++ trim made) ++ " +8 +star "
                                ++ quoted (quot filepath))))
            (andThen (request (Unlink (trim made))) (fun _ => ret tt)))).
Proof.
  intros w made. unfold andThen at 1. rewrite exec2_runs.
  destruct (w made (Exec "mktemp" None)) as [out err|code].
  2:{ exists [Exec "mktemp" None]. split; [reflexivity|].
      apply removes_other. repeat constructor. }
  set (tmp := trim (trimEnd out)).
  destruct (template_calls tmp (V2.entry today title)
              (quoted ("+read " ++ tmp) ++ " +8 +star " ++ quoted (quot filepath))
              w (made ++ Exec "mktemp" None :: logged trimEnd err)%list)
    as (between & E & F).
  exists (Exec "mktemp" None :: logged trimEnd err
          ++ WriteFile tmp (V2.entry today title) :: between ++ [Unlink tmp])%list.
  split.
  { rewrite E, <- app_assoc. reflexivity. }
  intros path text I.
  assert (W : WriteFile path text = WriteFile tmp (V2.entry today title)).
  { destruct I as [I|I]; [discriminate I|]. apply in_app_or in I. destruct I as [I|I].
    - pose proof (logged_console trimEnd err) as L. rewrite Forall_forall in L.
      specialize (L _ I). discriminate L.
    - destruct I as [I|I]; [now symmetry|]. apply in_app_or in I. destruct I as [I|I].
      + rewrite Forall_forall in F. specialize (F _ I). discriminate F.
      + destruct I as [I|[]]. discriminate I. }
  inversion W; subst path text. split; [reflexivity|].
  exists (Exec "mktemp" None :: logged trimEnd err), between, [].
  split; [|split; [now left|exact F]].
  reflexivity.
Qed.


(** X20: the second version of [main] settles only when the last look at the
    entry file found it: the look before the editor when the file was there,
    the look after the template was removed when it was not.  After that look
    it runs the editor, if the file was there, and then the command that
    publishes, and writes to the console. *)
Theorem main_v2_settles_only_when_the_entry_is_there :
  forall (argv : list string) (w : world),
    snd (V2.main TIL_PATH ENTRIES_PATH resolve trim trimEnd today argv w []) = Settled tt ->
    exists before filename isExisting console,
      let path := resolve ENTRIES_PATH (filename ++ ".md") in
      fst (V2.main TIL_PATH ENTRIES_PATH resolve trim trimEnd today argv w [])
      = (before ++ Stat path
         :: (if isExisting : bool
             then [SpawnInherit ("$EDITOR +8 " ++ quoted (quot path))] else [])
         ++ Exec (V2.publishCommand TIL_PATH isExisting filename path) (Some 5000)
         :: console)%list
      /\ (exists out err, w before (Stat path) = Gave out err)
      /\ (isExisting = false -> exists earlier tmp, before = (earlier ++ [Unlink tmp])%list)
      /\ Forall (fun c => isConsole c = true) console.
Proof.
  intros argv w H. unfold V2.main in *. cbv zeta in *.
  destruct (andThen_settled _ _ _ _ _ H) as (m1 & u1 & E1 & R1). rewrite R1 in *. clear R1.
  destruct (andThen_settled _ _ _ _ _ H) as (m2 & filename & E2 & R2).
  rewrite R2 in *. clear R2.
  destruct (andThen_settled _ _ _ _ _ H) as (m3 & isExisting & E3 & R3).
  rewrite R3 in *. clear R3.
  destruct (andThen_settled _ _ _ _ _ H) as (m4 & u4 & E4 & R4).
  rewrite R4 in *. clear R4.
  set (path := resolve ENTRIES_PATH (filename ++ ".md")) in *.
  apply exists_settled in E3. destruct E3 as [-> G3].
  unfold V2.spin in H |- *. rewrite finally_settled, run2_runs in H |- *.
  destruct (w m4 (Exec (V2.publishCommand TIL_PATH isExisting filename path) (Some 5000)))
    as [out err|code]; [|discriminate H]. cbn [fst].
  assert (C : Forall (fun c => isConsole c = true)
                     (logged trimEnd err ++ printed (trimEnd out))).
  { apply Forall_app. unfold logged, printed.
    split; [destruct (nonEmpty err)|destruct (nonEmpty (trimEnd out))];
      repeat constructor. }
  destruct isExisting.
  - exists m2, filename, true, (logged trimEnd err ++ printed (trimEnd out))%list.
    cbv zeta. fold path. split; [|split; [now apply G3|split; [discriminate|exact C]]].
    revert E4. cbv beta iota zeta delta [edit andThen request perform ret throw].
    destruct (w (m2 ++ [Stat path])%list (SpawnInherit ("$EDITOR " ++ "+8 " ++ quoted (quot path))))
      as [o e|c]; intro E4; inversion E4.
    rewrite <- !app_assoc. reflexivity.
  - assert (S4 := f_equal snd E4). cbn [snd] in S4.
    destruct (andThen_settled _ _ _ _ _ S4) as (m5 & made & E5 & R5).
    rewrite R5 in *. clear R5.
    destruct (andThen_settled _ _ _ _ _ S4) as (m6 & u6 & E6 & R6).
    rewrite R6 in *. clear R6.
    destruct (andThen_settled _ _ _ _ _ S4) as (m7 & still & E7 & R7).
    rewrite R7 in *. clear R7.
    apply exists_settled in E7. destruct E7 as [-> G7].
    destruct still; [|discriminate S4].
    assert (M4 : m4 = (m6 ++ [Stat path])%list) by (now inversion E4). subst m4.
    exists m6, filename, false, (logged trimEnd err ++ printed (trimEnd out))%list.
    cbv zeta. fold path. split; [|split; [now apply G7|split; [|exact C]]].
    + rewrite <- !app_assoc. reflexivity.
    + intros _.
      destruct (template_calls (trim made) (V2.entry today (V1.title argv))
                  (quoted ("+read " ++ trim made) ++ " +8 +star " ++ quoted (quot path))
                  w m5) as (between & E & _).
      rewrite E6 in E. cbn [fst] in E.
      exists (m5 ++ WriteFile (trim made) (V2.entry today (V1.title argv)) :: between)%list,
        (trim made).
      rewrite E, <- app_assoc. reflexivity.
Qed.


End second_version_facts.

(** ** What the first version writes *)

Lemma quiet_writes_nothing (data : string) (w : world) (made : list call) :
  Forall (fun c => quiet c = true) made -> writesWhatIsMissing data w made.
Proof.
  intro Q. rewrite Forall_forall in Q. split.
  - apply Forall_forall. intros c I. specialize (Q c I).
    destruct c; try reflexivity; discriminate Q.
  - intros path text I. specialize (Q _ I). discriminate Q.
Qed.

(** What runs before anything is written or edited hands on to what comes
    after it. *)
Lemma quiet_andThen {A B : Type} (data : string) (m : action A) (k : A -> action B) :
  calls (Forall (fun c => quiet c = true)) m ->
  (forall a w made, Forall (fun c => quiet c = true) made ->
                    writesWhatIsMissing data w (fst (k a w made))) ->
  forall w made,
    Forall (fun c => quiet c = true) made ->
    writesWhatIsMissing data w (fst (andThen m k w made)).
Proof.
  intros Hm Hk w made Q. unfold andThen.
  destruct (Hm w made) as (new & E & N).
  assert (Q' : Forall (fun c => quiet c = true) (made ++ new)) by now apply Forall_app.
  destruct (m w made) as [made' [a|error|code]]; simpl in E; subst made'.
  - now apply Hk.
  - now apply quiet_writes_nothing.
  - now apply quiet_writes_nothing.
Qed.

Section first_version_facts.
Variables TIL_PATH ENTRIES : string.
Variable resolve : string -> string -> string.
Variable trim : string -> string.
Variable today : V1.LocalDate.

Lemma exec1_quiet (command : string) (timeout : option Z) :
  calls (Forall (fun c => quiet c = true)) (V1.exec command timeout).
Proof.
  assert (T0 : Forall (fun c => quiet c = true) []) by constructor.
  assert (TA : forall a b : list call,
             Forall (fun c => quiet c = true) a -> Forall (fun c => quiet c = true) b ->
             Forall (fun c => quiet c = true) (a ++ b)).
  { intros a b Ha Hb. now apply Forall_app. }
  unfold V1.exec. apply calls_andThen; try assumption.
  - apply calls_request; try assumption. now repeat constructor.
  - intro r. apply calls_andThen; try assumption.
    + destruct (nonEmpty (snd r)); [|now apply calls_ret].
      apply calls_say; try assumption. now repeat constructor.
    + intro u. now apply calls_ret.
Qed.

(** From the look at the file on. *)
Lemma look_writes_what_is_missing (argv : list string) (name : string)
      (w : world) (made : list call) :
  Forall (fun c => quiet c = true) made ->
  writesWhatIsMissing (V1.entry today argv) w
    (fst (andThen (exists_ (resolve ENTRIES name))
            (fun fileExists =>
               andThen (if fileExists : bool
                        then edit ("+8 " ++ quoted (quot (resolve ENTRIES name)))
                        else andThen (request (WriteFile (resolve ENTRIES name)
                                                 (V1.entry today argv)))
                               (fun _ => edit ("+8 +star "
                                               ++ quoted (quot (resolve ENTRIES name)))))
                 (fun _ =>
                    andThen (V1.exec (V1.commitCommand TIL_PATH fileExists
                                        (resolve ENTRIES name)) None)
                      (fun _ => ret tt))) w made)).
Proof.
  intro Q. set (path := resolve ENTRIES name). set (entry := V1.entry today argv).
  assert (U : Forall (fun c => isUnlink c = false) made).
  { eapply Forall_impl; [|exact Q]. intros c Hc. destruct c; try reflexivity; discriminate Hc. }
  assert (E : Forall (fun c => isEditor c = false) made).
  { eapply Forall_impl; [|exact Q]. intros c Hc. destruct c; try reflexivity; discriminate Hc. }
  assert (W : forall p t, ~ In (WriteFile p t) made).
  { intros p t I. rewrite Forall_forall in Q. specialize (Q _ I). discriminate Q. }
  assert (N : forall tail,
             Forall (fun c => isUnlink c = false) tail ->
             Forall (fun c => isWrite c = false) tail ->
             writesWhatIsMissing entry w (made ++ tail)).
  { intros tail Ut Wt. split; [now apply Forall_app|].
    intros p t I. apply in_app_or in I. destruct I as [I|I]; [now destruct (W p t)|].
    rewrite Forall_forall in Wt. specialize (Wt _ I). discriminate Wt. }
  assert (Y : forall after,
             w made (Stat path) = Raised "ENOENT" ->
             Forall (fun c => isUnlink c = false) after ->
             Forall (fun c => isWrite c = false) after ->
             (after = []
              \/ exists rest,
                   after = SpawnInherit ("$EDITOR +8 +star " ++ quoted (quot path)) :: rest) ->
             writesWhatIsMissing entry w
               (made ++ Stat path :: WriteFile path entry :: after)).
  { intros after S Ua Wa Next. split.
    - apply Forall_app. split; [exact U|]. now repeat constructor.
    - intros p t I. apply in_app_or in I. destruct I as [I|I]; [now destruct (W p t)|].
      destruct I as [I|[I|I]]; [discriminate I| |].
      + inversion I; subst p t. split; [reflexivity|].
        exists made, after. repeat split; assumption.
      + rewrite Forall_forall in Wa. specialize (Wa _ I). discriminate Wa. }
  cbv beta iota zeta
      delta [exists_ andThen request perform ret throw edit V1.exec say fst snd].
  fold path. fold entry.
  destruct (w made (Stat path)) as [o0 e0|c0] eqn:S; cbv beta iota.
  - repeat (match goal with
            | |- context [w ?h ?c] => destruct (w h c) as [?o ?e|?code]
            | |- context [if nonEmpty ?x then _ else _] => destruct (nonEmpty x)
            end; cbv beta iota);
    cbn [fst snd]; repeat (rewrite <- app_assoc; cbn [app]);
    apply N; repeat constructor.
  - destruct (c0 =? "ENOENT")%string eqn:C.
    2:{ cbn [fst]. apply N; repeat constructor. }
    apply String.eqb_eq in C. subst c0.
    repeat (match goal with
            | |- context [w ?h ?c] => destruct (w h c) as [?o ?e|?code]
            | |- context [if nonEmpty ?x then _ else _] => destruct (nonEmpty x)
            end; cbv beta iota);
    cbn [fst snd]; repeat (rewrite <- app_assoc; cbn [app]);
    (apply Y; [reflexivity|repeat constructor|repeat constructor|]);
    first [now left|right; eexists; reflexivity].
Qed.


End first_version_facts.

(** ** An unclean repository *)

(** X17: when [git status --porcelain] prints anything, both versions stop
    there.  The first says so on the console and leaves the process with
    code 1; the second rejects with the words dirty repo; neither pulls,
    looks at a file, writes one or opens the editor. *)
Theorem main_stops_at_an_unclean_repository :
  forall (TIL_PATH ENTRIES : string) (resolve : string -> string -> string)
         (trim trimEnd : string -> string) (today : V1.LocalDate) (stamp : string)
         (argv : list string) (w : world) (out err : string),
    (w [Log "making sure til is up to date..."] (Exec (V1.statusCommand TIL_PATH) None)
     = Gave out err ->
     nonEmpty out = true ->
     V1.main TIL_PATH ENTRIES resolve trim today argv w []
     = ((Log "making sure til is up to date..."
         :: Exec (V1.statusCommand TIL_PATH) None
         :: logged (fun stderr => stderr) err
         ++ [LogError "til repo is unclean"; Exit 1])%list,
        Exited 1))
    /\ (w [] (Exec (V2.statusCommand TIL_PATH) None) = Gave out err ->
        nonEmpty (trimEnd out) = true ->
        V2.main TIL_PATH ENTRIES resolve trim trimEnd stamp argv w []
        = ((Exec (V2.statusCommand TIL_PATH) None :: logged trimEnd err)%list,
           Rejected (Message "dirty repo"))).
Proof.
  intros TIL_PATH ENTRIES resolve trim trimEnd today stamp argv w out err. split.
  - intros W N.
    cbv beta iota zeta
        delta [V1.main V1.exec andThen request perform say ret throw exit app logged].
    rewrite W. cbn [fst snd]. destruct (nonEmpty err); rewrite N; reflexivity.
  - intros W N.
    cbv beta iota zeta
        delta [V2.main V2.spin V2.exec finally andThen request perform say ret throw app
               logged].
    rewrite W. cbn [fst snd]. destruct (nonEmpty err); rewrite N; reflexivity.
Qed.

(** ** Git fails *)

(** X22: with a clean repository, a pull that fails does not stop the first
    version, which puts the failure on the console and goes on to pick the
    file, while a fetch or rebase that fails stops the second version, which
    rejects with that failure and makes no further call. *)
Theorem a_failed_pull_is_logged_and_a_failed_rebase_stops :
  forall (TIL_PATH ENTRIES : string) (resolve : string -> string -> string)
         (trim trimEnd : string -> string) (today : V1.LocalDate) (stamp : string)
         (argv : list string) (w : world) (out err code : string),
    (w [Log "making sure til is up to date..."] (Exec (V1.statusCommand TIL_PATH) None)
     = Gave out err ->
     nonEmpty out = false ->
     w (Log "making sure til is up to date..."
        :: Exec (V1.statusCommand TIL_PATH) None :: logged (fun stderr => stderr) err)
       (Exec (V1.pullCommand TIL_PATH) (Some 2000))
     = Raised code ->
     exists rest ended,
       V1.main TIL_PATH ENTRIES resolve trim today argv w []
       = ((Log "making sure til is up to date..."
           :: Exec (V1.statusCommand TIL_PATH) None
           :: logged (fun stderr => stderr) err
           ++ Exec (V1.pullCommand TIL_PATH) (Some 2000)
           :: LogFailure (Failed code)
           :: (if (2 <? List.length argv)%nat
               then Stat (resolve ENTRIES (resolve ENTRIES (V1.filename argv)))
               else SpawnPiped V1.pickCommand ENTRIES)
           :: rest)%list,
          ended))
    /\ (w [] (Exec (V2.statusCommand TIL_PATH) None) = Gave out err ->
        nonEmpty (trimEnd out) = false ->
        w (Exec (V2.statusCommand TIL_PATH) None :: logged trimEnd err)
          (Exec (V2.rebaseCommand TIL_PATH) (Some 5000))
        = Raised code ->
        V2.main TIL_PATH ENTRIES resolve trim trimEnd stamp argv w []
        = ((Exec (V2.statusCommand TIL_PATH) None
            :: logged trimEnd err ++ [Exec (V2.rebaseCommand TIL_PATH) (Some 5000)])%list,
           Rejected (Failed code))).
Proof.
  intros TIL_PATH ENTRIES resolve trim trimEnd today stamp argv w out err code. split.
  - intros W N P. unfold logged in *.
    cbv beta iota zeta
        delta [V1.main V1.exec andThen catch request perform say ret throw exit app
               exists_ edit interactive].
    rewrite W. cbn [fst snd].
    destruct (nonEmpty err); rewrite N, P; cbn [fst snd];
      destruct (2 <? List.length argv)%nat;
      repeat match goal with
             | |- context [w ?made ?c] => destruct (w made c) as [?out ?err|?code]
             | |- context [if (?a =? ?b)%string then _ else _] => destruct (a =? b)%string
             | |- context [if nonEmpty ?x then _ else _] => destruct (nonEmpty x)
             end;
      cbn [fst snd]; do 2 eexists; reflexivity.
  - intros W N P. unfold logged in *.
    cbv beta iota zeta
        delta [V2.main V2.spin V2.exec V2.run finally andThen request perform say ret throw
               app].
    rewrite W. cbn [fst snd].
    destruct (nonEmpty err); rewrite N, P; reflexivity.
Qed.

(** * The theorems at concrete inputs *)

(** The linked data of a caller that brings a context of its own. *)
Lemma JSONLD_context_witness :
  (NoDup (map fst [("@type", VStr "Thing"); ("@context", VStr "https://example.org/")])
   /\ Forall (fun k => indexOf k = None)
             (map fst [("@type", VStr "Thing"); ("@context", VStr "https://example.org/")]))
  /\ map fst (ldData [("@type", VStr "Thing"); ("@context", VStr "https://example.org/")])
     = ["@context"; "@type"]
  /\ lookup "@context"
            (ldData [("@type", VStr "Thing"); ("@context", VStr "https://example.org/")])
     = Some (VStr "https://example.org/")
  /\ map fst (ldData [("2", VStr "two")]) = ["2"; "@context"].
Proof.
  assert (N : NoDup (map fst [("@type", VStr "Thing");
                              ("@context", VStr "https://example.org/")])).
  { repeat (constructor; [simpl; intuition discriminate|]). constructor. }
  assert (P : Forall (fun k => indexOf k = None)
                     (map fst [("@type", VStr "Thing");
                               ("@context", VStr "https://example.org/")])).
  { repeat (constructor; [reflexivity|]). constructor. }
  split; [split; [exact N|exact P]|].
  destruct (JSONLD_context_comes_first_and_can_be_overridden
              [("@type", VStr "Thing"); ("@context", VStr "https://example.org/")] N P)
    as (K & C & _ & _ & I).
  split; [exact K|]. split; [exact C|].
  apply (I "2" (VStr "two")). discriminate.
Defined.

(** 24 July 2023, 12:02:27, seven hours behind Greenwich. *)
Lemma now_layout_witness :
  (0 <= 6 <= 11 /\ 0 <= 24 <= 99 /\ 0 <= 12 <= 99 /\ 0 <= 2 <= 99 /\ 0 <= 27 <= 99
   /\ -999 <= 420 <= 999)
  /\ V1.now (V1.mkLocalDate 2023 6 24 12 2 27 420) = "2023/07/24 12:02:27 +0420"
  /\ String.length (V1.now (V1.mkLocalDate 2023 6 24 12 2 27 420)) = 25%nat.
Proof.
  split; [lia|].
  destruct (now_has_a_fixed_layout (V1.mkLocalDate 2023 6 24 12 2 27 420))
    as [E L]; cbn [V1.getMonth V1.getDate V1.getHours V1.getMinutes V1.getSeconds
                   V1.getTimezoneOffset]; try lia.
  split; [rewrite E; reflexivity|rewrite L; reflexivity].
Defined.

(** The template of the entry radiate intent. *)
Lemma template_witness :
  (oneLine "radiate intent" /\ oneLine "radiate-intent"
   /\ oneLine "2023/07/24 12:02:27 +0420" /\ Forall oneLine ["vim"])
  /\ lines (V1.template "radiate intent" "radiate-intent" "2023/07/24 12:02:27 +0420" ["vim"])
     = [ "---"; "title: radiate intent"; "permalink: radiate-intent";
         "date: 2023/07/24 12:02:27 +0420"; "tags: [vim]"; "---";
         EmptyString; EmptyString; EmptyString ].
Proof.
  assert (T : oneLine "radiate intent") by (repeat constructor; discriminate).
  assert (P : oneLine "radiate-intent") by (repeat constructor; discriminate).
  assert (D : oneLine "2023/07/24 12:02:27 +0420") by (repeat constructor; discriminate).
  assert (G : Forall oneLine ["vim"]) by (repeat constructor; discriminate).
  split; [repeat split; assumption|].
  destruct (template_puts_line_8_after_the_front_matter
              "radiate intent" "radiate-intent" "2023/07/24 12:02:27 +0420" ["vim"]
              T P D G) as [E _].
  exact E.
Defined.


(** The session at the desk settles: the entry is there after the editor
    has run. *)
Lemma main_v2_settles_witness :
  snd (Desk.main Desk.answers []) = Settled tt
  /\ exists before filename isExisting console,
       fst (Desk.main Desk.answers [])
       = (before ++ Stat (Desk.under "/til/entries" (filename ++ ".md"))
          :: (if isExisting : bool
              then [SpawnInherit
                      ("$EDITOR +8 "
                       ++ quoted (quot (Desk.under "/til/entries" (filename ++ ".md"))))]
              else [])
          ++ Exec (V2.publishCommand "/til" isExisting filename
                     (Desk.under "/til/entries" (filename ++ ".md"))) (Some 5000)
          :: console)%list
       /\ (exists out err,
             Desk.answers before (Stat (Desk.under "/til/entries" (filename ++ ".md")))
             = Gave out err)
       /\ (isExisting = false ->
           exists earlier tmp, before = (earlier ++ [Unlink tmp])%list)
       /\ Forall (fun c => isConsole c = true) console.
Proof.
  assert (S : snd (Desk.main Desk.answers []) = Settled tt) by reflexivity.
  split; [exact S|].
  exact (main_v2_settles_only_when_the_entry_is_there
           "/til" "/til/entries" Desk.under Desk.same Desk.same Desk.stamp
           Desk.argv Desk.answers S).
Defined.

